(** * rsf: resurfacing schedules embedded in Markdown notes

    A shallow embedding of [rsf.py] (version 1.0) and the properties of
    its dateblock pipeline: the two line patterns, the drop/take
    extractor, the [DueDate] record and its ordering, the due-date
    selector, the [MaybeResult] chaining wrapper, the per-file
    report string and the [resurface] command that reports the files
    of a directory.

    Conventions of the embedding.
    - A Python [str] is a list of characters; a character is its
      Unicode code point, on which [\s], [\d] and case-insensitive
      comparison are those of Python's [re] for [str] patterns (the
      character tables are those of Unicode 14.0, which Python 3.11
      carries).
    - The interpreter is CPython on a 64-bit platform: [sys.maxsize]
      is [2^63 - 1] and [datetime] is the C implementation.
    - A Python [int] is a [Z].
    - A [datetime.date] is its (year, month, day) triple; arithmetic
      with [datetime.timedelta] goes through proleptic Gregorian
      ordinals and raises [OverflowError] outside [date.min, date.max].
    - A finite line stream (an opened file, a generator over a tuple)
      is the list of the lines it yields.
    - A call either returns a value or raises an exception
      ([outcome]); logging is disabled by the module and is left out. *)

From Stdlib Require Import ZArith Lia List String Ascii Bool Permutation Sorted.
From stdpp Require Import gmap.
Import ListNotations.
Local Open Scope Z_scope.

(** ** Text *)

(** A character is its code point. *)
Abbreviation char := Z.

Abbreviation str := (list char).

Definition ord (c : char) : Z := c.

Definition chr (n : Z) : char := n.

(** A Python string literal written with ASCII characters. *)
Definition py (s : string) : str :=
  map (fun a => chr (Z.of_N (N_of_ascii a))) (list_ascii_of_string s).

Definition char_eqb (a b : char) : bool := ord a =? ord b.

(** A set of characters given as a list of ranges of code points,
    both ends included. *)
Definition in_ranges (rs : list (Z * Z)) (c : char) : bool :=
  existsb (fun r => (fst r <=? ord c) && (ord c <=? snd r)) rs.

(** [\s] of [re] on [str]: the characters for which [str.isspace]
    holds: TAB..CR, FS..US and the space, NEL, NBSP, the Ogham space
    mark, EN QUAD..HAIR SPACE, the line and paragraph separators, the
    narrow no-break space, the medium mathematical space and the
    ideographic space. *)
Definition space_ranges : list (Z * Z) :=
  [(9, 13); (28, 32); (133, 133); (160, 160); (5760, 5760); (8192, 8202);
   (8232, 8233); (8239, 8239); (8287, 8287); (12288, 12288)].

Definition uni_isspace (c : char) : bool := in_ranges space_ranges c.

(** [\d] of [re] on [str]: the characters for which [str.isdecimal]
    holds, the decimal digits of every script (category Nd). *)
Definition decimal_ranges : list (Z * Z) :=
  [(48, 57); (1632, 1641); (1776, 1785); (1984, 1993); (2406, 2415);
   (2534, 2543); (2662, 2671); (2790, 2799); (2918, 2927); (3046, 3055);
   (3174, 3183); (3302, 3311); (3430, 3439); (3558, 3567); (3664, 3673);
   (3792, 3801); (3872, 3881); (4160, 4169); (4240, 4249); (6112, 6121);
   (6160, 6169); (6470, 6479); (6608, 6617); (6784, 6793); (6800, 6809);
   (6992, 7001); (7088, 7097); (7232, 7241); (7248, 7257); (42528, 42537);
   (43216, 43225); (43264, 43273); (43472, 43481); (43504, 43513);
   (43600, 43609); (44016, 44025); (65296, 65305); (66720, 66729);
   (68912, 68921); (69734, 69743); (69872, 69881); (69942, 69951);
   (70096, 70105); (70384, 70393); (70736, 70745); (70864, 70873);
   (71248, 71257); (71360, 71369); (71472, 71481); (71904, 71913);
   (72016, 72025); (72784, 72793); (73040, 73049); (73120, 73129);
   (92768, 92777); (92864, 92873); (93008, 93017); (120782, 120831);
   (123200, 123209); (123632, 123641); (125264, 125273); (130032, 130041)].

Definition uni_isdecimal (c : char) : bool := in_ranges decimal_ranges c.

(** Lower case of an ASCII character. *)
Definition ascii_lower (c : char) : char :=
  if (65 <=? ord c) && (ord c <=? 90) then chr (ord c + 32) else c.

(** [y] matches the ASCII character [x] of a pattern compiled with
    [re.IGNORECASE]: [y] is [x] in either case, or one of the
    characters whose lower or upper case is: the dotted capital I and
    the dotless small i (U+0130, U+0131) for [i], the long s (U+017F)
    for [s], the Kelvin sign (U+212A) for [k]. *)
Definition ignorecase_eqb (x y : char) : bool :=
  let lx := ascii_lower x in
  char_eqb lx (ascii_lower y)
  || (char_eqb lx (chr 105) && (char_eqb y (chr 304) || char_eqb y (chr 305)))
  || (char_eqb lx (chr 115) && char_eqb y (chr 383))
  || (char_eqb lx (chr 107) && char_eqb y (chr 8490)).

Definition newline : char := chr 10.
Definition slash : char := chr 47.

(** ** A backtracking matcher for the constructs of the two patterns

    A match state records the text consumed so far, the text still
    ahead and the named groups captured on this branch.  [run r st]
    lists the states reachable by matching [r] from [st], in the
    priority order of a backtracking matcher (greedy alternatives
    first), so that [re.match] is the head of the list. *)

Record mstate : Type := MState {
  taken : str;
  ahead : str;
  groups : list (string * str)
}.

Inductive regex : Type :=
| Eps
| Bol
| Cls (p : char -> bool)
| Seq (a b : regex)
| Alt (a b : regex)
| Opt (a : regex)
| Star (a : regex)
| Grp (name : string) (a : regex).

Definition advance_char (c : char) (t : str) (st : mstate) : mstate :=
  MState (taken st ++ [c]) t (groups st).

Definition set_group (name : string) (st0 st : mstate) : mstate :=
  MState (taken st) (ahead st)
         ((name, skipn (length (taken st0)) (taken st)) :: groups st).

(** The iteration of [a*]: [step] is the matcher of the body; an
    iteration that consumes nothing is dropped, as [re] does. *)
Fixpoint star_loop (step : mstate -> list mstate) (fuel : nat) (st : mstate)
  {struct fuel} : list mstate :=
  match fuel with
  | O => [st]
  | S fuel' =>
      flat_map
        (fun st' =>
           if (length (ahead st') <? length (ahead st))%nat
           then star_loop step fuel' st' else [])
        (step st)
      ++ [st]
  end.

Fixpoint run (r : regex) (st : mstate) {struct r} : list mstate :=
  match r with
  | Eps => [st]
  | Bol => match taken st with [] => [st] | _ :: _ => [] end
  | Cls p =>
      match ahead st with
      | c :: t => if p c then [advance_char c t st] else []
      | [] => []
      end
  | Seq a b => flat_map (run b) (run a st)
  | Alt a b => run a st ++ run b st
  | Opt a => run a st ++ [st]
  | Star a => star_loop (run a) (length (ahead st)) st
  | Grp name a => map (set_group name st) (run a st)
  end.

Fixpoint rep (n : nat) (r : regex) : regex :=
  match n with
  | O => Eps
  | S k => Seq r (rep k r)
  end.

Declare Scope regex_scope.
Delimit Scope regex_scope with re.
Infix "+>" := Seq (at level 60, right associativity) : regex_scope.

(** A literal character, under [re.IGNORECASE] or not. *)
Definition lit (c : string) : regex :=
  match py c with
  | [x] => Cls (char_eqb x)
  | _ => Eps
  end.

Definition lit_i (c : string) : regex :=
  match py c with
  | [x] => Cls (ignorecase_eqb x)
  | _ => Eps
  end.

(** The match object of [pattern.match(line)]: [None] when no branch
    succeeds. *)
Definition re_match (r : regex) (line : str) : option mstate :=
  hd_error (run r (MState [] line [])).

(** [m.group(name)]: [None] when the group did not take part. *)
Fixpoint assoc (name : string) (gs : list (string * str)) : option str :=
  match gs with
  | [] => None
  | (n, v) :: gs' => if String.eqb n name then Some v else assoc name gs'
  end.

Definition group (m : mstate) (name : string) : option str :=
  assoc name (groups m).

(** [m.group()]: the whole matched text. *)
Definition group0 (m : mstate) : str := taken m.

(** ** The two patterns *)

Definition is_bullet (c : char) : bool :=
  char_eqb (chr 45) c || char_eqb (chr 42) c.

(** [re.compile(r'rsf:\s*\n?', re.IGNORECASE)] *)
Definition _START_PATTERN : regex :=
  (lit_i "r" +> lit_i "s" +> lit_i "f" +> lit_i ":"
   +> Star (Cls uni_isspace) +> Opt (Cls (char_eqb newline)))%re.

(** [re.compile(r'^[-*]\s*(?P<completed>x|X)?\s*(?P<date>\d{4}-\d{2}-\d{2})\s*')] *)
Definition _DATE_PATTERN : regex :=
  (Bol +> Cls is_bullet +> Star (Cls uni_isspace)
   +> Opt (Grp "completed" (Alt (lit "x") (lit "X")))
   +> Star (Cls uni_isspace)
   +> Grp "date" (rep 4 (Cls uni_isdecimal) +> lit "-"
                  +> rep 2 (Cls uni_isdecimal) +> lit "-"
                  +> rep 2 (Cls uni_isdecimal))
   +> Star (Cls uni_isspace))%re.

Definition is_some {A : Type} (o : option A) : bool :=
  match o with Some _ => true | None => false end.

Definition _isnot_start_pattern_match (line : str) : bool :=
  negb (is_some (re_match _START_PATTERN line)).

Definition _is_date_pattern_match (line : str) : bool :=
  is_some (re_match _DATE_PATTERN line).

(** ** Calendar dates (the part of [datetime] the module uses) *)

Module datetime.

(** [datetime.date]: year, month, day. *)
Record date : Type := Date { year : Z; month : Z; day : Z }.

Definition MINYEAR : Z := 1.
Definition MAXYEAR : Z := 9999.
Definition _MAXORDINAL : Z := 3652059.

Definition _is_leap (y : Z) : bool :=
  (y mod 4 =? 0) && (negb (y mod 100 =? 0) || (y mod 400 =? 0)).

Definition _DAYS_IN_MONTH (m : Z) : Z :=
  match m with
  | 1 => 31 | 2 => 28 | 3 => 31 | 4 => 30 | 5 => 31 | 6 => 30
  | 7 => 31 | 8 => 31 | 9 => 30 | 10 => 31 | 11 => 30 | 12 => 31
  | _ => -1
  end.

Definition _DAYS_BEFORE_MONTH (m : Z) : Z :=
  match m with
  | 1 => 0 | 2 => 31 | 3 => 59 | 4 => 90 | 5 => 120 | 6 => 151
  | 7 => 181 | 8 => 212 | 9 => 243 | 10 => 273 | 11 => 304 | 12 => 334
  | _ => -1
  end.

Definition _days_before_year (y : Z) : Z :=
  let y := y - 1 in y * 365 + y / 4 - y / 100 + y / 400.

Definition _days_in_month (y m : Z) : Z :=
  if (m =? 2) && _is_leap y then 29 else _DAYS_IN_MONTH m.

Definition _days_before_month (y m : Z) : Z :=
  _DAYS_BEFORE_MONTH m + (if (2 <? m) && _is_leap y then 1 else 0).

Definition _ymd2ord (y m d : Z) : Z :=
  _days_before_year y + _days_before_month y m + d.

Definition _DI400Y : Z := 146097.
Definition _DI100Y : Z := 36524.
Definition _DI4Y : Z := 1461.

Definition _ord2ymd (n : Z) : Z * Z * Z :=
  let n := n - 1 in
  let n400 := n / _DI400Y in
  let n := n mod _DI400Y in
  let y := n400 * 400 + 1 in
  let n100 := n / _DI100Y in
  let n := n mod _DI100Y in
  let n4 := n / _DI4Y in
  let n := n mod _DI4Y in
  let n1 := n / 365 in
  let n := n mod 365 in
  let y := y + n100 * 100 + n4 * 4 + n1 in
  if (n1 =? 4) || (n100 =? 4) then (y - 1, 12, 31)
  else
    let leapyear := (n1 =? 3) && (negb (n4 =? 24) || (n100 =? 3)) in
    let m := Z.shiftr (n + 50) 5 in
    let preceding :=
      _DAYS_BEFORE_MONTH m + (if (2 <? m) && leapyear then 1 else 0) in
    if n <? preceding then
      let m := m - 1 in
      let preceding :=
        preceding
        - (_DAYS_IN_MONTH m + (if (m =? 2) && leapyear then 1 else 0)) in
      (y, m, n - preceding + 1)
    else (y, m, n - preceding + 1).

Definition toordinal (d : date) : Z := _ymd2ord (year d) (month d) (day d).

Definition fromordinal (n : Z) : date :=
  let '(y, m, d) := _ord2ymd n in Date y m d.

(** The dates a [date] object can hold. *)
Definition valid (d : date) : bool :=
  (MINYEAR <=? year d) && (year d <=? MAXYEAR)
  && (1 <=? month d) && (month d <=? 12)
  && (1 <=? day d) && (day d <=? _days_in_month (year d) (month d)).

(** Comparison of dates: that of the triples. *)
Definition eqb (a b : date) : bool :=
  (year a =? year b) && (month a =? month b) && (day a =? day b).

Definition ltb (a b : date) : bool :=
  (year a <? year b)
  || ((year a =? year b)
      && ((month a <? month b)
          || ((month a =? month b) && (day a <? day b)))).

Definition leb (a b : date) : bool := ltb a b || eqb a b.

(** The decimal digit of weight [10^k] of [n]. *)
Definition digit_at (n : Z) (k : Z) : char := chr (48 + (n / 10 ^ k) mod 10).

(** ["%04d-%02d-%02d"] on the fields of a date (the year has at most
    four digits, month and day at most two). *)
Definition isoformat (d : date) : str :=
  [digit_at (year d) 3; digit_at (year d) 2;
   digit_at (year d) 1; digit_at (year d) 0]
  ++ [chr 45; digit_at (month d) 1; digit_at (month d) 0]
  ++ [chr 45; digit_at (day d) 1; digit_at (day d) 0].

Definition digit_val (c : char) : option Z :=
  let n := ord c - 48 in
  if (0 <=? n) && (n <=? 9) then Some n else None.

(** The strict [YYYY-MM-DD] reading of [date.fromisoformat], with
    the digits 0 to 9: [None] stands for the [ValueError] it raises on
    fields that are not a calendar date and on other text.  (From
    Python 3.11 on, some other text is read as well: [YYYYMMDD] and
    week dates; none of it has ten characters with dashes at the
    fifth and the eighth place, which is all [from_datestr] passes.) *)
Definition parse_iso (s : str) : option date :=
  match s with
  | [y1; y2; y3; y4; s1; m1; m2; s2; d1; d2] =>
      match digit_val y1, digit_val y2, digit_val y3, digit_val y4,
            digit_val m1, digit_val m2, digit_val d1, digit_val d2 with
      | Some a, Some b, Some c, Some d, Some e, Some f, Some g, Some h =>
          let dt := Date (a * 1000 + b * 100 + c * 10 + d)
                         (e * 10 + f) (g * 10 + h) in
          if char_eqb s1 (chr 45) && char_eqb s2 (chr 45) && valid dt
          then Some dt else None
      | _, _, _, _, _, _, _, _ => None
      end
  | _ => None
  end.

End datetime.

(** ** The date record and the exceptions *)

(** [@dataclass(order=True) class DueDate]: [date] takes part in
    comparisons, [completed] does not. *)
Record DueDate : Type := mkDueDate {
  date : datetime.date;
  completed : bool
}.

(** The exceptions a call can raise: the three kinds of the module
    (subclasses of [RsfException]) and the built-in ones that the
    modelled calls can raise. *)
Inductive exn : Type :=
| DateblockNotFound
| NoDueDateFound (date_range : datetime.date * datetime.date)
                 (dateblock : list DueDate)
| StringParsingError (string : str)
| ValueError
| AttributeError
| OverflowError
| TypeError.

(** [isinstance(e, RsfException)] *)
Definition is_RsfException (e : exn) : bool :=
  match e with
  | DateblockNotFound | NoDueDateFound _ _ | StringParsingError _ => true
  | ValueError | AttributeError | OverflowError | TypeError => false
  end.

(** [type(e).__name__] *)
Definition exn_name (e : exn) : str :=
  match e with
  | DateblockNotFound => py "DateblockNotFound"
  | NoDueDateFound _ _ => py "NoDueDateFound"
  | StringParsingError _ => py "StringParsingError"
  | ValueError => py "ValueError"
  | AttributeError => py "AttributeError"
  | OverflowError => py "OverflowError"
  | TypeError => py "TypeError"
  end.

Inductive outcome (A : Type) : Type :=
| Return (a : A)
| Raise (e : exn).

Arguments Return {A} a.
Arguments Raise {A} e.

Definition obind {A B : Type} (x : outcome A) (k : A -> outcome B)
  : outcome B :=
  match x with
  | Return a => k a
  | Raise e => Raise e
  end.

Notation "'do' x <- c ; k" := (obind c (fun x => k))
  (at level 10, x name, c at level 100, k at level 200).

Fixpoint omap {A B : Type} (f : A -> outcome B) (l : list A)
  : outcome (list B) :=
  match l with
  | [] => Return []
  | a :: l' => do b <- f a; do bs <- omap f l'; Return (b :: bs)
  end.

(** ** Iterators over finite streams *)

Module sys.

(** [sys.maxsize]: the largest value of a C [Py_ssize_t]. *)
Definition maxsize : Z := 2 ^ 63 - 1.

End sys.

Module itertools.

Fixpoint dropwhile {A : Type} (p : A -> bool) (l : list A) : list A :=
  match l with
  | [] => []
  | x :: l' => if p x then dropwhile p l' else l
  end.

Fixpoint takewhile {A : Type} (p : A -> bool) (l : list A) : list A :=
  match l with
  | [] => []
  | x :: l' => if p x then x :: takewhile p l' else []
  end.

(** [islice(it, start, None)] *)
Definition islice {A : Type} (l : list A) (start : nat) : list A :=
  skipn start l.

(** [repeat(x, times)]: the count is converted to a C [Py_ssize_t],
    which raises [OverflowError] when it does not fit; a negative
    count gives no element. *)
Definition repeat {A : Type} (x : A) (times : Z) : outcome (list A) :=
  if (times <? - sys.maxsize - 1) || (sys.maxsize <? times)
  then Raise OverflowError
  else Return (List.repeat x (Z.to_nat times)).

(** [compress(data, selectors)]: the elements of [data] whose
    selector is true, until either runs out. *)
Fixpoint compress {A : Type} (data : list A) (selectors : list bool)
  : list A :=
  match data, selectors with
  | d :: data', s :: selectors' =>
      if s then d :: compress data' selectors'
      else compress data' selectors'
  | _, _ => []
  end.

End itertools.

(** ** The dateblock extractor *)

Definition _droptake {A : Type} (drop_pred take_pred : A -> bool)
  (iterable : list A) : list A :=
  let dropped := itertools.dropwhile drop_pred iterable in
  let drop_skipped := itertools.islice dropped 1 in
  itertools.takewhile take_pred drop_skipped.

(** [s.lstrip(chars)], [s.rstrip(chars)] and [s.strip(chars)] for a
    one-character [chars]. *)
Definition lstrip (c : char) (s : str) : str :=
  itertools.dropwhile (char_eqb c) s.

Definition rstrip (c : char) (s : str) : str :=
  rev (itertools.dropwhile (char_eqb c) (rev s)).

Definition strip (c : char) (s : str) : str := rstrip c (lstrip c s).

Definition _strip_trailing_newline (s : str) : str := strip newline s.

Definition find_dateblock (stream : list str) : outcome (list str) :=
  let dateblock :=
    _droptake _isnot_start_pattern_match _is_date_pattern_match stream in
  if (length dateblock =? 0)%nat then Raise DateblockNotFound
  else Return (map _strip_trailing_newline dateblock).

(** ** Parsing entries *)

(** [datetime.date.fromisoformat] *)
Definition fromisoformat (s : str) : outcome datetime.date :=
  match datetime.parse_iso s with
  | Some d => Return d
  | None => Raise ValueError
  end.

(** Truth value of a [str] or [None]. *)
Definition truthy (o : option str) : bool :=
  match o with
  | Some (_ :: _) => true
  | Some [] | None => false
  end.

(** [DueDate.from_datestr]: [m.group(...)] on [m = None] raises
    [AttributeError]; the date group is used when it is a non-empty
    string. *)
Definition from_datestr (datestr : str) : outcome DueDate :=
  match re_match _DATE_PATTERN datestr with
  | None => Raise AttributeError
  | Some m =>
      let completed := truthy (group m "completed") in
      match group m "date" with
      | Some ((_ :: _) as date_) =>
          do date <- fromisoformat date_;
          Return (mkDueDate date completed)
      | Some [] | None => Raise (StringParsingError (group0 m))
      end
  end.

Definition _duedateblock_from_strdateblock (dateblock : list str)
  : outcome (list DueDate) :=
  omap from_datestr dateblock.

(** ** Ordering of entries and [sorted] *)

(** Comparison of the one-element tuples [(a.date,)] and [(b.date,)]
    that the generated [__lt__] and [__eq__] compare. *)
Definition tuple1_lt (a b : datetime.date) : bool :=
  if datetime.eqb a b then false else datetime.ltb a b.

Definition DueDate_lt (a b : DueDate) : bool := tuple1_lt (date a) (date b).

Definition DueDate_eq (a b : DueDate) : bool := datetime.eqb (date a) (date b).

(** [sorted(l)]: the stable sort that compares with [<] only.  An
    element goes in front of the first one that is not smaller. *)
Fixpoint insort {A : Type} (lt : A -> A -> bool) (x : A) (l : list A)
  : list A :=
  match l with
  | [] => [x]
  | y :: l' => if lt y x then y :: insort lt x l' else x :: l
  end.

Definition sorted {A : Type} (lt : A -> A -> bool) (l : list A) : list A :=
  fold_right (insort lt) [] l.

(** ** The due-date selector *)

Record DateRange : Type := mkDateRange {
  earliest : datetime.date;
  latest : datetime.date
}.

(** [date in daterange] *)
Definition DateRange_contains (r : DateRange) (d : datetime.date) : bool :=
  datetime.leb (earliest r) d && datetime.leb d (latest r).

Definition DateRange_tuple (r : DateRange) : datetime.date * datetime.date :=
  (earliest r, latest r).

(** [datetime.timedelta(days=n)]: the number of days, at most
    999999999 in absolute value. *)
Definition timedelta (days : Z) : outcome Z :=
  if Z.abs days <=? 999999999 then Return days else Raise OverflowError.

(** [d + delta] and [d - delta] *)
Definition date_add (d : datetime.date) (delta : Z) : outcome datetime.date :=
  let o := datetime.toordinal d + delta in
  if (0 <? o) && (o <=? datetime._MAXORDINAL)
  then Return (datetime.fromordinal o) else Raise OverflowError.

Definition date_sub (d : datetime.date) (delta : Z) : outcome datetime.date :=
  date_add d (- delta).

Definition _make_date_range (ref : datetime.date) (overdue advance : Z)
  : outcome DateRange :=
  do overdue_delta <- timedelta overdue;
  do advance_delta <- timedelta advance;
  do earliest <- date_sub ref overdue_delta;
  do latest <- date_add ref advance_delta;
  Return (mkDateRange earliest latest).

(** The [for d in dates] loop: [None] when it runs to its [else]. *)
Fixpoint first_due (daterange : DateRange) (dates : list DueDate)
  : option datetime.date :=
  match dates with
  | [] => None
  | d :: dates' =>
      if completed d then first_due daterange dates'
      else if DateRange_contains daterange (date d) then Some (date d)
      else first_due daterange dates'
  end.

Definition get_due_date (dateblock : list DueDate) (reference : datetime.date)
  (overdue advance : Z) : outcome datetime.date :=
  do daterange <- _make_date_range reference overdue advance;
  let dates := sorted DueDate_lt dateblock in
  match first_due daterange dates with
  | Some d => Return d
  | None => Raise (NoDueDateFound (DateRange_tuple daterange) dateblock)
  end.

(** ** Presentation *)

(** [s.split(sep)] for a one-character separator. *)
Fixpoint split (sep : char) (s : str) : list str :=
  match s with
  | [] => [[]]
  | c :: s' =>
      if char_eqb c sep then [] :: split sep s'
      else match split sep s' with
           | w :: ws => (c :: w) :: ws
           | [] => [[c]]
           end
  end.

(** [sep in s] *)
Definition contains (sep : char) (s : str) : bool := existsb (char_eqb sep) s.

Definition _excise_filestem (filename : str) : str :=
  if contains slash filename then List.last (split slash filename) []
  else filename.

Definition get_due_str (due_date : datetime.date) (filename : str) : str :=
  let filename := _excise_filestem filename in
  py "DUE : " ++ datetime.isoformat due_date ++ py " : " ++ filename.

Definition _limit_stream {A : Type} (stream : list A) (limit : Z)
  : outcome (list A) :=
  if limit <=? 0 then Return stream
  else
    do selectors <- itertools.repeat true limit;
    Return (itertools.compress stream selectors).

(** ** The result wrapper and the per-file pipeline *)

(** The values that flow through the pipeline ([typing.Any]). *)
Inductive Any : Type :=
| ALines (lines : list str)
| ADues (dues : list DueDate)
| ADate (d : datetime.date)
| AStr (s : str)
| AExc (e : exn).

(** [type(v).__name__] *)
Definition type_name (v : Any) : str :=
  match v with
  | ALines _ | ADues _ => py "list"
  | ADate _ => py "date"
  | AStr _ => py "str"
  | AExc e => exn_name e
  end.

Record MaybeResult : Type := _new {
  value : Any;
  success : bool
}.

(** Computations that may raise and that act on a state of type [S]:
    what a function handed to [bind] may do. *)
Definition M (S A : Type) : Type := S -> outcome A * S.

Definition mret {S A : Type} (a : A) : M S A := fun s => (Return a, s).

Definition mbind {S A B : Type} (x : M S A) (k : A -> M S B) : M S B :=
  fun s =>
    match x s with
    | (Return a, s') => k a s'
    | (Raise e, s') => (Raise e, s')
    end.

Notation "'doM' x <- c ; k" := (mbind c (fun x => k))
  (at level 10, x name, c at level 100, k at level 200).

(** [MaybeResult.bind] *)
Definition bind {S : Type} (self : MaybeResult) (func : Any -> M S Any)
  : M S MaybeResult :=
  fun s =>
    if negb (success self) then (Return self, s)
    else
      match func (value self) s with
      | (Return new_value, s') => (Return (_new new_value true), s')
      | (Raise e, s') =>
          if is_RsfException e then (Return (_new (AExc e) false), s')
          else (Raise e, s')
      end.

(** A function without effects, as a stage. *)
Definition pure_stage {S : Type} (f : Any -> outcome Any) : Any -> M S Any :=
  fun v s => (f v, s).

(** [r.bind(f1).bind(f2)...]: the chain over a list of stages. *)
Fixpoint bind_all {S : Type} (r : MaybeResult) (fs : list (Any -> M S Any))
  : M S MaybeResult :=
  match fs with
  | [] => mret r
  | f :: fs' => doM r' <- bind r f; bind_all r' fs'
  end.

(** The four stages on [Any]; a value of another type raises
    [TypeError]. *)
Definition find_dateblock_stage (v : Any) : outcome Any :=
  match v with
  | ALines stream => do r <- find_dateblock stream; Return (ALines r)
  | _ => Raise TypeError
  end.

Definition _duedateblock_from_strdateblock_stage (v : Any) : outcome Any :=
  match v with
  | ALines dateblock =>
      do r <- _duedateblock_from_strdateblock dateblock; Return (ADues r)
  | _ => Raise TypeError
  end.

Definition get_due_date_stage (reference : datetime.date) (overdue advance : Z)
  (v : Any) : outcome Any :=
  match v with
  | ADues dateblock =>
      do r <- get_due_date dateblock reference overdue advance;
      Return (ADate r)
  | _ => Raise TypeError
  end.

Definition get_due_str_stage (filename : str) (v : Any) : outcome Any :=
  match v with
  | ADate due_date => Return (AStr (get_due_str due_date filename))
  | _ => Raise TypeError
  end.

(** The chain of [get_duestr_from_file] on the limited stream. *)
Definition pipeline (stream_ : list str) (filename : str)
  (reference : datetime.date) (overdue advance : Z) : M unit MaybeResult :=
  doM r1 <- bind (_new (ALines stream_) true) (pure_stage find_dateblock_stage);
  doM r2 <- bind r1 (pure_stage _duedateblock_from_strdateblock_stage);
  doM r3 <- bind r2 (pure_stage (get_due_date_stage reference overdue advance));
  bind r3 (pure_stage (get_due_str_stage filename)).

(** [get_duestr_from_file] on a file that can be opened and read as
    text: [stream] is the list of lines that iterating over the opened
    file yields.  (A file that cannot be opened or decoded makes
    [open] or the iteration raise [OSError] or [UnicodeDecodeError],
    which nothing here catches; that path is not part of the
    embedding.) *)
Definition get_duestr_from_file (stream : list str) (filename : str)
  (reference : datetime.date) (overdue advance : Z) (return_nodues : bool)
  (limit : Z) : outcome Any :=
  do stream_ <- _limit_stream stream limit;
  do result <- fst (pipeline stream_ filename reference overdue advance tt);
  if success result then Return (value result)
  else if return_nodues then
    Return (AStr (type_name (value result) ++ py " : "
                  ++ _excise_filestem filename))
  else Return (AStr []).

(** ** The selector on a store of list objects

    A Python list is an object in a store; [sorted] allocates a new
    one and leaves its argument alone, and [NoDueDateFound] keeps a
    reference to the list it was given. *)

Module Heap.

Abbreviation loc := nat.
Abbreviation heap := (gmap nat (list DueDate)).

Inductive result : Type :=
| Returns (d : datetime.date)
| RaisesNoDueDateFound (date_range : datetime.date * datetime.date)
                       (dateblock : loc)
| Raises (e : exn)
| Dangling.

(** [sorted(l)] on the store: a new list object. *)
Definition sorted_new (l : loc) (h : heap) : option (loc * heap) :=
  match h !! l with
  | Some xs =>
      let l' := fresh (dom h) in
      Some (l', <[l' := sorted DueDate_lt xs]> h)
  | None => None
  end.

Definition get_due_date (dateblock : loc) (reference : datetime.date)
  (overdue advance : Z) (h : heap) : result * heap :=
  match _make_date_range reference overdue advance with
  | Raise e => (Raises e, h)
  | Return daterange =>
      match sorted_new dateblock h with
      | None => (Dangling, h)
      | Some (dates, h') =>
          match h' !! dates with
          | None => (Dangling, h')
          | Some ds =>
              match first_due daterange ds with
              | Some d => (Returns d, h')
              | None =>
                  (RaisesNoDueDateFound (DateRange_tuple daterange)
                                        dateblock, h')
              end
          end
      end
  end.

(** The outcome as the caller sees it, with references read from
    the store. *)
Definition observe (r : result) (h : heap) : option (outcome datetime.date) :=
  match r with
  | Returns d => Some (Return d)
  | RaisesNoDueDateFound rng l =>
      match h !! l with
      | Some xs => Some (Raise (NoDueDateFound rng xs))
      | None => None
      end
  | Raises e => Some (Raise e)
  | Dangling => None
  end.

End Heap.

(** ** What the two patterns match, read off directly

    The functions below compute the match of each pattern without
    backtracking; the theorems show that the matcher agrees with them. *)

(** The state after a greedy [\s*]. *)
Definition greedy (p : char -> bool) (st : mstate) : mstate :=
  MState (taken st ++ itertools.takewhile p (ahead st))
         (itertools.dropwhile p (ahead st)) (groups st).

(** All the states [p*] can stop in, longest first. *)
Fixpoint star_points (p : char -> bool) (tk ah : str)
  (g : list (string * str)) : list mstate :=
  match ah with
  | c :: t =>
      if p c then star_points p (tk ++ [c]) t g ++ [MState tk ah g]
      else [MState tk ah g]
  | [] => [MState tk ah g]
  end.

Definition is_flag (c : char) : bool :=
  char_eqb (chr 120) c || char_eqb (chr 88) c.

Definition is_dash (c : char) : bool := char_eqb (chr 45) c.

(** Four digits, a dash, two digits, a dash, two digits; a digit is
    any character that [\d] matches. *)
Definition date_token_shape (t : str) : bool :=
  match t with
  | [y1; y2; y3; y4; s1; m1; m2; s2; d1; d2] =>
      uni_isdecimal y1 && uni_isdecimal y2 && uni_isdecimal y3
      && uni_isdecimal y4 && is_dash s1
      && uni_isdecimal m1 && uni_isdecimal m2 && is_dash s2
      && uni_isdecimal d1 && uni_isdecimal d2
  | _ => false
  end.

(** The match of [\s*(?P<date>...)\s*] from a state. *)
Definition after_flag (f : mstate) : option mstate :=
  let g2 := greedy uni_isspace f in
  let tok := firstn 10 (ahead g2) in
  if date_token_shape tok then
    Some (greedy uni_isspace
            (MState (taken g2 ++ tok) (skipn 10 (ahead g2))
                    (("date"%string, tok) :: groups g2)))
  else None.

(** The match of [_DATE_PATTERN] on [line]. *)
Definition entry_match (line : str) : option mstate :=
  match line with
  | b :: t =>
      if is_bullet b then
        let g1 := greedy uni_isspace (MState [b] t []) in
        match ahead g1 with
        | c :: t' =>
            if is_flag c
            then after_flag (MState (taken g1 ++ [c]) t'
                                    (("completed"%string, [c]) :: groups g1))
            else after_flag g1
        | [] => after_flag g1
        end
      else None
  | [] => None
  end.

(** The text of an optional capture. *)
Definition capture_text (o : option str) : str :=
  match o with Some s => s | None => [] end.

(** A line the date pattern accepts, with its two captures: a bullet
    at the very start, whitespace, an optional flag, whitespace, the
    date token, and then anything. *)
Definition entry_shape (line : str) (flag : option str) (token : str) : Prop :=
  exists (b : char) (ws1 ws2 rest : str),
    line = b :: ws1 ++ capture_text flag ++ ws2 ++ token ++ rest
    /\ is_bullet b = true
    /\ forallb uni_isspace ws1 = true
    /\ (flag = None \/ exists c, flag = Some [c] /\ is_flag c = true)
    /\ forallb uni_isspace ws2 = true
    /\ date_token_shape token = true.

(** The first four characters of a line the start pattern accepts. *)
Definition start_shape (line : str) : bool :=
  match line with
  | c1 :: c2 :: c3 :: c4 :: _ =>
      ignorecase_eqb (chr 114) c1 && ignorecase_eqb (chr 115) c2
      && ignorecase_eqb (chr 102) c3 && ignorecase_eqb (chr 58) c4
  | _ => false
  end.

(** ** The line shapes in the words of the specification *)

(** "the case-insensitive literal rsf: anchored at line start,
    optionally followed by whitespace and an optional trailing
    newline, and nothing else" *)
Definition spec_start_marker_line (line : str) : bool :=
  start_shape line
  && match itertools.dropwhile uni_isspace (skipn 4 line) with
     | [] => true
     | [c] => char_eqb c newline
     | _ => false
     end.

(** "a date token of exactly YYYY-MM-DD": four, two and two of the
    digits 0 to 9, with dashes between. *)
Definition spec_digit (c : char) : bool := (48 <=? ord c) && (ord c <=? 57).

Definition spec_date_token (t : str) : bool :=
  match t with
  | [y1; y2; y3; y4; s1; m1; m2; s2; d1; d2] =>
      spec_digit y1 && spec_digit y2 && spec_digit y3 && spec_digit y4
      && is_dash s1 && spec_digit m1 && spec_digit m2 && is_dash s2
      && spec_digit d1 && spec_digit d2
  | _ => false
  end.

(** "optional leading whitespace, a bullet character, optional
    whitespace, an optional single completion flag, optional
    whitespace, a date token of exactly YYYY-MM-DD, then optional
    trailing whitespace and nothing else" *)
Definition spec_date_entry_line (line : str) : bool :=
  match itertools.dropwhile uni_isspace line with
  | b :: t =>
      is_bullet b
      && (let t1 := itertools.dropwhile uni_isspace t in
          let t2 := match t1 with
                    | c :: t' => if is_flag c then t' else t1
                    | [] => t1
                    end in
          let t3 := itertools.dropwhile uni_isspace t2 in
          spec_date_token (firstn 10 t3)
          && match itertools.dropwhile uni_isspace (skipn 10 t3) with
             | [] => true
             | _ :: _ => false
             end)
  | [] => false
  end.

(** "plain take-first-N truncation" *)
Definition take_first (n : Z) {A : Type} (stream : list A) : list A :=
  firstn (Z.to_nat n) stream.

(** ** Notions used to state the properties *)

(** [out] is [line] without its trailing newline characters. *)
Definition trailing_newlines_stripped (line out : str) : Prop :=
  (exists k : nat, line = out ++ List.repeat newline k)
  /\ (forall s', out <> s' ++ [newline]).

(** A stream cut at its first start marker: the lines before it, the
    marker, the run of entry lines right after it, and what follows
    the run (nothing, or a line that is not an entry first). *)
Definition dateblock_at (stream pre : list str) (marker : str)
  (block rest : list str) : Prop :=
  stream = pre ++ marker :: block ++ rest
  /\ forallb _isnot_start_pattern_match pre = true
  /\ _isnot_start_pattern_match marker = false
  /\ forallb _is_date_pattern_match block = true
  /\ match rest with
     | [] => True
     | l :: _ => _is_date_pattern_match l = false
     end.

(** An entry that is not completed and whose date lies in the range. *)
Definition due_in (r : DateRange) (d : DueDate) : bool :=
  negb (completed d) && DateRange_contains r (date d).

(** The window of the selector exists: both day counts fit a
    [timedelta] and both ends are dates. *)
Definition range_representable (ref : datetime.date) (overdue advance : Z)
  : bool :=
  (Z.abs overdue <=? 999999999) && (Z.abs advance <=? 999999999)
  && (0 <? datetime.toordinal ref - overdue)
  && (datetime.toordinal ref - overdue <=? datetime._MAXORDINAL)
  && (0 <? datetime.toordinal ref + advance)
  && (datetime.toordinal ref + advance <=? datetime._MAXORDINAL).

(** [base] is what follows the last slash of [filename], or all of
    [filename] when it has no slash. *)
Definition basename_of (filename base : str) : Prop :=
  (contains slash filename = false /\ base = filename)
  \/ (exists pre, filename = pre ++ slash :: base
                  /\ contains slash base = false).

(** The four stages composed directly, without the wrapper. *)
Definition stages (stream_ : list str) (filename : str)
  (reference : datetime.date) (overdue advance : Z) : outcome str :=
  do dateblock <- find_dateblock stream_;
  do duedates <- _duedateblock_from_strdateblock dateblock;
  do due_date <- get_due_date duedates reference overdue advance;
  Return (get_due_str due_date filename).


(** ** Parts of the date pattern, named for the proofs *)

Definition date_group : regex :=
  Grp "date" (rep 4 (Cls uni_isdecimal) +> lit "-"
              +> rep 2 (Cls uni_isdecimal) +> lit "-"
              +> rep 2 (Cls uni_isdecimal))%re.

Definition date_then : regex := Seq date_group (Star (Cls uni_isspace)).

Definition ws_date_then : regex := Seq (Star (Cls uni_isspace)) date_then.

Definition flag_group : regex :=
  Opt (Grp "completed" (Alt (lit "x") (lit "X"))).

(** No range of [rs1] meets a range of [rs2]. *)
Definition ranges_apart (rs1 rs2 : list (Z * Z)) : bool :=
  forallb (fun r1 =>
             forallb (fun r2 => (snd r1 <? fst r2) || (snd r2 <? fst r1)) rs2)
          rs1.

(** [a] may come before [b] in a list sorted with [lt]. *)
Definition nlt {A : Type} (lt : A -> A -> bool) (a b : A) : Prop :=
  lt b a = false.

(** ** Notions used to relate dates and ordinals *)

(** The extra day of a leap year. *)
Definition leap_days (y : Z) : Z := if datetime._is_leap y then 1 else 0.

(** [fromordinal] and [toordinal] agree at [o], within the first 400
    years. *)
Definition cycle_ok (o : Z) : bool :=
  let d := datetime.fromordinal o in
  datetime.valid d && (datetime.toordinal d =? o)
  && (datetime.year d <=? 400)
  && ((145731 <? o) || (datetime.year d <=? 399)).

Definition cycle_step (st : Z * bool) : Z * bool :=
  (fst st + 1, snd st && cycle_ok (fst st)).

(** The ordinals 1..n all pass [cycle_ok]. *)
Definition checked_upto (n : positive) : bool :=
  snd (Pos.iter cycle_step (1, true) n).

(** A line of a text file that is not the last one: the text and the
    newline character. *)
Definition line_nl (s : string) : str := py s ++ [newline].

(** ** The command-line driver

    [resurface] is run in a directory; [glob_md] and [glob_txt] are
    the paths that [cwd.glob('*.md')] and [cwd.glob('*.txt')] list,
    each given as the string [str(path)], and [read path] is the list
    of lines of the file at [path]: every listed path is taken to name
    a readable text file, so the exceptions of [open] are not part of
    the embedding.  The paths of one directory compare as their
    strings do (POSIX paths; the order of [str] is that of the code
    points).  The reference is read in the strict [YYYY-MM-DD] form,
    which every version of [date.fromisoformat] reads alike; the
    properties of the driver are stated for references of that form.
    The value returned is the list of the lines echoed, in order. *)

(** Comparison of two [str] by code points. *)
Fixpoint str_ltb (a b : str) : bool :=
  match a, b with
  | [], [] => false
  | [], _ :: _ => true
  | _ :: _, [] => false
  | x :: a', y :: b' =>
      if ord x <? ord y then true
      else if ord y <? ord x then false
      else str_ltb a' b'
  end.

(** [l.sort(reverse=True)]: the list is reversed, sorted and reversed
    again, which keeps equal elements in their original order. *)
Definition sort_reverse {A : Type} (lt : A -> A -> bool) (l : list A)
  : list A :=
  rev (sorted lt (rev l)).

(** [r != ''] *)
Definition is_not_empty_str (r : Any) : bool :=
  match r with
  | AStr [] => false
  | _ => true
  end.

Definition resurface (read : str -> list str) (glob_md glob_txt : list str)
  (reference : str) (overdue advance : Z) (verbose include_txt : bool)
  (limit : Z) : outcome (list Any) :=
  do reference_ <- fromisoformat reference;
  let glob_ := glob_md ++ (if include_txt then glob_txt else []) in
  let glob_ := sort_reverse str_ltb glob_ in
  do results <-
    omap (fun filename =>
            get_duestr_from_file (read filename) filename reference_
                                 overdue advance verbose limit)
         glob_;
  Return (List.filter is_not_empty_str results).

(** ** More notions used to state properties *)

(** The dates of the entries of [l] that are not completed. *)
Definition open_date (l : list DueDate) (x : datetime.date) : Prop :=
  exists e, In e l /\ completed e = false /\ date e = x.

(** A failed result holds one of the module's exceptions. *)
Definition well_formed (r : MaybeResult) : Prop :=
  success r = false ->
  exists e, value r = AExc e /\ is_RsfException e = true.

(** [s.startswith(p)] *)
Fixpoint startswith (s p : str) : bool :=
  match p, s with
  | [], _ => true
  | _ :: _, [] => false
  | c :: p', d :: s' => char_eqb c d && startswith s' p'
  end.

(** A line that reports a due date. *)
Definition is_due_line (r : Any) : bool :=
  match r with
  | AStr s => startswith s (py "DUE : ")
  | _ => false
  end.

(** The paths in the order in which [resurface] reads them. *)
Definition files_read (glob_md glob_txt : list str) (include_txt : bool)
  : list str :=
  sort_reverse str_ltb (glob_md ++ (if include_txt then glob_txt else [])).

(** The line that lists [e] in a note: a dash, the flag of a completed
    entry, the date in ISO form and the end of the line. *)
Definition entry_line (e : DueDate) : str :=
  py "- " ++ (if completed e then py "x " else []) ++
  datetime.isoformat (date e) ++ [newline].

(** * Properties *)

(** ** Characters *)

Lemma char_eqb_eq a b : char_eqb a b = true <-> a = b.
Proof. unfold char_eqb, ord. apply Z.eqb_eq. Qed.

Lemma in_ranges_true rs c :
  in_ranges rs c = true <-> exists r, In r rs /\ fst r <= c <= snd r.
Proof.
  unfold in_ranges, ord. rewrite existsb_exists.
  split; intros (r & Hr & H); exists r; (split; [exact Hr|]).
  - apply andb_true_iff in H. lia.
  - apply andb_true_iff. lia.
Qed.

Lemma ranges_apart_false rs1 rs2 c :
  ranges_apart rs1 rs2 = true ->
  in_ranges rs1 c = true -> in_ranges rs2 c = false.
Proof.
  intros Ha H1. destruct (in_ranges rs2 c) eqn:H2; [|reflexivity].
  apply in_ranges_true in H1 as (r1 & Hr1 & H1).
  apply in_ranges_true in H2 as (r2 & Hr2 & H2).
  unfold ranges_apart in Ha. rewrite forallb_forall in Ha.
  specialize (Ha r1 Hr1). rewrite forallb_forall in Ha.
  specialize (Ha r2 Hr2). apply orb_true_iff in Ha. lia.
Qed.

Lemma char_eqb_range k c : char_eqb k c = in_ranges [(k, k)] c.
Proof.
  unfold in_ranges, char_eqb, ord. cbn [existsb fst snd].
  rewrite orb_false_r.
  destruct (Z.eqb_spec k c), (Z.leb_spec k c), (Z.leb_spec c k);
    try reflexivity; lia.
Qed.

Lemma is_flag_ranges c : is_flag c = in_ranges [(120, 120); (88, 88)] c.
Proof.
  unfold is_flag. rewrite !char_eqb_range. unfold in_ranges.
  cbn [existsb]. rewrite !orb_false_r. reflexivity.
Qed.

Lemma is_bullet_ranges c : is_bullet c = in_ranges [(45, 45); (42, 42)] c.
Proof.
  unfold is_bullet. rewrite !char_eqb_range. unfold in_ranges.
  cbn [existsb]. rewrite !orb_false_r. reflexivity.
Qed.

Lemma space_not_digit c : uni_isspace c = true -> uni_isdecimal c = false.
Proof. apply ranges_apart_false. reflexivity. Qed.

Lemma space_not_flag c : uni_isspace c = true -> is_flag c = false.
Proof. rewrite is_flag_ranges. apply ranges_apart_false. reflexivity. Qed.

Lemma flag_not_digit c : is_flag c = true -> uni_isdecimal c = false.
Proof. rewrite is_flag_ranges. apply ranges_apart_false. reflexivity. Qed.

Lemma digit_not_space c : uni_isdecimal c = true -> uni_isspace c = false.
Proof. apply ranges_apart_false. reflexivity. Qed.

Lemma digit_not_flag c : uni_isdecimal c = true -> is_flag c = false.
Proof. rewrite is_flag_ranges. apply ranges_apart_false. reflexivity. Qed.

Lemma flag_not_space c : is_flag c = true -> uni_isspace c = false.
Proof. rewrite is_flag_ranges. apply ranges_apart_false. reflexivity. Qed.

Lemma newline_is_space c : char_eqb newline c = true -> uni_isspace c = true.
Proof. intros H. apply char_eqb_eq in H. subst c. reflexivity. Qed.

Lemma bullet_not_newline c : is_bullet c = true -> char_eqb newline c = false.
Proof.
  rewrite is_bullet_ranges, char_eqb_range. apply ranges_apart_false.
  reflexivity.
Qed.

(** The characters that [re.IGNORECASE] takes for [r], [s], [f] and
    the colon. *)
Ltac ignorecase_cases c :=
  unfold ignorecase_eqb; cbv zeta;
  match goal with
  | |- context [ascii_lower (chr ?x)] =>
      let v := eval vm_compute in (ascii_lower (chr x)) in
      change (ascii_lower (chr x)) with (chr v)
  end;
  repeat match goal with
         | |- context [char_eqb (chr ?a) (chr ?b)] =>
             let v := eval vm_compute in (char_eqb (chr a) (chr b)) in
             change (char_eqb (chr a) (chr b)) with v
         end;
  cbn [andb orb]; rewrite ?orb_false_r;
  unfold ascii_lower, char_eqb, chr, ord;
  destruct (Z.leb_spec 65 c), (Z.leb_spec c 90); cbn [andb];
  repeat match goal with
         | |- context [?a =? ?b] => destruct (Z.eqb_spec a b)
         end;
  cbn [orb]; split; intros; try discriminate; try lia; auto.

Lemma ignorecase_r c :
  ignorecase_eqb (chr 114) c = true <-> c = chr 114 \/ c = chr 82.
Proof. ignorecase_cases c. Qed.

Lemma ignorecase_s c :
  ignorecase_eqb (chr 115) c = true <->
  c = chr 115 \/ c = chr 83 \/ c = chr 383.
Proof. ignorecase_cases c. Qed.

Lemma ignorecase_f c :
  ignorecase_eqb (chr 102) c = true <-> c = chr 102 \/ c = chr 70.
Proof. ignorecase_cases c. Qed.

Lemma ignorecase_colon c : ignorecase_eqb (chr 58) c = true <-> c = chr 58.
Proof. ignorecase_cases c. Qed.

Section Lists.
Context {A B : Type}.

Lemma flat_map_single (f : A -> list B) x : flat_map f [x] = f x.
Proof. simpl. apply app_nil_r. Qed.

Lemma flat_map_nil_all (f : A -> list B) l :
  (forall x, In x l -> f x = []) -> flat_map f l = [].
Proof.
  induction l as [|x l IH]; intros H; simpl; [reflexivity|].
  rewrite (H x) by (left; reflexivity). apply IH.
  intros y Hy. apply H. right. exact Hy.
Qed.

Lemma hd_error_app_l (l1 l2 : list A) :
  l1 <> [] -> hd_error (l1 ++ l2) = hd_error l1.
Proof. destruct l1; [congruence | reflexivity]. Qed.

Lemma takewhile_dropwhile (p : A -> bool) l :
  itertools.takewhile p l ++ itertools.dropwhile p l = l.
Proof.
  induction l as [|x l IH]; simpl; [reflexivity|].
  destruct (p x); simpl; [f_equal; exact IH | reflexivity].
Qed.

Lemma takewhile_all (p : A -> bool) l :
  forallb p (itertools.takewhile p l) = true.
Proof.
  induction l as [|x l IH]; simpl; [reflexivity|].
  destruct (p x) eqn:E; simpl; [rewrite E; exact IH | reflexivity].
Qed.

Lemma dropwhile_app_all (p : A -> bool) ws l :
  forallb p ws = true ->
  itertools.dropwhile p (ws ++ l) = itertools.dropwhile p l.
Proof.
  induction ws as [|x ws IH]; simpl; [reflexivity|].
  intros H. apply andb_true_iff in H as [Hx Hws]. rewrite Hx. auto.
Qed.

Lemma takewhile_app_all (p : A -> bool) ws l :
  forallb p ws = true ->
  itertools.takewhile p (ws ++ l) = ws ++ itertools.takewhile p l.
Proof.
  induction ws as [|x ws IH]; simpl; [reflexivity|].
  intros H. apply andb_true_iff in H as [Hx Hws]. rewrite Hx.
  f_equal. auto.
Qed.

Lemma dropwhile_head (p : A -> bool) l x l' :
  itertools.dropwhile p l = x :: l' -> p x = false.
Proof.
  induction l as [|y l IH]; simpl; [discriminate|].
  destruct (p y) eqn:E; [exact IH|]. intros H. inversion H; subst. exact E.
Qed.

Lemma dropwhile_stop (p : A -> bool) x l :
  p x = false -> itertools.dropwhile p (x :: l) = x :: l.
Proof. intros H. simpl. rewrite H. reflexivity. Qed.

Lemma takewhile_stop (p : A -> bool) x l :
  p x = false -> itertools.takewhile p (x :: l) = [].
Proof. intros H. simpl. rewrite H. reflexivity. Qed.

Lemma dropwhile_idem (p : A -> bool) l :
  itertools.dropwhile p (itertools.dropwhile p l) = itertools.dropwhile p l.
Proof.
  destruct (itertools.dropwhile p l) as [|x l'] eqn:E; [reflexivity|].
  apply dropwhile_stop. eapply dropwhile_head. exact E.
Qed.
End Lists.

(** ** The matcher on the two patterns *)

(** *** The matcher on [p*] *)

Lemma star_loop_cls p ah : forall tk g,
  star_loop (run (Cls p)) (length ah) (MState tk ah g) = star_points p tk ah g.
Proof.
  induction ah as [|c t IH]; intros tk g; [reflexivity|].
  cbn [length star_loop run ahead star_points].
  destruct (p c); [|reflexivity].
  rewrite flat_map_single. unfold advance_char. cbn [ahead taken groups].
  replace (length t <? S (length t))%nat with true
    by (symmetry; apply Nat.ltb_lt; lia).
  rewrite IH. reflexivity.
Qed.

Lemma run_star_cls p st :
  run (Star (Cls p)) st = star_points p (taken st) (ahead st) (groups st).
Proof. destruct st as [tk ah g]. apply star_loop_cls. Qed.

(** The stopping points: the greedy one comes first; every other one
    has a [p]-character ahead and the same text after the run. *)
Lemma star_points_spec p ah : forall tk g,
  exists others,
    star_points p tk ah g = greedy p (MState tk ah g) :: others
    /\ forall o, In o others ->
         itertools.dropwhile p (ahead o) = itertools.dropwhile p ah
         /\ exists c t, ahead o = c :: t /\ p c = true.
Proof.
  induction ah as [|c t IH]; intros tk g.
  - exists []. split; [|contradiction].
    unfold greedy. simpl. rewrite app_nil_r. reflexivity.
  - simpl. destruct (p c) eqn:E.
    + destruct (IH (tk ++ [c]) g) as (others & Heq & Hothers).
      exists (others ++ [MState tk (c :: t) g]). split.
      * rewrite Heq. unfold greedy. simpl. rewrite E.
        rewrite <- app_assoc. reflexivity.
      * intros o Ho. apply in_app_or in Ho as [Ho|[<-|[]]].
        -- destruct (Hothers o Ho) as [H1 H2]. split; [|exact H2].
           rewrite H1. reflexivity.
        -- simpl. rewrite E. split; [reflexivity|]. eauto.
    + exists []. split; [|contradiction].
      unfold greedy. simpl. rewrite E, app_nil_r. reflexivity.
Qed.

(** After [p*], a continuation that fails at the greedy point only
    if it fails at every other one is decided at the greedy point. *)
Lemma hd_star_then p (K : mstate -> list mstate) st :
  (K (greedy p st) = [] ->
   forall o, itertools.dropwhile p (ahead o) = itertools.dropwhile p (ahead st) ->
             (exists c t, ahead o = c :: t /\ p c = true) -> K o = []) ->
  hd_error (flat_map K (run (Star (Cls p)) st)) = hd_error (K (greedy p st)).
Proof.
  intros HK. rewrite run_star_cls.
  destruct (star_points_spec p (ahead st) (taken st) (groups st))
    as (others & -> & Hothers).
  replace (MState (taken st) (ahead st) (groups st)) with st in *
    by (destruct st; reflexivity).
  simpl. destruct (K (greedy p st)) as [|x l] eqn:E.
  - simpl. rewrite flat_map_nil_all; [reflexivity|].
    intros o Ho. destruct (Hothers o Ho) as [H1 H2]. apply HK; auto.
  - reflexivity.
Qed.

Lemma run_cls_seq p r st :
  run (Seq (Cls p) r) st =
  match ahead st with
  | c :: t => if p c then run r (advance_char c t st) else []
  | [] => []
  end.
Proof.
  cbn [run]. destruct (ahead st) as [|c t]; [reflexivity|].
  destruct (p c); [apply flat_map_single | reflexivity].
Qed.

Lemma run_opt_nonempty a st : run (Opt a) st <> [].
Proof. cbn [run]. destruct (run a st); discriminate. Qed.

(** *** The start pattern *)

Lemma start_tail_matches st :
  is_some (hd_error (run (Seq (Star (Cls uni_isspace))
                              (Opt (Cls (char_eqb newline)))) st)) = true.
Proof.
  change (run (Seq ?a ?b) st) with (flat_map (run b) (run a st)).
  rewrite hd_star_then.
  - destruct (run (Opt (Cls (char_eqb newline))) (greedy uni_isspace st)) eqn:E;
      [exfalso; eapply run_opt_nonempty; exact E | reflexivity].
  - intros H. exfalso. eapply run_opt_nonempty. exact H.
Qed.

Lemma start_pattern_shape line :
  is_some (re_match _START_PATTERN line) = start_shape line.
Proof.
  unfold re_match, _START_PATTERN.
  change (lit_i "r") with (Cls (ignorecase_eqb (chr 114))).
  change (lit_i "s") with (Cls (ignorecase_eqb (chr 115))).
  change (lit_i "f") with (Cls (ignorecase_eqb (chr 102))).
  change (lit_i ":") with (Cls (ignorecase_eqb (chr 58))).
  destruct line as [|c1 [|c2 [|c3 [|c4 t]]]];
    repeat (rewrite run_cls_seq; cbn [ahead advance_char taken groups app];
            try reflexivity;
            match goal with
            | |- context [if ?b then _ else _] => destruct b eqn:?
            end; try reflexivity).
  all: cbn [start_shape].
  all: repeat match goal with
         | H : ignorecase_eqb _ _ = _ |- _ => rewrite H; clear H
         end.
  all: rewrite ?start_tail_matches, ?andb_false_r; reflexivity.
Qed.

Lemma start_shape_inv line :
  start_shape line = true <->
  exists c1 c2 c3 rest,
    line = c1 :: c2 :: c3 :: chr 58 :: rest
    /\ (c1 = chr 114 \/ c1 = chr 82)
    /\ (c2 = chr 115 \/ c2 = chr 83 \/ c2 = chr 383)
    /\ (c3 = chr 102 \/ c3 = chr 70).
Proof.
  split.
  - destruct line as [|c1 [|c2 [|c3 [|c4 t]]]]; try discriminate.
    cbn [start_shape]. rewrite !andb_true_iff.
    intros [[[H1 H2] H3] H4].
    apply ignorecase_colon in H4. subst c4.
    exists c1, c2, c3, t.
    rewrite <- ignorecase_r, <- ignorecase_s, <- ignorecase_f. auto.
  - intros (c1 & c2 & c3 & rest & -> & H1 & H2 & H3).
    cbn [start_shape]. rewrite !andb_true_iff.
    rewrite ignorecase_r, ignorecase_s, ignorecase_f, ignorecase_colon.
    repeat split; auto.
Qed.

(** *** The date pattern *)

Lemma run_seq_assoc a b c st :
  run (Seq (Seq a b) c) st = run (Seq a (Seq b c)) st.
Proof.
  cbn [run]. induction (run a st) as [|x l IH]; [reflexivity|].
  cbn [flat_map]. rewrite flat_map_app, IH. reflexivity.
Qed.

Lemma run_seq_eps c st : run (Seq Eps c) st = run c st.
Proof. cbn [run]. apply flat_map_single. Qed.

Lemma skipn_app_exact {A : Type} (l t : list A) : skipn (length l) (l ++ t) = t.
Proof. induction l; simpl; auto. Qed.

Lemma run_date_group st :
  run date_group st =
  let tok := firstn 10 (ahead st) in
  if date_token_shape tok
  then [MState (taken st ++ tok) (skipn 10 (ahead st))
               (("date"%string, tok) :: groups st)]
  else [].
Proof.
  destruct st as [tk ah g]. unfold date_group.
  change (lit "-") with (Cls (char_eqb (chr 45))). cbn [rep].
  change (run (Grp ?n ?a) ?s) with (map (set_group n s) (run a s)).
  cbv zeta. cbn [ahead taken groups].
  destruct ah as [|y1 [|y2 [|y3 [|y4 [|s1 [|m1 [|m2 [|s2 [|d1 [|d2 t]]]]]]]]]];
    simpl firstn; simpl skipn; cbn [date_token_shape].
  all: repeat (rewrite ?run_seq_assoc, ?run_seq_eps; rewrite run_cls_seq;
               unfold advance_char; cbn [ahead taken groups];
               try reflexivity;
               match goal with
               | |- context [if ?p ?c then _ else _] =>
                   let E := fresh "E" in destruct (p c) eqn:E
               end; try reflexivity).
  all: unfold is_dash.
  all: repeat match goal with
         | H : _ = _ |- _ => rewrite H; clear H
         end; cbn [andb]; rewrite ?andb_false_r; try reflexivity.
  cbn [run map]. unfold set_group. cbn [taken ahead groups].
  rewrite <- !app_assoc. cbn [app].
  rewrite skipn_app_exact. reflexivity.
Qed.

Lemma token_head_digit c t :
  date_token_shape (firstn 10 (c :: t)) = true -> uni_isdecimal c = true.
Proof.
  destruct t as [|y2 [|y3 [|y4 [|s1 [|m1 [|m2 [|s2 [|d1 [|d2 t]]]]]]]]];
    simpl firstn; rewrite ?firstn_O; cbn [date_token_shape]; try discriminate.
  rewrite !andb_true_iff. tauto.
Qed.

Lemma token_length t : date_token_shape t = true -> length t = 10%nat.
Proof.
  destruct t as [|y1 [|y2 [|y3 [|y4 [|s1 [|m1 [|m2 [|s2 [|d1 [|d2 [|x t]]]]]]]]]]];
    cbn [date_token_shape]; try discriminate. reflexivity.
Qed.

Lemma token_not_at c t (p : char -> bool) :
  (forall x, p x = true -> uni_isdecimal x = false) ->
  p c = true -> date_token_shape (firstn 10 (c :: t)) = false.
Proof.
  intros Hp Hc.
  destruct (date_token_shape (firstn 10 (c :: t))) eqn:E; [|reflexivity].
  apply token_head_digit in E. rewrite (Hp c Hc) in E. discriminate.
Qed.

Lemma hd_date_then st :
  hd_error (run date_then st) =
  let tok := firstn 10 (ahead st) in
  if date_token_shape tok
  then Some (greedy uni_isspace
               (MState (taken st ++ tok) (skipn 10 (ahead st))
                       (("date"%string, tok) :: groups st)))
  else None.
Proof.
  unfold date_then. change (run (Seq ?a ?b) st) with (flat_map (run b) (run a st)).
  rewrite run_date_group. cbv zeta.
  destruct (date_token_shape (firstn 10 (ahead st))); [|reflexivity].
  rewrite flat_map_single. rewrite run_star_cls.
  cbn [taken ahead groups].
  match goal with
  | |- context [star_points ?p ?tk ?ah ?g] =>
      destruct (star_points_spec p ah tk g) as (others & -> & _)
  end.
  reflexivity.
Qed.

Lemma hd_error_None {A : Type} (l : list A) : hd_error l = None <-> l = [].
Proof. destruct l; simpl; split; congruence. Qed.

Lemma date_then_nil st :
  run date_then st = [] <-> date_token_shape (firstn 10 (ahead st)) = false.
Proof.
  rewrite <- hd_error_None, hd_date_then. cbv zeta.
  destruct (date_token_shape (firstn 10 (ahead st))); split; congruence.
Qed.

Lemma date_then_nil_space o :
  (exists c t, ahead o = c :: t /\ uni_isspace c = true) ->
  run date_then o = [].
Proof.
  intros (c & t & Ho & Hc). apply date_then_nil. rewrite Ho.
  apply (token_not_at c t uni_isspace); [apply space_not_digit | exact Hc].
Qed.

Lemma hd_ws_date_then st :
  hd_error (run ws_date_then st) =
  hd_error (run date_then (greedy uni_isspace st)).
Proof.
  unfold ws_date_then.
  change (run (Seq ?a ?b) st) with (flat_map (run b) (run a st)).
  apply hd_star_then. intros _ o _ Ho. apply date_then_nil_space. exact Ho.
Qed.

Lemma ws_date_then_nil st :
  run ws_date_then st = [] <->
  date_token_shape (firstn 10 (itertools.dropwhile uni_isspace (ahead st))) = false.
Proof.
  rewrite <- hd_error_None, hd_ws_date_then, hd_error_None, date_then_nil.
  reflexivity.
Qed.

Lemma run_flag_group st :
  run flag_group st =
  match ahead st with
  | c :: t =>
      if is_flag c
      then [MState (taken st ++ [c]) t (("completed"%string, [c]) :: groups st); st]
      else [st]
  | [] => [st]
  end.
Proof.
  destruct st as [tk ah g]. unfold flag_group.
  change (lit "x") with (Cls (char_eqb (chr 120))).
  change (lit "X") with (Cls (char_eqb (chr 88))).
  cbn [run ahead].
  destruct ah as [|c t]; [reflexivity|]. unfold is_flag.
  destruct (char_eqb (chr 120) c) eqn:Ex, (char_eqb (chr 88) c) eqn:EX;
    cbn [orb app map]; unfold set_group, advance_char; cbn [taken ahead groups];
    rewrite ?skipn_app_exact; try reflexivity.
  apply char_eqb_eq in Ex, EX. subst c. discriminate EX.
Qed.

Lemma hd_ws_date_then_after st :
  hd_error (run ws_date_then st) = after_flag st.
Proof. rewrite hd_ws_date_then, hd_date_then. reflexivity. Qed.

Lemma run_bol_seq r ah g :
  run (Seq Bol r) (MState [] ah g) = run r (MState [] ah g).
Proof. cbn [run taken]. apply flat_map_single. Qed.

Theorem date_pattern_match line :
  re_match _DATE_PATTERN line = entry_match line.
Proof.
  unfold re_match, _DATE_PATTERN.
  fold date_group flag_group.
  rewrite run_bol_seq, run_cls_seq. cbn [ahead].
  destruct line as [|b t]; [reflexivity|]. cbn [entry_match].
  destruct (is_bullet b); [|reflexivity].
  unfold advance_char. cbn [taken ahead groups app].
  set (st1 := MState [b] t []).
  set (K := (flag_group +> Star (Cls uni_isspace) +> date_group
             +> Star (Cls uni_isspace))%re).
  change (run (Seq ?a K) st1) with (flat_map (run K) (run a st1)).
  assert (HK : forall st, run K st = flat_map (run ws_date_then) (run flag_group st))
    by reflexivity.
  rewrite hd_star_then.
  - (* at the greedy point *)
    rewrite HK, run_flag_group. cbv zeta.
    set (g1 := greedy uni_isspace st1).
    destruct (ahead g1) as [|c t'] eqn:Eg1.
    + rewrite flat_map_single. apply hd_ws_date_then_after.
    + destruct (is_flag c) eqn:Ec.
      * cbn [flat_map]. rewrite app_nil_r.
        assert (Hnil : run ws_date_then g1 = []).
        { apply ws_date_then_nil. rewrite Eg1.
          rewrite dropwhile_stop by (apply flag_not_space; exact Ec).
          apply (token_not_at c t' is_flag); [apply flag_not_digit | exact Ec]. }
        rewrite Hnil, app_nil_r. apply hd_ws_date_then_after.
      * rewrite flat_map_single. apply hd_ws_date_then_after.
  - (* the other stopping points add nothing *)
    intros Hg o Hdrop (c & t' & Ho & Hc).
    rewrite HK, run_flag_group, Ho.
    rewrite (space_not_flag c Hc), flat_map_single.
    apply ws_date_then_nil. rewrite Hdrop.
    assert (Hsub : run ws_date_then (greedy uni_isspace st1) = []).
    { rewrite HK in Hg.
      destruct (run flag_group (greedy uni_isspace st1)) as [|x l] eqn:E.
      - rewrite run_flag_group in E.
        destruct (ahead (greedy uni_isspace st1)) as [|a l0];
          [discriminate|]. destruct (is_flag a); discriminate.
      - rewrite run_flag_group in E.
        destruct (ahead (greedy uni_isspace st1)) as [|a l0].
        + inversion E; subst. rewrite flat_map_single in Hg. exact Hg.
        + destruct (is_flag a).
          * inversion E; subst. cbn [flat_map] in Hg.
            apply app_eq_nil in Hg as [_ Hg]. rewrite app_nil_r in Hg. exact Hg.
          * inversion E; subst. rewrite flat_map_single in Hg. exact Hg. }
    apply ws_date_then_nil in Hsub. unfold greedy in Hsub. cbn [ahead] in Hsub.
    rewrite dropwhile_idem in Hsub. exact Hsub.
Qed.

Lemma token_app token rest :
  date_token_shape token = true ->
  firstn 10 (token ++ rest) = token
  /\ skipn 10 (token ++ rest) = rest
  /\ exists y tl, token = y :: tl /\ uni_isdecimal y = true.
Proof.
  intros H. pose proof (token_length _ H) as Hlen.
  split; [|split].
  - rewrite <- Hlen. rewrite firstn_app, Nat.sub_diag, firstn_all. simpl.
    apply app_nil_r.
  - rewrite <- Hlen. apply skipn_app_exact.
  - destruct token as [|y tl]; [discriminate|]. exists y, tl. split; [reflexivity|].
    apply (token_head_digit y tl). rewrite <- (app_nil_r (y :: tl)).
    replace (firstn 10 ((y :: tl) ++ [])) with (y :: tl); [exact H|].
    rewrite <- Hlen at 1. rewrite firstn_app, Nat.sub_diag, firstn_all. simpl.
    rewrite app_nil_r. reflexivity.
Qed.

Lemma dropwhile_space_token token rest :
  date_token_shape token = true ->
  itertools.dropwhile uni_isspace (token ++ rest) = token ++ rest.
Proof.
  intros H. destruct (token_app token rest H) as (_ & _ & y & tl & -> & Hy).
  simpl. rewrite (digit_not_space y Hy). auto.
Qed.

Lemma after_flag_sound f m :
  after_flag f = Some m ->
  exists ws2 token rest,
    ahead f = ws2 ++ token ++ rest
    /\ forallb uni_isspace ws2 = true
    /\ date_token_shape token = true
    /\ groups m = ("date"%string, token) :: groups f
    /\ taken m ++ ahead m = taken f ++ ahead f.
Proof.
  unfold after_flag. cbv zeta. unfold greedy. cbn [taken ahead groups].
  destruct (date_token_shape _) eqn:Htok; [|discriminate].
  intros H. inversion H; subst m; clear H. cbn [taken ahead groups].
  exists (itertools.takewhile uni_isspace (ahead f)),
         (firstn 10 (itertools.dropwhile uni_isspace (ahead f))),
         (skipn 10 (itertools.dropwhile uni_isspace (ahead f))).
  rewrite firstn_skipn, takewhile_dropwhile.
  repeat split; auto using takewhile_all.
  rewrite <- !app_assoc. f_equal.
  rewrite takewhile_dropwhile, firstn_skipn. apply takewhile_dropwhile.
Qed.

Lemma after_flag_complete f ws2 token rest :
  ahead f = ws2 ++ token ++ rest ->
  forallb uni_isspace ws2 = true ->
  date_token_shape token = true ->
  exists m, after_flag f = Some m
            /\ groups m = ("date"%string, token) :: groups f.
Proof.
  intros Hf Hws Htok. unfold after_flag. cbv zeta.
  unfold greedy. cbn [taken ahead groups]. rewrite Hf.
  rewrite dropwhile_app_all by assumption.
  rewrite (dropwhile_space_token _ _ Htok).
  destruct (token_app token rest Htok) as (-> & _ & _). rewrite Htok.
  eexists. split; reflexivity.
Qed.

Lemma entry_match_sound line m :
  entry_match line = Some m ->
  exists flag token,
    entry_shape line flag token
    /\ group m "completed" = flag
    /\ group m "date" = Some token
    /\ taken m ++ ahead m = line.
Proof.
  destruct line as [|b t]; [discriminate|]. cbn [entry_match].
  destruct (is_bullet b) eqn:Hb; [|discriminate].
  cbv zeta. unfold greedy at 1 2 3 4 5. cbn [taken ahead groups].
  pose proof (takewhile_dropwhile uni_isspace t) as Ht.
  pose proof (takewhile_all uni_isspace t) as Hws1.
  set (ws1 := itertools.takewhile uni_isspace t) in *.
  assert (Hnoflag : forall m0,
    after_flag (MState (b :: ws1) (itertools.dropwhile uni_isspace t) []) = Some m0 ->
    exists flag token,
      entry_shape (b :: t) flag token
      /\ group m0 "completed" = flag
      /\ group m0 "date" = Some token
      /\ taken m0 ++ ahead m0 = b :: t).
  { intros m0 H.
    apply after_flag_sound in H as (ws2 & tok & rest & Hah & Hws2 & Htok & Hg & Htk).
    cbn [taken ahead groups] in *.
    exists None, tok. unfold group. rewrite Hg. split; [|split; [reflexivity|split]].
    - exists b, ws1, ws2, rest. cbn [capture_text app].
      repeat split; auto. rewrite <- Hah, Ht. reflexivity.
    - reflexivity.
    - rewrite Htk. cbn [app]. rewrite Ht. reflexivity. }
  destruct (itertools.dropwhile uni_isspace t) as [|c t'] eqn:Et;
    [apply Hnoflag|].
  destruct (is_flag c) eqn:Ec; [|apply Hnoflag].
  intros H.
  apply after_flag_sound in H as (ws2 & tok & rest & Hah & Hws2 & Htok & Hg & Htk).
  cbn [taken ahead groups] in *.
  exists (Some [c]), tok. unfold group. rewrite Hg. split; [|split; [reflexivity|split]].
  - exists b, ws1, ws2, rest. cbn [capture_text app].
    repeat split; auto.
    + rewrite <- Hah, <- Ht. reflexivity.
    + right. exists c. auto.
  - reflexivity.
  - rewrite Htk. cbn [app]. rewrite <- app_assoc. cbn [app]. rewrite Ht. reflexivity.
Qed.

Lemma entry_match_complete line flag token :
  entry_shape line flag token ->
  exists m,
    entry_match line = Some m
    /\ group m "completed" = flag
    /\ group m "date" = Some token.
Proof.
  intros (b & ws1 & ws2 & rest & -> & Hb & Hws1 & Hflag & Hws2 & Htok).
  cbn [entry_match]. rewrite Hb. cbv zeta.
  unfold greedy at 1 2 3 4 5. cbn [taken ahead groups].
  destruct (token_app token rest Htok) as (Hfirst & Hskip & y & tl & Hy & Hdig).
  pose proof (dropwhile_space_token token rest Htok) as Hdrop.
  destruct Hflag as [-> | (c & -> & Hc)]; cbn [capture_text app].
  - rewrite !dropwhile_app_all by assumption. rewrite Hdrop.
    assert (Hhead : token ++ rest = y :: tl ++ rest) by (rewrite Hy; reflexivity).
    rewrite Hhead. rewrite (digit_not_flag y Hdig). rewrite <- Hhead.
    destruct (after_flag_complete
                (MState (b :: itertools.takewhile uni_isspace (ws1 ++ ws2 ++ token ++ rest))
                        (token ++ rest) []) [] token rest)
      as (m & Hm & Hg); auto.
    exists m. split; [exact Hm|]. unfold group. rewrite Hg. split; reflexivity.
  - rewrite !dropwhile_app_all by assumption.
    rewrite (dropwhile_stop uni_isspace c) by (apply flag_not_space; exact Hc).
    rewrite Hc.
    match goal with
    | |- context [after_flag ?f] =>
        destruct (after_flag_complete f ws2 token rest) as (m & Hm & Hg); auto
    end.
    exists m. split; [exact Hm|]. unfold group. rewrite Hg. split; reflexivity.
Qed.

(** ** The start-marker matcher *)

Lemma isnot_start_shape line :
  _isnot_start_pattern_match line = negb (start_shape line).
Proof. unfold _isnot_start_pattern_match. rewrite start_pattern_shape. reflexivity. Qed.

(** C7, as stated, fails: a line that goes on after [rsf:] is accepted. *)
Lemma start_marker_followed_by_text :
  _isnot_start_pattern_match (py "rsf: see the list below") = false
  /\ spec_start_marker_line (py "rsf: see the list below") = false.
Proof. split; vm_compute; reflexivity. Qed.

(** C7 (amended): the start-marker matcher accepts a line, of any
    characters, exactly when the line begins with [rsf:] in any letter
    case, where the long s (U+017F) counts as a case of [s]; what
    follows the colon is not looked at.  The matcher is a boolean on
    the line. *)
Theorem start_marker_accepts_prefix (line : str) :
  _isnot_start_pattern_match line = false <->
  exists c1 c2 c3 rest,
    line = c1 :: c2 :: c3 :: chr 58 :: rest
    /\ (c1 = chr 114 \/ c1 = chr 82)
    /\ (c2 = chr 115 \/ c2 = chr 83 \/ c2 = chr 383)
    /\ (c3 = chr 102 \/ c3 = chr 70).
Proof.
  rewrite isnot_start_shape, negb_false_iff. apply start_shape_inv.
Qed.

(** C7 at a marker in mixed case followed by text. *)
Lemma start_marker_accepts_prefix_witness :
  _isnot_start_pattern_match (py "rSF: dates") = false.
Proof.
  apply (proj2 (start_marker_accepts_prefix (py "rSF: dates"))).
  exists (chr 114), (chr 83), (chr 70), (py " dates").
  repeat split; auto.
Defined.

(** Every line of the shape the specification words is accepted. *)
Lemma spec_start_marker_accepted line :
  spec_start_marker_line line = true -> _isnot_start_pattern_match line = false.
Proof.
  unfold spec_start_marker_line. rewrite isnot_start_shape.
  intros H. apply andb_true_iff in H as [H _]. rewrite H. reflexivity.
Qed.

(** ** The date-entry matcher *)

Lemma is_date_entry_match line :
  _is_date_pattern_match line = is_some (entry_match line).
Proof. unfold _is_date_pattern_match. rewrite date_pattern_match. reflexivity. Qed.

(** C4, as stated, fails both ways: leading whitespace is not
    accepted; text after the date is; and so is a token written with
    the decimal digits of another script (here the Arabic-Indic
    digits, U+0660 to U+0669), which is no date. *)
Lemma date_entry_leading_space_and_trailing_text :
  (spec_date_entry_line (py "  - 2022-03-10") = true
   /\ _is_date_pattern_match (py "  - 2022-03-10") = false)
  /\ (spec_date_entry_line (py "- 2022-03-10 dentist") = false
      /\ _is_date_pattern_match (py "- 2022-03-10 dentist") = true)
  /\ (let line := py "- " ++ map chr [1634; 1632; 1634; 1634; 45;
                                      1632; 1635; 45; 1633; 1632] in
      spec_date_entry_line line = false
      /\ _is_date_pattern_match line = true
      /\ from_datestr line = Raise ValueError).
Proof. repeat split; vm_compute; reflexivity. Qed.

(** C4 (amended): the date-entry matcher accepts exactly the lines, of
    any characters, that begin, with no leading whitespace, with a
    bullet, optional whitespace, an optional single flag x/X, optional
    whitespace and a date token of the shape dddd-dd-dd, whatever
    follows the token; whitespace is any character that [\s] matches
    and a digit any character that [\d] matches, which on [str] are
    the white space and the decimal digits of every script; for every
    accepted line the match has the two captures: the flag (absent or
    the one character) and the 10-character token. *)
Theorem date_entry_accepts_shape (line : str) :
  (_is_date_pattern_match line = true <->
   exists flag token, entry_shape line flag token)
  /\ (forall m, re_match _DATE_PATTERN line = Some m ->
        exists flag token,
          entry_shape line flag token
          /\ group m "completed" = flag
          /\ group m "date" = Some token
          /\ length token = 10%nat).
Proof.
  split.
  - rewrite is_date_entry_match. split.
    + destruct (entry_match line) as [m|] eqn:E; [|discriminate].
      intros _. apply entry_match_sound in E as (flag & token & H & _).
      eauto.
    + intros (flag & token & H).
      apply entry_match_complete in H as (m & -> & _). reflexivity.
  - intros m Hm. rewrite date_pattern_match in Hm.
    apply entry_match_sound in Hm as (flag & token & Hs & Hc & Hd & _).
    exists flag, token. repeat split; auto.
    destruct Hs as (b & ws1 & ws2 & rest & _ & _ & _ & _ & _ & Htok).
    apply token_length. exact Htok.
Qed.

(** C4 at an entry with a flag and no separating space. *)
Lemma date_entry_accepts_shape_witness :
  exists flag token,
    entry_shape (py "* X2021-11-11  ") flag token
    /\ group (MState (py "* X2021-11-11  ") []
                [("date"%string, py "2021-11-11");
                 ("completed"%string, py "X")]) "completed" = flag
    /\ group (MState (py "* X2021-11-11  ") []
                [("date"%string, py "2021-11-11");
                 ("completed"%string, py "X")]) "date" = Some token
    /\ length token = 10%nat.
Proof.
  apply (proj2 (date_entry_accepts_shape (py "* X2021-11-11  "))).
  vm_compute. reflexivity.
Defined.

(** ** The dateblock extractor *)

Section DropTake.
Context {A : Type} (p q : A -> bool).

Lemma dropwhile_all l : forallb p l = true -> itertools.dropwhile p l = [].
Proof.
  induction l as [|x l IH]; simpl; [reflexivity|].
  intros H. apply andb_true_iff in H as [-> H]. auto.
Qed.

Lemma dropwhile_at pre m rest :
  forallb p pre = true -> p m = false ->
  itertools.dropwhile p (pre ++ m :: rest) = m :: rest.
Proof.
  intros Hpre Hm. rewrite dropwhile_app_all by exact Hpre.
  apply dropwhile_stop. exact Hm.
Qed.

Lemma takewhile_block block rest :
  forallb q block = true ->
  match rest with [] => True | x :: _ => q x = false end ->
  itertools.takewhile q (block ++ rest) = block.
Proof.
  intros Hb Hr. rewrite takewhile_app_all by exact Hb.
  destruct rest as [|x rest]; simpl; [|rewrite Hr]; apply app_nil_r.
Qed.

(** Every list splits at the first element that fails [p]. *)
Lemma split_at_first l :
  forallb p l = true
  \/ exists pre m rest, l = pre ++ m :: rest
                        /\ forallb p pre = true /\ p m = false.
Proof.
  induction l as [|x l IH]; [left; reflexivity|].
  destruct (p x) eqn:E.
  - destruct IH as [IH | (pre & m & rest & -> & Hpre & Hm)].
    + left. simpl. rewrite E. exact IH.
    + right. exists (x :: pre), m, rest. simpl. rewrite E. auto.
  - right. exists [], x, l. auto.
Qed.

Lemma split_block l :
  exists block rest,
    l = block ++ rest /\ forallb q block = true
    /\ match rest with [] => True | x :: _ => q x = false end.
Proof.
  exists (itertools.takewhile q l), (itertools.dropwhile q l).
  split; [symmetry; apply takewhile_dropwhile|].
  split; [apply takewhile_all|].
  destruct (itertools.dropwhile q l) as [|x r] eqn:E; [exact I|].
  eapply dropwhile_head. exact E.
Qed.

Lemma droptake_at pre m block rest :
  forallb p pre = true -> p m = false -> forallb q block = true ->
  match rest with [] => True | x :: _ => q x = false end ->
  _droptake p q (pre ++ m :: block ++ rest) = block.
Proof.
  intros Hpre Hm Hb Hr. unfold _droptake, itertools.islice.
  rewrite dropwhile_at by assumption. simpl skipn.
  apply takewhile_block; assumption.
Qed.

Lemma droptake_none l : forallb p l = true -> _droptake p q l = [].
Proof.
  intros H. unfold _droptake, itertools.islice.
  rewrite dropwhile_all by exact H. reflexivity.
Qed.
End DropTake.

Lemma repeat_snoc {A : Type} (x : A) k : List.repeat x k ++ [x] = x :: List.repeat x k.
Proof. induction k; simpl; [reflexivity | rewrite IHk; reflexivity]. Qed.

Lemma rev_repeat {A : Type} (x : A) k : rev (List.repeat x k) = List.repeat x k.
Proof.
  induction k; simpl; [reflexivity|]. rewrite IHk. apply repeat_snoc.
Qed.

Lemma takewhile_eq_repeat c l :
  itertools.takewhile (char_eqb c) l
  = List.repeat c (length (itertools.takewhile (char_eqb c) l)).
Proof.
  induction l as [|x l IH]; simpl; [reflexivity|].
  destruct (char_eqb c x) eqn:E; [|reflexivity].
  apply char_eqb_eq in E. subst x. simpl. f_equal. exact IH.
Qed.

Lemma char_eqb_refl c : char_eqb c c = true.
Proof. apply char_eqb_eq. reflexivity. Qed.

(** [rstrip] removes the trailing run of the character and nothing else. *)
Lemma rstrip_spec c s :
  (exists k, s = rstrip c s ++ List.repeat c k)
  /\ (forall s', rstrip c s <> s' ++ [c]).
Proof.
  unfold rstrip. split.
  - exists (length (itertools.takewhile (char_eqb c) (rev s))).
    rewrite <- takewhile_eq_repeat.
    rewrite <- (rev_involutive s) at 1.
    rewrite <- (takewhile_dropwhile (char_eqb c) (rev s)) at 1.
    rewrite rev_app_distr. f_equal.
    rewrite takewhile_eq_repeat. apply rev_repeat.
  - intros s' H. apply (f_equal (@rev char)) in H.
    rewrite rev_involutive, rev_app_distr in H. simpl in H.
    apply dropwhile_head in H. rewrite char_eqb_refl in H. discriminate.
Qed.

(** On an entry line [strip] has nothing to remove in front. *)
Lemma strip_entry_line line :
  _is_date_pattern_match line = true ->
  _strip_trailing_newline line = rstrip newline line.
Proof.
  rewrite is_date_entry_match. destruct line as [|b t]; [discriminate|].
  cbn [entry_match]. destruct (is_bullet b) eqn:Hb; [|discriminate].
  intros _. unfold _strip_trailing_newline, strip, lstrip.
  rewrite dropwhile_stop by (apply bullet_not_newline; exact Hb). reflexivity.
Qed.

Lemma strip_block block :
  forallb _is_date_pattern_match block = true ->
  Forall2 trailing_newlines_stripped block (map _strip_trailing_newline block).
Proof.
  induction block as [|l block IH]; simpl; [constructor|].
  intros H. apply andb_true_iff in H as [Hl Hb].
  constructor; [|auto]. rewrite strip_entry_line by exact Hl.
  apply rstrip_spec.
Qed.

Lemma find_dateblock_at stream pre marker block rest :
  dateblock_at stream pre marker block rest ->
  find_dateblock stream =
  match block with
  | [] => Raise DateblockNotFound
  | _ :: _ => Return (map _strip_trailing_newline block)
  end.
Proof.
  intros (-> & Hpre & Hm & Hb & Hr). unfold find_dateblock.
  rewrite droptake_at by assumption. destruct block; reflexivity.
Qed.

Lemma find_dateblock_no_marker stream :
  forallb _isnot_start_pattern_match stream = true ->
  find_dateblock stream = Raise DateblockNotFound.
Proof.
  intros H. unfold find_dateblock. rewrite droptake_none by exact H. reflexivity.
Qed.

Lemma dateblock_cases stream :
  forallb _isnot_start_pattern_match stream = true
  \/ exists pre marker block rest, dateblock_at stream pre marker block rest.
Proof.
  destruct (split_at_first _isnot_start_pattern_match stream)
    as [H | (pre & m & after & -> & Hpre & Hm)]; [left; exact H|].
  right. destruct (split_block _is_date_pattern_match after)
    as (block & rest & -> & Hb & Hr).
  exists pre, m, block, rest. repeat split; assumption.
Qed.

(** C2: [find_dateblock] drops the lines up to and including the
    first start marker, collects the run of entry lines right after
    it and returns that run with the trailing newline characters of
    each line removed and nothing else; it raises [DateblockNotFound]
    exactly when there is no marker or the run is empty; lines after
    the run are never collected. *)
Theorem find_dateblock_spec (stream : list str) :
  (forallb _isnot_start_pattern_match stream = true ->
   find_dateblock stream = Raise DateblockNotFound)
  /\ (forall pre marker block rest,
        dateblock_at stream pre marker block rest ->
        (block = [] -> find_dateblock stream = Raise DateblockNotFound)
        /\ (block <> [] ->
            exists out, find_dateblock stream = Return out
                        /\ Forall2 trailing_newlines_stripped block out))
  /\ (forallb _isnot_start_pattern_match stream = true
      \/ exists pre marker block rest,
           dateblock_at stream pre marker block rest)
  /\ (find_dateblock stream = Raise DateblockNotFound <->
      forallb _isnot_start_pattern_match stream = true
      \/ exists pre marker rest, dateblock_at stream pre marker [] rest).
Proof.
  split; [apply find_dateblock_no_marker|].
  split; [|split; [apply dateblock_cases|]].
  - intros pre marker block rest H.
    rewrite (find_dateblock_at _ _ _ _ _ H). split.
    + intros ->. reflexivity.
    + intros Hne. destruct block as [|l block]; [congruence|].
      eexists. split; [reflexivity|]. apply strip_block.
      destruct H as (_ & _ & _ & Hb & _). exact Hb.
  - split.
    + intros Hfail.
      destruct (dateblock_cases stream) as [H | (pre & m & block & rest & H)];
        [left; exact H|].
      right. rewrite (find_dateblock_at _ _ _ _ _ H) in Hfail.
      destruct block; [eauto | discriminate].
    + intros [H | (pre & m & rest & H)].
      * apply find_dateblock_no_marker. exact H.
      * rewrite (find_dateblock_at _ _ _ _ _ H). reflexivity.
Qed.

(** C2 at a stream with prose, a marker, two entries, prose and a
    later entry. *)
Lemma find_dateblock_spec_witness :
  let stream := map py ["First line"; "rsf:"; "- x 2022-03-10";
                        "- 2022-03-15"; "Notes"; "- 2022-04-01"]%string in
  let block := map py ["- x 2022-03-10"; "- 2022-03-15"]%string in
  dateblock_at stream [py "First line"] (py "rsf:") block
               (map py ["Notes"; "- 2022-04-01"]%string)
  /\ exists out, find_dateblock stream = Return out
                 /\ Forall2 trailing_newlines_stripped block out.
Proof.
  intros stream block.
  assert (H : dateblock_at stream [py "First line"] (py "rsf:") block
                           (map py ["Notes"; "- 2022-04-01"]%string))
    by (repeat split; vm_compute; reflexivity).
  split; [exact H|].
  apply (proj1 (proj2 (find_dateblock_spec stream)) _ _ _ _ H).
  discriminate.
Defined.

(** ** Parsing an entry *)

Lemma from_datestr_cases datestr :
  match re_match _DATE_PATTERN datestr with
  | None => from_datestr datestr = Raise AttributeError
  | Some m =>
      exists flag token,
        entry_shape datestr flag token
        /\ group m "completed" = flag
        /\ group m "date" = Some token
        /\ from_datestr datestr =
           match datetime.parse_iso token with
           | Some d => Return (mkDueDate d (is_some flag))
           | None => Raise ValueError
           end
  end.
Proof.
  unfold from_datestr.
  destruct (re_match _DATE_PATTERN datestr) as [m|] eqn:E; [|reflexivity].
  rewrite date_pattern_match in E.
  apply entry_match_sound in E as (flag & token & Hs & Hc & Hd & _).
  assert (Hlen : length token = 10%nat).
  { destruct Hs as (_ & _ & _ & _ & _ & _ & _ & _ & _ & Htok).
    apply token_length. exact Htok. }
  exists flag, token. repeat split; auto.
  rewrite Hc, Hd. destruct token as [|y tl]; [discriminate|].
  unfold fromisoformat.
  assert (Hflag : truthy flag = is_some flag).
  { destruct Hs as (_ & _ & _ & _ & _ & _ & _ & [-> | (c & -> & _)] & _);
      reflexivity. }
  rewrite Hflag. destruct (datetime.parse_iso (y :: tl)); reflexivity.
Qed.

(** The [StringParsingError] branch of [from_datestr] is never taken. *)
Lemma from_datestr_no_StringParsingError datestr s :
  from_datestr datestr <> Raise (StringParsingError s).
Proof.
  pose proof (from_datestr_cases datestr) as H.
  destruct (re_match _DATE_PATTERN datestr) as [m|].
  - destruct H as (flag & token & _ & _ & _ & ->).
    destruct (datetime.parse_iso token); discriminate.
  - rewrite H. discriminate.
Qed.

(** C3: an entry line with a date token that is not a calendar date
    makes [from_datestr] raise [ValueError], and a line that is not an
    entry [AttributeError]; neither is an [RsfException], so the first
    one goes through [bind] and out of [get_duestr_from_file]. *)
Theorem from_datestr_invalid_date_escapes :
  from_datestr (py "- 2022-13-01") = Raise ValueError
  /\ from_datestr (py "- 2022-02-30") = Raise ValueError
  /\ from_datestr (py "no entry here") = Raise AttributeError
  /\ is_RsfException ValueError = false
  /\ is_RsfException AttributeError = false
  /\ get_duestr_from_file (map py ["rsf:"; "- 2022-13-01"]%string)
       (py "notes/plan.md") (datetime.Date 2022 3 15) 3 0 true 0
     = Raise ValueError.
Proof. repeat split; vm_compute; reflexivity. Qed.

(** ** Ordering of dates and entries *)

Ltac date_cmp :=
  unfold tuple1_lt, datetime.leb, datetime.ltb, datetime.eqb in *;
  repeat match goal with
    | d : datetime.date |- _ => destruct d
    end;
  cbn [datetime.year datetime.month datetime.day] in *;
  repeat match goal with
    | |- context [?a <? ?b] => destruct (Z.ltb_spec a b)
    | |- context [?a =? ?b] => destruct (Z.eqb_spec a b)
    | H : context [?a <? ?b] |- _ => destruct (Z.ltb_spec a b)
    | H : context [?a =? ?b] |- _ => destruct (Z.eqb_spec a b)
    end;
  cbn [andb orb negb] in *; try congruence; try lia.

Lemma date_eqb_eq a b : datetime.eqb a b = true <-> a = b.
Proof.
  split.
  - intros H. date_cmp; f_equal; lia.
  - intros ->. date_cmp.
Qed.

Lemma tuple1_lt_ltb a b : tuple1_lt a b = datetime.ltb a b.
Proof. date_cmp. Qed.

Lemma date_leb_ltb a b : datetime.leb a b = negb (datetime.ltb b a).
Proof. date_cmp. Qed.

Lemma date_ltb_asym a b : datetime.ltb a b = true -> datetime.ltb b a = false.
Proof. intros H. date_cmp. Qed.

Lemma date_ltb_irrefl a : datetime.ltb a a = false.
Proof. date_cmp. Qed.

Lemma date_nlt_trans a b c :
  datetime.ltb b a = false -> datetime.ltb c b = false ->
  datetime.ltb c a = false.
Proof. intros H1 H2. date_cmp. Qed.

Lemma date_ltb_eq_compat a b c :
  datetime.eqb a b = true -> datetime.ltb c a = datetime.ltb c b.
Proof. intros H. apply date_eqb_eq in H. subst. reflexivity. Qed.

(** ** Dates and ordinals *)


Lemma days_before_next_year y :
  datetime._days_before_year (y + 1)
  = datetime._days_before_year y + 365 + leap_days y.
Proof.
  unfold datetime._days_before_year, leap_days, datetime._is_leap.
  replace (y + 1 - 1) with y by lia.
  destruct (Z.eqb_spec (y mod 4) 0), (Z.eqb_spec (y mod 100) 0),
    (Z.eqb_spec (y mod 400) 0); cbn [negb andb orb];
    Z.div_mod_to_equations; lia.
Qed.

Lemma days_before_year_mono y1 y2 :
  y1 <= y2 -> datetime._days_before_year y1 <= datetime._days_before_year y2.
Proof.
  unfold datetime._days_before_year. intros H.
  Z.div_mod_to_equations. lia.
Qed.

Ltac month_cases m H :=
  assert (H : m = 1 \/ m = 2 \/ m = 3 \/ m = 4 \/ m = 5 \/ m = 6 \/ m = 7
              \/ m = 8 \/ m = 9 \/ m = 10 \/ m = 11 \/ m = 12) by lia;
  repeat (destruct H as [H | H]).

Lemma valid_fields d :
  datetime.valid d = true <->
  1 <= datetime.year d <= 9999 /\ 1 <= datetime.month d <= 12
  /\ 1 <= datetime.day d
          <= datetime._days_in_month (datetime.year d) (datetime.month d).
Proof.
  unfold datetime.valid, datetime.MINYEAR, datetime.MAXYEAR.
  rewrite !andb_true_iff, !Z.leb_le. tauto.
Qed.

(** Within a year, the day of the year. *)
Lemma day_of_year_bounds y m d :
  1 <= m <= 12 -> 1 <= d <= datetime._days_in_month y m ->
  1 <= datetime._days_before_month y m + d <= 365 + leap_days y.
Proof.
  intros Hm Hd. unfold datetime._days_before_month, datetime._days_in_month,
    leap_days in *.
  month_cases m H; subst m; destruct (datetime._is_leap y);
    cbn in *; lia.
Qed.

Lemma day_of_year_mono y m1 d1 m2 d2 :
  1 <= m1 -> m1 < m2 -> m2 <= 12 ->
  1 <= d1 <= datetime._days_in_month y m1 -> 1 <= d2 ->
  datetime._days_before_month y m1 + d1 < datetime._days_before_month y m2 + d2.
Proof.
  intros H1 H12 H2 Hd1 Hd2.
  unfold datetime._days_before_month, datetime._days_in_month in *.
  assert (Hm1 : 1 <= m1 <= 12) by lia. assert (Hm2 : 1 <= m2 <= 12) by lia.
  month_cases m1 Ha; subst m1; month_cases m2 Hb; subst m2; try lia;
    destruct (datetime._is_leap y); cbn in *; lia.
Qed.

Lemma toordinal_lt a b :
  datetime.valid a = true -> datetime.valid b = true ->
  datetime.ltb a b = true -> datetime.toordinal a < datetime.toordinal b.
Proof.
  rewrite !valid_fields. destruct a as [y1 m1 d1], b as [y2 m2 d2].
  unfold datetime.ltb, datetime.toordinal, datetime._ymd2ord.
  cbn [datetime.year datetime.month datetime.day].
  intros (Hy1 & Hm1 & Hd1) (Hy2 & Hm2 & Hd2) H.
  pose proof (day_of_year_bounds y1 m1 d1 Hm1 Hd1) as B1.
  pose proof (day_of_year_bounds y2 m2 d2 Hm2 Hd2) as B2.
  apply orb_true_iff in H as [H | H].
  - apply Z.ltb_lt in H.
    pose proof (days_before_next_year y1) as Hn.
    pose proof (days_before_year_mono (y1 + 1) y2 ltac:(lia)). lia.
  - apply andb_true_iff in H as [Hy H]. apply Z.eqb_eq in Hy. subst y2.
    apply orb_true_iff in H as [H | H].
    + apply Z.ltb_lt in H.
      pose proof (day_of_year_mono y1 m1 d1 m2 d2 ltac:(lia) H ltac:(lia)
                    Hd1 ltac:(lia)). lia.
    + apply andb_true_iff in H as [Hm H]. apply Z.eqb_eq in Hm. subst m2.
      apply Z.ltb_lt in H. lia.
Qed.

Lemma date_trichotomy a b :
  datetime.ltb a b = true \/ a = b \/ datetime.ltb b a = true.
Proof.
  destruct a as [y1 m1 d1], b as [y2 m2 d2].
  unfold datetime.ltb. cbn [datetime.year datetime.month datetime.day].
  destruct (Z.ltb_spec y1 y2); [left; reflexivity|].
  destruct (Z.ltb_spec y2 y1); [right; right; reflexivity|].
  assert (y1 = y2) by lia. subst y2. rewrite Z.eqb_refl. cbn [orb andb].
  destruct (Z.ltb_spec m1 m2); [left; reflexivity|].
  destruct (Z.ltb_spec m2 m1); [right; right; reflexivity|].
  assert (m1 = m2) by lia. subst m2. rewrite Z.eqb_refl. cbn [orb andb].
  destruct (Z.ltb_spec d1 d2); [left; reflexivity|].
  destruct (Z.ltb_spec d2 d1); [right; right; reflexivity|].
  right; left. f_equal. lia.
Qed.

(** On dates, the order of the triples is the order of the ordinals. *)
Lemma ltb_toordinal a b :
  datetime.valid a = true -> datetime.valid b = true ->
  datetime.ltb a b = (datetime.toordinal a <? datetime.toordinal b).
Proof.
  intros Ha Hb.
  destruct (date_trichotomy a b) as [H | [-> | H]].
  - rewrite H. symmetry. apply Z.ltb_lt. apply toordinal_lt; assumption.
  - rewrite date_ltb_irrefl. symmetry. apply Z.ltb_irrefl.
  - rewrite (date_ltb_asym _ _ H). symmetry. apply Z.ltb_ge.
    pose proof (toordinal_lt b a Hb Ha H). lia.
Qed.

(** *** Ordinals and dates: one 400-year cycle, checked, and its shifts *)

Lemma cycle_step_iter n : forall o b,
  fst (Pos.iter cycle_step (o, b) n) = o + Z.pos n
  /\ (snd (Pos.iter cycle_step (o, b) n) = true ->
      b = true /\ forall k, o <= k < o + Z.pos n -> cycle_ok k = true).
Proof.
  induction n as [|n IH] using Pos.peano_ind; intros o b.
  - cbn [Pos.iter cycle_step fst snd]. split; [reflexivity|].
    intros H. apply andb_true_iff in H as [Hb Ho]. split; [exact Hb|].
    intros k Hk. assert (k = o) by lia. subst k. exact Ho.
  - rewrite Pos.iter_succ. unfold cycle_step at 1.
    destruct (IH o b) as [Hfst Hsnd]. split.
    + cbn [fst]. rewrite Hfst. lia.
    + cbn [snd]. intros H. apply andb_true_iff in H as [H1 H2].
      destruct (Hsnd H1) as [Hb Hall]. split; [exact Hb|].
      intros k Hk. rewrite Hfst in H2.
      destruct (Z.eq_dec k (o + Z.pos n)) as [->|]; [exact H2|].
      apply Hall. lia.
Qed.

Lemma checked_upto_sound n :
  checked_upto n = true -> forall k, 1 <= k <= Z.pos n -> cycle_ok k = true.
Proof.
  unfold checked_upto. intros H k Hk.
  destruct (cycle_step_iter n 1 true) as [_ Hs].
  destruct (Hs H) as [_ Hall]. apply Hall. lia.
Qed.

Lemma cycle_checked : checked_upto 146097 = true.
Proof. vm_compute. reflexivity. Qed.

Lemma cycle_ok_all o : 1 <= o <= 146097 -> cycle_ok o = true.
Proof. exact (checked_upto_sound 146097 cycle_checked o). Qed.

Lemma is_leap_shift y q : datetime._is_leap (y + 400 * q) = datetime._is_leap y.
Proof.
  unfold datetime._is_leap.
  replace ((y + 400 * q) mod 4) with (y mod 4)
    by (Z.div_mod_to_equations; lia).
  replace ((y + 400 * q) mod 100) with (y mod 100)
    by (Z.div_mod_to_equations; lia).
  replace ((y + 400 * q) mod 400) with (y mod 400)
    by (Z.div_mod_to_equations; lia).
  reflexivity.
Qed.

Lemma days_before_year_shift y q :
  datetime._days_before_year (y + 400 * q)
  = datetime._days_before_year y + 146097 * q.
Proof.
  unfold datetime._days_before_year. Z.div_mod_to_equations. lia.
Qed.

Lemma toordinal_shift y m d q :
  datetime.toordinal (datetime.Date (y + 400 * q) m d)
  = datetime.toordinal (datetime.Date y m d) + 146097 * q.
Proof.
  unfold datetime.toordinal, datetime._ymd2ord, datetime._days_before_month.
  cbn [datetime.year datetime.month datetime.day].
  rewrite is_leap_shift, days_before_year_shift. lia.
Qed.

Lemma valid_shift y m d q :
  datetime.valid (datetime.Date y m d) = true ->
  1 <= y + 400 * q <= 9999 ->
  datetime.valid (datetime.Date (y + 400 * q) m d) = true.
Proof.
  rewrite !valid_fields. cbn [datetime.year datetime.month datetime.day].
  unfold datetime._days_in_month. rewrite is_leap_shift. tauto.
Qed.

Lemma fromordinal_shift o :
  let q := (o - 1) / 146097 in
  let o' := (o - 1) mod 146097 + 1 in
  datetime.fromordinal o =
  datetime.Date (datetime.year (datetime.fromordinal o') + 400 * q)
                (datetime.month (datetime.fromordinal o'))
                (datetime.day (datetime.fromordinal o')).
Proof.
  intros q o'. unfold datetime.fromordinal, datetime._ord2ymd,
    datetime._DI400Y. cbv zeta.
  replace (o' - 1) with ((o - 1) mod 146097) by (unfold o'; lia).
  rewrite Z.mod_mod by lia.
  rewrite (Z.div_small ((o - 1) mod 146097) 146097)
    by (apply Z.mod_pos_bound; lia).
  fold q. set (r := (o - 1) mod 146097).
  repeat match goal with
    | |- context [if ?b then _ else _] => destruct b
    end; cbn [datetime.year datetime.month datetime.day]; f_equal; lia.
Qed.

(** Every ordinal of the calendar is the ordinal of the date it
    denotes, and that date is a date. *)
Lemma toordinal_fromordinal o :
  1 <= o <= datetime._MAXORDINAL ->
  datetime.valid (datetime.fromordinal o) = true
  /\ datetime.toordinal (datetime.fromordinal o) = o.
Proof.
  unfold datetime._MAXORDINAL. intros Ho.
  rewrite (fromordinal_shift o). cbv zeta.
  set (q := (o - 1) / 146097). set (o' := (o - 1) mod 146097 + 1).
  assert (Ho' : 1 <= o' <= 146097)
    by (unfold o'; pose proof (Z.mod_pos_bound (o - 1) 146097); lia).
  assert (Hq : 0 <= q <= 24)
    by (unfold q; Z.div_mod_to_equations; lia).
  assert (Hsum : o = o' + 146097 * q)
    by (unfold o', q; Z.div_mod_to_equations; lia).
  pose proof (cycle_ok_all o' Ho') as Hc. unfold cycle_ok in Hc.
  cbv zeta in Hc. rewrite !andb_true_iff in Hc.
  destruct Hc as [[[Hv Hord] Hy400] Hy399].
  apply Z.eqb_eq in Hord. apply Z.leb_le in Hy400.
  destruct (datetime.fromordinal o') as [y m d] eqn:E.
  cbn [datetime.year datetime.month datetime.day] in *.
  split.
  - apply valid_shift; [exact Hv|].
    apply valid_fields in Hv. cbn [datetime.year] in Hv.
    apply orb_true_iff in Hy399 as [H | H].
    + apply Z.ltb_lt in H. lia.
    + apply Z.leb_le in H. lia.
  - rewrite toordinal_shift, Hord. lia.
Qed.

(** For a date [d] and an ordinal [o] of the calendar, comparing [d]
    with the date of [o] is comparing ordinals. *)
Lemma leb_fromordinal o d :
  1 <= o <= datetime._MAXORDINAL -> datetime.valid d = true ->
  datetime.leb (datetime.fromordinal o) d = (o <=? datetime.toordinal d)
  /\ datetime.leb d (datetime.fromordinal o) = (datetime.toordinal d <=? o).
Proof.
  intros Ho Hd. destruct (toordinal_fromordinal o Ho) as [Hv Hord].
  rewrite !date_leb_ltb, !ltb_toordinal by assumption. rewrite Hord.
  split; rewrite Z.leb_antisym; reflexivity.
Qed.

(** ** [sorted]: a stable sort *)

Section Sorted.
Context {A : Type} (lt : A -> A -> bool).

Hypothesis lt_asym : forall a b, lt a b = true -> lt b a = false.
Hypothesis nlt_trans : forall a b c, nlt lt a b -> nlt lt b c -> nlt lt a c.

Lemma insort_perm x l : Permutation (insort lt x l) (x :: l).
Proof.
  induction l as [|y l IH]; simpl; [reflexivity|].
  destruct (lt y x); [|reflexivity].
  rewrite IH. apply perm_swap.
Qed.

Lemma sorted_perm l : Permutation (sorted lt l) l.
Proof.
  induction l as [|x l IH]; simpl; [reflexivity|].
  rewrite insort_perm. constructor. exact IH.
Qed.

Lemma insort_sorted x l :
  StronglySorted (nlt lt) l -> StronglySorted (nlt lt) (insort lt x l).
Proof.
  induction 1 as [|y l Hs IH Hy]; simpl.
  - constructor; constructor.
  - destruct (lt y x) eqn:E.
    + constructor; [exact IH|].
      rewrite List.Forall_forall. intros z Hz.
      apply (Permutation_in _ (insort_perm x l)) in Hz.
      destruct Hz as [<- | Hz].
      * apply lt_asym. exact E.
      * rewrite List.Forall_forall in Hy. auto.
    + constructor; [constructor; assumption|].
      constructor; [exact E|].
      rewrite List.Forall_forall in *. intros z Hz.
      apply (nlt_trans x y z); [exact E | auto].
Qed.

Lemma sorted_sorted l : StronglySorted (nlt lt) (sorted lt l).
Proof.
  induction l as [|x l IH]; simpl; [constructor|].
  apply insort_sorted. exact IH.
Qed.

(** Stability: a class of elements that [lt] cannot tell apart
    keeps its order. *)
Lemma filter_insort (p : A -> bool) x l :
  (forall y, lt y x = true -> p x = true -> p y = false) ->
  List.filter p (insort lt x l) =
  if p x then x :: List.filter p l else List.filter p l.
Proof.
  intros Hp. induction l as [|y l IH]; [reflexivity|].
  simpl. destruct (lt y x) eqn:E; [|reflexivity].
  simpl. rewrite IH. destruct (p x) eqn:Ex.
  - rewrite (Hp y E eq_refl). reflexivity.
  - reflexivity.
Qed.

Lemma filter_sorted (p : A -> bool) l :
  (forall x y, lt y x = true -> p x = true -> p y = false) ->
  List.filter p (sorted lt l) = List.filter p l.
Proof.
  intros Hp. induction l as [|x l IH]; [reflexivity|].
  simpl. rewrite filter_insort by (apply Hp). rewrite IH. reflexivity.
Qed.

(** In a sorted list the first element with a property may come
    before every element with it. *)
Lemma find_sorted_least (q : A -> bool) l d :
  StronglySorted (nlt lt) l -> find q l = Some d ->
  forall e, In e l -> q e = true -> nlt lt d e \/ e = d.
Proof.
  induction 1 as [|y l Hs IH Hy]; [discriminate|].
  simpl. destruct (q y) eqn:E.
  - intros H e [<- | He] _; inversion H; subst; [right; reflexivity|].
    left. rewrite List.Forall_forall in Hy. auto.
  - intros H e [<- | He] Hq; [congruence|]. apply IH; assumption.
Qed.
End Sorted.

Lemma StronglySorted_weaken {A : Type} (R R' : A -> A -> Prop) l :
  (forall a b, R a b -> R' a b) -> StronglySorted R l -> StronglySorted R' l.
Proof.
  intros HR. induction 1 as [|x l Hs IH Hx]; constructor; [exact IH|].
  rewrite List.Forall_forall in *. auto.
Qed.

Lemma DueDate_lt_dates a b : DueDate_lt a b = datetime.ltb (date a) (date b).
Proof. apply tuple1_lt_ltb. Qed.

Lemma DueDate_lt_asym a b : DueDate_lt a b = true -> DueDate_lt b a = false.
Proof. rewrite !DueDate_lt_dates. apply date_ltb_asym. Qed.

Lemma DueDate_nlt_trans a b c :
  nlt DueDate_lt a b -> nlt DueDate_lt b c -> nlt DueDate_lt a c.
Proof.
  unfold nlt. rewrite !DueDate_lt_dates. intros H1 H2.
  eapply date_nlt_trans; eassumption.
Qed.

Lemma nlt_leb a b :
  nlt DueDate_lt a b <-> datetime.leb (date a) (date b) = true.
Proof.
  unfold nlt. rewrite DueDate_lt_dates, date_leb_ltb, negb_true_iff. reflexivity.
Qed.

(** C6: entries compare by date alone, whatever their flags, and
    [sorted] orders a list by date and is stable: the result is a
    permutation in ascending date order in which the entries of each
    date keep their original order. *)
Theorem DueDate_order_by_date :
  (forall a b, DueDate_lt a b = datetime.ltb (date a) (date b))
  /\ (forall a b, DueDate_eq a b = true <-> date a = date b)
  /\ (forall d1 d2 c1 c2 c1' c2',
        DueDate_lt (mkDueDate d1 c1) (mkDueDate d2 c2)
        = DueDate_lt (mkDueDate d1 c1') (mkDueDate d2 c2')
        /\ DueDate_eq (mkDueDate d1 c1) (mkDueDate d2 c2)
           = DueDate_eq (mkDueDate d1 c1') (mkDueDate d2 c2'))
  /\ (forall l,
        Permutation (sorted DueDate_lt l) l
        /\ StronglySorted
             (fun a b => datetime.leb (date a) (date b) = true)
             (sorted DueDate_lt l)
        /\ forall d,
             List.filter (fun e => datetime.eqb (date e) d) (sorted DueDate_lt l)
             = List.filter (fun e => datetime.eqb (date e) d) l).
Proof.
  split; [apply DueDate_lt_dates|].
  split; [intros a b; apply date_eqb_eq|].
  split; [intros; split; reflexivity|].
  intros l. split; [apply sorted_perm|]. split.
  - eapply StronglySorted_weaken;
      [| apply (sorted_sorted DueDate_lt DueDate_lt_asym DueDate_nlt_trans)].
    intros a b H. apply nlt_leb. exact H.
  - intros d. apply filter_sorted. intros x y Hlt Hx.
    rewrite DueDate_lt_dates in Hlt. apply date_eqb_eq in Hx.
    destruct (datetime.eqb (date y) d) eqn:Hy; [|reflexivity].
    apply date_eqb_eq in Hy. rewrite Hx, Hy, date_ltb_irrefl in Hlt.
    discriminate.
Qed.

(** C6 at a list with two entries of the same date and different
    flags. *)
Lemma DueDate_order_by_date_witness :
  sorted DueDate_lt
    [mkDueDate (datetime.Date 2022 3 15) false;
     mkDueDate (datetime.Date 2022 3 10) true;
     mkDueDate (datetime.Date 2022 3 10) false]
  = [mkDueDate (datetime.Date 2022 3 10) true;
     mkDueDate (datetime.Date 2022 3 10) false;
     mkDueDate (datetime.Date 2022 3 15) false]
  /\ List.filter (fun e => datetime.eqb (date e) (datetime.Date 2022 3 10))
        (sorted DueDate_lt
           [mkDueDate (datetime.Date 2022 3 15) false;
            mkDueDate (datetime.Date 2022 3 10) true;
            mkDueDate (datetime.Date 2022 3 10) false])
     = [mkDueDate (datetime.Date 2022 3 10) true;
        mkDueDate (datetime.Date 2022 3 10) false].
Proof.
  split; [reflexivity|].
  apply (proj2 (proj2 (proj2 (proj2 (proj2 DueDate_order_by_date))
           [mkDueDate (datetime.Date 2022 3 15) false;
            mkDueDate (datetime.Date 2022 3 10) true;
            mkDueDate (datetime.Date 2022 3 10) false]))
           (datetime.Date 2022 3 10)).
Defined.

(** ** The due-date selector *)

Lemma first_due_find rng l :
  first_due rng l = option_map date (find (due_in rng) l).
Proof.
  induction l as [|d l IH]; [reflexivity|].
  simpl. unfold due_in at 1. destruct (completed d); simpl; [exact IH|].
  destruct (DateRange_contains rng (date d)); [reflexivity | exact IH].
Qed.

Lemma make_date_range_representable ref overdue advance :
  range_representable ref overdue advance = true ->
  _make_date_range ref overdue advance =
  Return (mkDateRange
            (datetime.fromordinal (datetime.toordinal ref - overdue))
            (datetime.fromordinal (datetime.toordinal ref + advance))).
Proof.
  unfold range_representable. rewrite !andb_true_iff.
  intros [[[[[H1 H2] H3] H4] H5] H6].
  unfold _make_date_range, timedelta, date_sub, date_add. cbv zeta.
  rewrite H1, H2. cbn [obind]. rewrite Z.add_opp_r.
  rewrite H3, H4. cbn [andb obind]. rewrite H5, H6. reflexivity.
Qed.

Lemma make_date_range_overflow ref overdue advance :
  range_representable ref overdue advance = false ->
  _make_date_range ref overdue advance = Raise OverflowError.
Proof.
  unfold range_representable, _make_date_range, timedelta, date_sub, date_add.
  cbv zeta.
  destruct (Z.abs overdue <=? 999999999); [|reflexivity].
  destruct (Z.abs advance <=? 999999999); [|reflexivity].
  cbn [obind andb]. rewrite Z.add_opp_r.
  destruct (0 <? datetime.toordinal ref - overdue); [|reflexivity].
  destruct (datetime.toordinal ref - overdue <=? datetime._MAXORDINAL);
    [|reflexivity].
  cbn [obind andb].
  destruct (0 <? datetime.toordinal ref + advance); [|reflexivity].
  destruct (datetime.toordinal ref + advance <=? datetime._MAXORDINAL);
    [|reflexivity].
  discriminate.
Qed.

Lemma get_due_date_in_range entries ref overdue advance rng :
  _make_date_range ref overdue advance = Return rng ->
  get_due_date entries ref overdue advance =
  match find (due_in rng) (sorted DueDate_lt entries) with
  | Some d => Return (date d)
  | None => Raise (NoDueDateFound (earliest rng, latest rng) entries)
  end.
Proof.
  intros H. unfold get_due_date. rewrite H. cbn [obind].
  rewrite first_due_find.
  destruct (find (due_in rng) (sorted DueDate_lt entries)); reflexivity.
Qed.

(** C1, as stated, fails: the window does not exist for every
    reference date and every pair of integers. *)
Lemma get_due_date_window_overflow :
  get_due_date [] (datetime.Date 1 1 1) 1 0 = Raise OverflowError
  /\ get_due_date [] (datetime.Date 2022 3 12) 1000000000 0
     = Raise OverflowError.
Proof. split; vm_compute; reflexivity. Qed.

(** C1 (amended): whenever both day counts fit a [timedelta] and both
    ends of the window are dates, [get_due_date] computes the closed
    range from [ref - overdue] days to [ref + advance] days (no sign
    constraint), sorts the entries by date and returns the date of the
    first entry in that order that is not completed and lies in the
    range, which is the earliest such date; when no entry qualifies it
    raises [NoDueDateFound] with the range and the entry list. *)
Theorem get_due_date_spec (entries : list DueDate) (ref : datetime.date)
  (overdue advance : Z) :
  range_representable ref overdue advance = true ->
  let rng :=
    mkDateRange (datetime.fromordinal (datetime.toordinal ref - overdue))
                (datetime.fromordinal (datetime.toordinal ref + advance)) in
  _make_date_range ref overdue advance = Return rng
  /\ (datetime.toordinal (earliest rng) = datetime.toordinal ref - overdue
      /\ datetime.toordinal (latest rng) = datetime.toordinal ref + advance)
  /\ (forall d, due_in rng d =
                negb (completed d)
                && datetime.leb (earliest rng) (date d)
                && datetime.leb (date d) (latest rng))
  /\ (forall d, datetime.valid (date d) = true ->
                due_in rng d =
                negb (completed d)
                && (datetime.toordinal ref - overdue
                    <=? datetime.toordinal (date d))
                && (datetime.toordinal (date d)
                    <=? datetime.toordinal ref + advance))
  /\ match find (due_in rng) (sorted DueDate_lt entries) with
     | Some d =>
         get_due_date entries ref overdue advance = Return (date d)
         /\ In d entries /\ due_in rng d = true
         /\ forall e, In e entries -> due_in rng e = true ->
                      datetime.leb (date d) (date e) = true
     | None =>
         get_due_date entries ref overdue advance
         = Raise (NoDueDateFound (earliest rng, latest rng) entries)
         /\ forall e, In e entries -> due_in rng e = false
     end.
Proof.
  intros Hrep rng.
  pose proof (make_date_range_representable _ _ _ Hrep) as Hrng.
  fold rng in Hrng. split; [exact Hrng|].
  assert (Hords : 1 <= datetime.toordinal ref - overdue <= datetime._MAXORDINAL
                  /\ 1 <= datetime.toordinal ref + advance
                          <= datetime._MAXORDINAL).
  { unfold range_representable in Hrep.
    rewrite !andb_true_iff, !Z.ltb_lt, !Z.leb_le in Hrep. lia. }
  destruct Hords as [Hlo Hhi].
  split; [split; apply toordinal_fromordinal; assumption|].
  assert (Hdue : forall d, due_in rng d =
                           negb (completed d)
                           && datetime.leb (earliest rng) (date d)
                           && datetime.leb (date d) (latest rng))
    by (intros d; unfold due_in, DateRange_contains; apply andb_assoc).
  split; [exact Hdue|].
  split.
  { intros d Hd. rewrite Hdue. unfold rng. cbn [earliest latest].
    rewrite (proj1 (leb_fromordinal _ _ Hlo Hd)).
    rewrite (proj2 (leb_fromordinal _ _ Hhi Hd)). reflexivity. }
  rewrite (get_due_date_in_range entries _ _ _ _ Hrng).
  pose proof (sorted_perm DueDate_lt entries) as Hperm.
  destruct (find (due_in rng) (sorted DueDate_lt entries)) as [d|] eqn:E.
  - split; [reflexivity|].
    pose proof (find_some _ _ E) as [Hin Hd].
    split; [eapply Permutation_in; eassumption|]. split; [exact Hd|].
    intros e He Hq.
    apply (Permutation_in _ (Permutation_sym Hperm)) in He.
    destruct (find_sorted_least DueDate_lt (due_in rng) _ d
                (sorted_sorted DueDate_lt DueDate_lt_asym DueDate_nlt_trans entries)
                E e He Hq) as [H | ->].
    + apply nlt_leb. exact H.
    + rewrite date_leb_ltb, date_ltb_irrefl. reflexivity.
  - split; [reflexivity|].
    intros e He.
    apply (Permutation_in _ (Permutation_sym Hperm)) in He.
    destruct (due_in rng e) eqn:Hq; [|reflexivity].
    exfalso. pose proof (find_none _ _ E e He) as Hn. congruence.
Qed.

(** C1 (amended) at three entries, one of them completed. *)
Lemma get_due_date_spec_witness :
  range_representable (datetime.Date 2022 3 12) 3 9 = true
  /\ get_due_date
       [mkDueDate (datetime.Date 2022 3 20) false;
        mkDueDate (datetime.Date 2022 3 10) false;
        mkDueDate (datetime.Date 2022 3 5) true]
       (datetime.Date 2022 3 12) 3 9
     = Return (datetime.Date 2022 3 10).
Proof.
  split; [reflexivity|].
  pose proof (get_due_date_spec
    [mkDueDate (datetime.Date 2022 3 20) false;
     mkDueDate (datetime.Date 2022 3 10) false;
     mkDueDate (datetime.Date 2022 3 5) true]
    (datetime.Date 2022 3 12) 3 9 eq_refl) as H.
  exact (proj1 (proj2 (proj2 (proj2 (proj2 H))))).
Defined.

(** ** The result wrapper *)

Section Bind.
Context {S : Type}.
Implicit Types (r : MaybeResult) (f : Any -> M S Any) (s : S).

Lemma bind_failed r f s :
  success r = false -> bind r f s = (Return r, s).
Proof. intros H. unfold bind. rewrite H. reflexivity. Qed.

Lemma bind_returns r f s v s' :
  success r = true -> f (value r) s = (Return v, s') ->
  bind r f s = (Return (_new v true), s').
Proof. intros H Hf. unfold bind. rewrite H, Hf. reflexivity. Qed.

Lemma bind_raises r f s e s' :
  success r = true -> f (value r) s = (Raise e, s') ->
  bind r f s =
  if is_RsfException e then (Return (_new (AExc e) false), s')
  else (Raise e, s').
Proof. intros H Hf. unfold bind. rewrite H, Hf. reflexivity. Qed.

Lemma bind_all_failed r fs s :
  success r = false -> bind_all r fs s = (Return r, s).
Proof.
  intros H. induction fs as [|f fs IH]; [reflexivity|].
  cbn [bind_all]. unfold mbind. rewrite bind_failed by exact H. exact IH.
Qed.
End Bind.

(** C5: [bind] on a failed result returns it unchanged and does not
    call the function (whatever the function would do to the state,
    the state is untouched); on a successful result it wraps the value
    the function returns, or the exception when the function raises
    one of the module's error kinds; so after the first failing stage
    of a chain the later stages are skipped and that failure is the
    result of the chain. *)
Theorem bind_short_circuits (S : Type) (r : MaybeResult)
  (f : Any -> M S Any) (s : S) :
  (success r = false ->
   bind r f s = (Return r, s)
   /\ forall fs, bind_all r (f :: fs) s = (Return r, s))
  /\ (success r = true ->
      (forall v s', f (value r) s = (Return v, s') ->
                    bind r f s = (Return (_new v true), s'))
      /\ (forall e s', f (value r) s = (Raise e, s') ->
                       is_RsfException e = true ->
                       bind r f s = (Return (_new (AExc e) false), s')
                       /\ forall fs,
                            bind_all r (f :: fs) s
                            = (Return (_new (AExc e) false), s'))).
Proof.
  split.
  - intros H. split; [apply bind_failed; exact H|].
    intros fs. apply bind_all_failed. exact H.
  - intros H. split.
    + intros v s' Hf. apply bind_returns; assumption.
    + intros e s' Hf He.
      assert (Hb : bind r f s = (Return (_new (AExc e) false), s'))
        by (rewrite (bind_raises r f s e s' H Hf), He; reflexivity).
      split; [exact Hb|].
      intros fs. cbn [bind_all]. unfold mbind. rewrite Hb.
      apply bind_all_failed. reflexivity.
Qed.

(** C5 at a stage that counts its calls and fails, followed by
    stages that would count and succeed: they are never called. *)
Lemma bind_short_circuits_witness :
  let failing : Any -> M nat Any :=
    fun _ n => (Raise DateblockNotFound, Datatypes.S n) in
  let counting : Any -> M nat Any :=
    fun v n => (Return v, Datatypes.S n) in
  bind_all (_new (ALines []) true) [failing; counting; counting] 0%nat
  = (Return (_new (AExc DateblockNotFound) false), 1%nat).
Proof.
  intros failing counting.
  apply (proj2 (proj2 (bind_short_circuits nat (_new (ALines []) true)
                         failing 0%nat) eq_refl)
               DateblockNotFound 1%nat eq_refl eq_refl).
Defined.

(** ** The line limit *)

Lemma compress_repeat_true {A : Type} (l : list A) n :
  itertools.compress l (List.repeat true n) = firstn n l.
Proof.
  revert l. induction n as [|n IH]; intros [|x l]; simpl; try reflexivity.
  f_equal. apply IH.
Qed.

Lemma limit_stream_positive {A : Type} (stream : list A) n :
  0 < n <= sys.maxsize ->
  _limit_stream stream n = Return (take_first n stream).
Proof.
  intros H. unfold _limit_stream, take_first, itertools.repeat.
  destruct (Z.leb_spec n 0); [lia|].
  destruct (Z.ltb_spec n (- sys.maxsize - 1)); [lia|].
  destruct (Z.ltb_spec sys.maxsize n); [lia|].
  cbn [orb obind]. rewrite compress_repeat_true. reflexivity.
Qed.

Lemma limit_stream_nonpositive {A : Type} (stream : list A) n :
  n <= 0 -> _limit_stream stream n = Return stream.
Proof.
  intros H. unfold _limit_stream. destruct (Z.leb_spec n 0); [reflexivity | lia].
Qed.

Lemma limit_stream_overflow {A : Type} (stream : list A) n :
  sys.maxsize < n -> _limit_stream stream n = Raise OverflowError.
Proof.
  intros H. unfold _limit_stream, itertools.repeat.
  assert (Hm : 0 < sys.maxsize) by reflexivity.
  destruct (Z.leb_spec n 0); [lia|].
  destruct (Z.ltb_spec sys.maxsize n); [|lia].
  rewrite orb_true_r. reflexivity.
Qed.

(** C8, as stated, fails: a positive limit above [sys.maxsize] does
    not truncate, it makes [_limit_stream] raise [OverflowError]. *)
Lemma limit_stream_beyond_maxsize :
  0 < 2 ^ 63
  /\ take_first (2 ^ 63) [py "rsf:"; py "- 2022-03-15"]
     = [py "rsf:"; py "- 2022-03-15"]
  /\ _limit_stream [py "rsf:"; py "- 2022-03-15"] (2 ^ 63)
     = Raise OverflowError.
Proof.
  split; [reflexivity|]. split.
  - unfold take_first. apply firstn_all2.
    change (2 ^ 63) with 9223372036854775808. cbn [length]. lia.
  - apply limit_stream_overflow. reflexivity.
Qed.

(** C8 (amended): with a positive limit N that fits [sys.maxsize],
    [_limit_stream] yields exactly the first N lines (all of them when
    the stream is shorter), as plain truncation does, so a marker that
    is not among the first N lines is never found; with limit 0 the
    stream is returned unchanged; with a limit above [sys.maxsize] it
    raises [OverflowError]. *)
Theorem limit_stream_is_truncation (stream : list str) (n : Z) :
  (0 < n <= sys.maxsize ->
   exists limited,
     _limit_stream stream n = Return limited
     /\ limited = take_first n stream
     /\ (exists rest, stream = limited ++ rest)
     /\ length limited = Nat.min (Z.to_nat n) (length stream)
     /\ (forallb _isnot_start_pattern_match limited = true ->
         find_dateblock limited = Raise DateblockNotFound))
  /\ _limit_stream stream 0 = Return stream
  /\ (sys.maxsize < n -> _limit_stream stream n = Raise OverflowError).
Proof.
  split; [|split; [apply limit_stream_nonpositive; lia
                  | apply limit_stream_overflow]].
  intros H. exists (take_first n stream).
  split; [apply limit_stream_positive; exact H|].
  split; [reflexivity|]. unfold take_first. split; [|split].
  - exists (skipn (Z.to_nat n) stream). symmetry. apply firstn_skipn.
  - apply length_firstn.
  - apply find_dateblock_no_marker.
Qed.

(** C8 (amended) at a stream whose marker is its third line, with
    limit 2. *)
Lemma limit_stream_is_truncation_witness :
  let stream := map py ["# Title"; "some prose"; "rsf:"; "- 2022-03-15"]%string in
  0 < 2 <= sys.maxsize
  /\ (exists limited,
        _limit_stream stream 2 = Return limited
        /\ limited = map py ["# Title"; "some prose"]%string
        /\ find_dateblock limited = Raise DateblockNotFound)
  /\ find_dateblock stream = Return [py "- 2022-03-15"].
Proof.
  intros stream.
  assert (Hn : 0 < 2 <= sys.maxsize)
    by (change sys.maxsize with 9223372036854775807; lia).
  destruct (proj1 (limit_stream_is_truncation stream 2) Hn)
    as (limited & H0 & H1 & _ & _ & H2).
  split; [exact Hn|]. split; [|reflexivity].
  exists limited. split; [exact H0|]. split; [exact H1|].
  apply H2. rewrite H1. reflexivity.
Defined.

(** ** The ISO form of dates *)

Lemma digit_val_chr x :
  0 <= x <= 9 -> datetime.digit_val (chr (48 + x)) = Some x.
Proof.
  intros H.
  assert (Hx : x = 0 \/ x = 1 \/ x = 2 \/ x = 3 \/ x = 4 \/ x = 5 \/ x = 6
               \/ x = 7 \/ x = 8 \/ x = 9) by lia.
  repeat (destruct Hx as [-> | Hx]; [reflexivity|]). subst. reflexivity.
Qed.

Lemma digit_at_val n k :
  datetime.digit_val (datetime.digit_at n k) = Some ((n / 10 ^ k) mod 10).
Proof.
  unfold datetime.digit_at. apply digit_val_chr.
  pose proof (Z.mod_pos_bound (n / 10 ^ k) 10). lia.
Qed.

Lemma digit_at_decimal n k : uni_isdecimal (datetime.digit_at n k) = true.
Proof.
  unfold datetime.digit_at.
  pose proof (Z.mod_pos_bound (n / 10 ^ k) 10 eq_refl) as H.
  set (x := (n / 10 ^ k) mod 10) in *. clearbody x.
  assert (Hx : x = 0 \/ x = 1 \/ x = 2 \/ x = 3 \/ x = 4 \/ x = 5 \/ x = 6
               \/ x = 7 \/ x = 8 \/ x = 9) by lia.
  repeat (destruct Hx as [-> | Hx]; [reflexivity|]). subst. reflexivity.
Qed.

Lemma four_digits n :
  0 <= n < 10000 ->
  (n / 10 ^ 3) mod 10 * 1000 + (n / 10 ^ 2) mod 10 * 100
  + (n / 10 ^ 1) mod 10 * 10 + (n / 10 ^ 0) mod 10 = n.
Proof.
  intros H. change (10 ^ 3) with 1000. change (10 ^ 2) with 100.
  change (10 ^ 1) with 10. change (10 ^ 0) with 1.
  Z.div_mod_to_equations. lia.
Qed.

Lemma two_digits n :
  0 <= n < 100 ->
  (n / 10 ^ 1) mod 10 * 10 + (n / 10 ^ 0) mod 10 = n.
Proof.
  intros H. change (10 ^ 1) with 10. change (10 ^ 0) with 1.
  Z.div_mod_to_equations. lia.
Qed.

Lemma valid_bounds d :
  datetime.valid d = true ->
  1 <= datetime.year d <= 9999 /\ 1 <= datetime.month d <= 12
  /\ 1 <= datetime.day d <= 31.
Proof.
  unfold datetime.valid, datetime.MINYEAR, datetime.MAXYEAR.
  rewrite !andb_true_iff, !Z.leb_le.
  intros [[[[[H1 H2] H3] H4] H5] H6].
  assert (datetime._days_in_month (datetime.year d) (datetime.month d) <= 31).
  { unfold datetime._days_in_month, datetime._DAYS_IN_MONTH.
    destruct (_ && _); [lia|].
    assert (Hm : datetime.month d = 1 \/ datetime.month d = 2
                 \/ datetime.month d = 3 \/ datetime.month d = 4
                 \/ datetime.month d = 5 \/ datetime.month d = 6
                 \/ datetime.month d = 7 \/ datetime.month d = 8
                 \/ datetime.month d = 9 \/ datetime.month d = 10
                 \/ datetime.month d = 11 \/ datetime.month d = 12) by lia.
    repeat (destruct Hm as [-> | Hm]; [lia|]). rewrite Hm. lia. }
  lia.
Qed.

(** [isoformat] writes a date as a token that [fromisoformat] reads
    back. *)
Lemma parse_iso_isoformat d :
  datetime.valid d = true ->
  date_token_shape (datetime.isoformat d) = true
  /\ datetime.parse_iso (datetime.isoformat d) = Some d.
Proof.
  intros Hv. destruct (valid_bounds d Hv) as (Hy & Hm & Hd).
  unfold datetime.isoformat. cbn [app]. split.
  - cbn [date_token_shape]. rewrite !digit_at_decimal. reflexivity.
  - cbn [datetime.parse_iso]. rewrite !digit_at_val.
    rewrite four_digits by lia. rewrite !two_digits by lia.
    destruct d as [y m dd]. cbn [datetime.year datetime.month datetime.day] in *.
    rewrite Hv. reflexivity.
Qed.

Lemma parse_iso_valid s d :
  datetime.parse_iso s = Some d -> datetime.valid d = true.
Proof.
  unfold datetime.parse_iso.
  destruct s as [|y1 [|y2 [|y3 [|y4 [|s1 [|m1 [|m2 [|s2 [|d1 [|d2 [|x t]]]]]]]]]]];
    try discriminate.
  repeat match goal with
    | |- context [datetime.digit_val ?c] => destruct (datetime.digit_val c)
    end; try discriminate.
  destruct (_ && _ && datetime.valid _) eqn:E; [|discriminate].
  intros H. inversion H; subst. apply andb_true_iff in E as [_ E]. exact E.
Qed.

Lemma from_datestr_valid s d :
  from_datestr s = Return d -> datetime.valid (date d) = true.
Proof.
  pose proof (from_datestr_cases s) as H.
  destruct (re_match _DATE_PATTERN s) as [m|]; [|congruence].
  destruct H as (flag & token & _ & _ & _ & ->).
  destruct (datetime.parse_iso token) as [d'|] eqn:E; [|discriminate].
  intros H. inversion H; subst. cbn [date]. eapply parse_iso_valid. exact E.
Qed.

Lemma omap_returns {A B : Type} (f : A -> outcome B) l l' :
  omap f l = Return l' -> Forall2 (fun a b => f a = Return b) l l'.
Proof.
  revert l'. induction l as [|a l IH]; intros l'; cbn [omap].
  - intros H. inversion H. constructor.
  - destruct (f a) as [b|e] eqn:E; [|discriminate]. cbn [obind].
    destruct (omap f l) as [bs|e]; [|discriminate]. cbn [obind].
    intros H. inversion H; subst. constructor; auto.
Qed.

Lemma duedateblock_valid dateblock duedates :
  _duedateblock_from_strdateblock dateblock = Return duedates ->
  forall e, In e duedates -> datetime.valid (date e) = true.
Proof.
  intros H. apply omap_returns in H.
  induction H as [|s d l l' Hd _ IH]; intros e; [contradiction|].
  intros [<- | He]; [eapply from_datestr_valid; exact Hd | auto].
Qed.


(** ** Presentation *)

Lemma char_eqb_sym a b : char_eqb a b = char_eqb b a.
Proof. unfold char_eqb. apply Z.eqb_sym. Qed.

Lemma split_spec sep s :
  (contains sep s = false -> split sep s = [s])
  /\ (contains sep s = true ->
      exists pre w ws, s = pre ++ sep :: List.last (split sep s) []
                       /\ split sep s = w :: ws /\ ws <> [])
  /\ contains sep (List.last (split sep s) []) = false.
Proof.
  induction s as [|c s (IH1 & IH2 & IH3)].
  - repeat split; try reflexivity. discriminate.
  - cbn [split contains existsb]. rewrite (char_eqb_sym c sep).
    destruct (char_eqb sep c) eqn:E; cbn [orb].
    + apply char_eqb_eq in E. subst c.
      assert (Hlast : List.last ([] :: split sep s) [] = List.last (split sep s) []).
      { destruct (contains sep s) eqn:Hc.
        - destruct (IH2 eq_refl) as (pre & w & ws & _ & -> & _). reflexivity.
        - rewrite (IH1 eq_refl). reflexivity. }
      rewrite Hlast. split; [discriminate|]. split; [|exact IH3].
      intros _. destruct (contains sep s) eqn:Hc.
      * destruct (IH2 eq_refl) as (pre & w & ws & Hs & Hw & Hne).
        exists (sep :: pre), [], (split sep s). split; [|split; [reflexivity|]].
        -- cbn [app]. f_equal. exact Hs.
        -- rewrite Hw. discriminate.
      * rewrite (IH1 eq_refl). exists [], [], [s]. repeat split; discriminate.
    + fold (contains sep s). destruct (contains sep s) eqn:Hc.
      * destruct (IH2 eq_refl) as (pre & w & ws & Hs & Hw & Hne).
        rewrite Hw in *.
        assert (Hlast : List.last ((c :: w) :: ws) [] = List.last (w :: ws) []).
        { destruct ws; [congruence | reflexivity]. }
        rewrite Hlast. split; [discriminate|]. split; [|exact IH3].
        intros _. exists (c :: pre), (c :: w), ws.
        split; [|split; [reflexivity | exact Hne]].
        cbn [app]. f_equal. exact Hs.
      * rewrite (IH1 eq_refl). split; [reflexivity|]. split; [discriminate|].
        cbn [List.last contains existsb]. rewrite E. exact Hc.
Qed.

Lemma excise_filestem_basename filename :
  basename_of filename (_excise_filestem filename).
Proof.
  unfold basename_of, _excise_filestem.
  destruct (split_spec slash filename) as (H1 & H2 & H3).
  destruct (contains slash filename) eqn:Hc.
  - right. destruct (H2 eq_refl) as (pre & w & ws & Hs & _).
    exists pre. split; [exact Hs | exact H3].
  - left. auto.
Qed.

(** ** The per-file pipeline *)

Lemma pipeline_stages stream_ filename ref overdue advance :
  fst (pipeline stream_ filename ref overdue advance tt) =
  match stages stream_ filename ref overdue advance with
  | Return s => Return (_new (AStr s) true)
  | Raise e =>
      if is_RsfException e then Return (_new (AExc e) false) else Raise e
  end.
Proof.
  unfold pipeline, stages, mbind, bind, pure_stage.
  cbn [success value negb find_dateblock_stage].
  destruct (find_dateblock stream_) as [db|e]; cbn [obind];
    [|destruct (is_RsfException e); reflexivity].
  cbn [success value negb _duedateblock_from_strdateblock_stage].
  destruct (_duedateblock_from_strdateblock db) as [dues|e]; cbn [obind];
    [|destruct (is_RsfException e); reflexivity].
  cbn [success value negb get_due_date_stage].
  destruct (get_due_date dues ref overdue advance) as [d|e]; cbn [obind];
    [|destruct (is_RsfException e); reflexivity].
  reflexivity.
Qed.

Lemma stages_returns stream_ filename ref overdue advance s :
  stages stream_ filename ref overdue advance = Return s ->
  exists dateblock duedates due_date,
    find_dateblock stream_ = Return dateblock
    /\ _duedateblock_from_strdateblock dateblock = Return duedates
    /\ get_due_date duedates ref overdue advance = Return due_date
    /\ s = py "DUE : " ++ datetime.isoformat due_date ++ py " : "
           ++ _excise_filestem filename.
Proof.
  unfold stages.
  destruct (find_dateblock stream_) as [db|e] eqn:E1; [|discriminate].
  cbn [obind].
  destruct (_duedateblock_from_strdateblock db) as [dues|e] eqn:E2;
    [|discriminate].
  cbn [obind].
  destruct (get_due_date dues ref overdue advance) as [d|e] eqn:E3;
    [|discriminate].
  cbn [obind]. intros H. inversion H. exists db, dues, d.
  repeat split; assumption || reflexivity.
Qed.




(** ** The selector leaves its argument alone *)

Lemma sorted_new_fresh (h : gmap nat (list DueDate)) l xs :
  h !! l = Some xs ->
  exists l', Heap.sorted_new l h = Some (l', <[l' := sorted DueDate_lt xs]> h)
             /\ l' <> l /\ h !! l' = None.
Proof.
  intros H. unfold Heap.sorted_new. rewrite H.
  exists (fresh (dom h)). split; [reflexivity|].
  pose proof (is_fresh (dom h)) as Hf.
  split.
  - intros Heq. apply Hf. rewrite Heq. apply (elem_of_dom_2 h l xs H).
  - apply not_elem_of_dom. exact Hf.
Qed.

(** C10: [get_due_date] does not change the list object it is given,
    nor any other object of the store: the sort works on a new list;
    whether it returns or raises, the list holds the same entries in
    the same order afterwards, and [NoDueDateFound] refers to that very
    list, not to the sorted copy. *)
Theorem get_due_date_frame (h : gmap nat (list DueDate)) (dateblock : nat)
  (entries : list DueDate) (reference : datetime.date) (overdue advance : Z) :
  h !! dateblock = Some entries ->
  let '(res, h') := Heap.get_due_date dateblock reference overdue advance h in
  h' !! dateblock = Some entries
  /\ (forall l xs, h !! l = Some xs -> h' !! l = Some xs)
  /\ Heap.observe res h' = Some (get_due_date entries reference overdue advance)
  /\ (forall rng l,
        res = Heap.RaisesNoDueDateFound rng l ->
        l = dateblock
        /\ exists dates, dates <> l
                         /\ h !! dates = None
                         /\ h' !! dates = Some (sorted DueDate_lt entries)).
Proof.
  intros Hl. unfold Heap.get_due_date, get_due_date.
  destruct (_make_date_range reference overdue advance) as [rng|e].
  - destruct (sorted_new_fresh h dateblock entries Hl)
      as (l' & -> & Hne & Hfresh).
    rewrite lookup_insert_eq. cbn [obind].
    assert (Hkeep : forall l xs, h !! l = Some xs ->
                      <[l' := sorted DueDate_lt entries]> h !! l = Some xs).
    { intros l xs H. rewrite lookup_insert_ne; [exact H|].
      intros ->. congruence. }
    destruct (first_due rng (sorted DueDate_lt entries)) as [d|].
    + split; [auto|]. split; [exact Hkeep|]. split; [reflexivity|].
      intros rng' l H. discriminate H.
    + split; [auto|]. split; [exact Hkeep|]. split.
      * cbn [Heap.observe]. rewrite (Hkeep _ _ Hl). reflexivity.
      * intros rng' l H. inversion H; subst. split; [reflexivity|].
        exists l'. repeat split; auto. apply lookup_insert_eq.
  - split; [exact Hl|]. split; [auto|]. split; [reflexivity|].
    intros rng l H. discriminate H.
Qed.

(** C10 at a store with one list, on a call that raises. *)
Lemma get_due_date_frame_witness :
  let entries := [mkDueDate (datetime.Date 2022 3 20) false;
                  mkDueDate (datetime.Date 2022 3 10) false] in
  let h : gmap nat (list DueDate) := {[ 7%nat := entries ]} in
  let '(res, h') :=
    Heap.get_due_date 7%nat (datetime.Date 2022 4 1) 3 0 h in
  h' !! 7%nat = Some entries
  /\ (forall l xs, h !! l = Some xs -> h' !! l = Some xs)
  /\ Heap.observe res h'
     = Some (get_due_date entries (datetime.Date 2022 4 1) 3 0)
  /\ (forall rng l,
        res = Heap.RaisesNoDueDateFound rng l ->
        l = 7%nat
        /\ exists dates, dates <> l
                         /\ h !! dates = None
                         /\ h' !! dates = Some (sorted DueDate_lt entries)).
Proof.
  intros entries h.
  apply (get_due_date_frame h 7%nat entries (datetime.Date 2022 4 1) 3 0).
  reflexivity.
Defined.

(** ** The cases of the repository's tests *)

Example test_droptake :
  _droptake (fun x => x <? 10) (fun x => 10 <? x) [1; 2; 3; 11; 23; 45; 1; 2; 3]
  = [23; 45].
Proof. reflexivity. Qed.

Example test_normal_usecase :
  find_dateblock
    [line_nl "First line"; [newline]; line_nl "rsf:";
     line_nl "- x 2022-03-10"; line_nl "- 2022-03-15"; [newline];
     py "End of document."]
  = Return [py "- x 2022-03-10"; py "- 2022-03-15"].
Proof. vm_compute. reflexivity. Qed.

Example test_abbreviated_nonideal_usecase :
  find_dateblock
    [line_nl "rsf:   "; line_nl "-    x 2022-03-10  "; py "- 2022-03-15   "]
  = Return [py "-    x 2022-03-10  "; py "- 2022-03-15   "].
Proof. vm_compute. reflexivity. Qed.

Example test_can_be_sorted :
  sorted DueDate_lt
    [mkDueDate (datetime.Date 2022 3 15) true;
     mkDueDate (datetime.Date 2022 3 12) true;
     mkDueDate (datetime.Date 2022 3 10) true]
  = [mkDueDate (datetime.Date 2022 3 10) true;
     mkDueDate (datetime.Date 2022 3 12) true;
     mkDueDate (datetime.Date 2022 3 15) true].
Proof. reflexivity. Qed.

Example test_from_datestr_completed :
  from_datestr (py "- x 2022-07-18")
  = Return (mkDueDate (datetime.Date 2022 7 18) true).
Proof. vm_compute. reflexivity. Qed.

Example test_from_datestr_notcompleted :
  from_datestr (py "- 2022-07-18")
  = Return (mkDueDate (datetime.Date 2022 7 18) false).
Proof. vm_compute. reflexivity. Qed.

Example test_method_in_range :
  let daterange :=
    mkDateRange (datetime.Date 2022 3 10) (datetime.Date 2022 3 15) in
  DateRange_contains daterange (datetime.Date 2022 3 10) = true
  /\ DateRange_contains daterange (datetime.Date 2022 3 15) = true
  /\ DateRange_contains daterange (datetime.Date 2022 3 12) = true
  /\ DateRange_contains daterange (datetime.Date 2022 3 9) = false
  /\ DateRange_contains daterange (datetime.Date 2022 3 16) = false.
Proof. repeat split; reflexivity. Qed.

Example test_DATE_PATTERN :
  _is_date_pattern_match (py "- x 2022-03-10") = true
  /\ _is_date_pattern_match (py "- 2022-03-10") = true
  /\ _is_date_pattern_match (py "*X    2021-11-11    ") = true
  /\ _is_date_pattern_match (py "*  x2021-11-11    ") = true.
Proof. repeat split; vm_compute; reflexivity. Qed.

Example test_START_PATTERN_is_case_insensitive :
  _isnot_start_pattern_match (py "rsf:") = false
  /\ _isnot_start_pattern_match (py "RSF:") = false
  /\ _isnot_start_pattern_match (py "rSf:") = false.
Proof. repeat split; vm_compute; reflexivity. Qed.

Example make_date_range_days :
  _make_date_range (datetime.Date 2022 3 12) 3 9
  = Return (mkDateRange (datetime.Date 2022 3 9) (datetime.Date 2022 3 21)).
Proof. vm_compute. reflexivity. Qed.

Example end_to_end :
  get_duestr_from_file
    [line_nl "rsf:"; line_nl "- x 2022-03-10"; py "- 2022-03-15"]
    (py "/home/me/notes/garden.md") (datetime.Date 2022 3 15) 3 0 false 0
  = Return (AStr (py "DUE : 2022-03-15 : garden.md")).
Proof. vm_compute. reflexivity. Qed.

(** * Further properties of the code *)

(** ** Dropping and taking *)

(** X1: what [_droptake] yields is one unbroken run of its input: the
    elements that follow the first element failing [drop_pred], up to
    the first of them that fails [take_pred]; every element yielded
    satisfies [take_pred]; and when no element fails [drop_pred]
    nothing is yielded. *)
Theorem droptake_segment {A : Type} (drop_pred take_pred : A -> bool)
  (iterable : list A) :
  let out := _droptake drop_pred take_pred iterable in
  forallb take_pred out = true
  /\ ((forallb drop_pred iterable = true /\ out = [])
      \/ exists pre m post,
           iterable = pre ++ m :: out ++ post
           /\ forallb drop_pred pre = true
           /\ drop_pred m = false
           /\ match post with
              | [] => True
              | x :: _ => take_pred x = false
              end).
Proof.
  intros out. subst out.
  destruct (split_at_first drop_pred iterable)
    as [H | (pre & m & after & -> & Hpre & Hm)].
  - rewrite (droptake_none drop_pred take_pred iterable H).
    split; [reflexivity|]. left. auto.
  - destruct (split_block take_pred after) as (block & rest & -> & Hb & Hr).
    rewrite (droptake_at drop_pred take_pred pre m block rest Hpre Hm Hb Hr).
    split; [exact Hb|]. right. exists pre, m, rest. auto.
Qed.

(** ** Stripping newlines *)

Lemma lstrip_spec c s :
  (exists k, s = List.repeat c k ++ lstrip c s)
  /\ (forall s', lstrip c s <> c :: s').
Proof.
  unfold lstrip. split.
  - exists (length (itertools.takewhile (char_eqb c) s)).
    rewrite <- takewhile_eq_repeat. symmetry. apply takewhile_dropwhile.
  - intros s' H. apply dropwhile_head in H. rewrite char_eqb_refl in H.
    discriminate.
Qed.

Lemma dropwhile_app_nonempty {A : Type} (p : A -> bool) a b :
  itertools.dropwhile p a <> [] ->
  itertools.dropwhile p (a ++ b) = itertools.dropwhile p a ++ b.
Proof.
  induction a as [|x a IH]; simpl; [congruence|].
  destruct (p x); [exact IH | reflexivity].
Qed.

(** [rstrip] does not reach into a prefix that does not end with the
    character. *)
Lemma rstrip_app c l1 l2 :
  rstrip c l1 = l1 -> l1 <> [] -> rstrip c (l1 ++ l2) = l1 ++ rstrip c l2.
Proof.
  unfold rstrip. intros H1 Hne.
  assert (Hd : itertools.dropwhile (char_eqb c) (rev l1) = rev l1).
  { apply (f_equal (@rev char)) in H1. rewrite rev_involutive in H1. exact H1. }
  rewrite rev_app_distr.
  destruct (itertools.dropwhile (char_eqb c) (rev l2)) as [|y t] eqn:E.
  - assert (Hall : forallb (char_eqb c) (rev l2) = true).
    { rewrite <- (takewhile_dropwhile (char_eqb c) (rev l2)), E, app_nil_r.
      apply takewhile_all. }
    rewrite dropwhile_app_all by exact Hall. rewrite Hd, rev_involutive.
    simpl. rewrite app_nil_r. reflexivity.
  - rewrite dropwhile_app_nonempty by (rewrite E; discriminate).
    rewrite E, rev_app_distr, rev_involutive. reflexivity.
Qed.

Lemma rstrip_first_is_last c l x :
  char_eqb c x = false -> rstrip c (l ++ [x]) = l ++ [x].
Proof.
  intros H. unfold rstrip. rewrite rev_app_distr. simpl. rewrite H.
  simpl. rewrite rev_involutive. reflexivity.
Qed.

Lemma rstrip_head c x s :
  char_eqb c x = false -> exists s', rstrip c (x :: s) = x :: s'.
Proof.
  intros H. exists (rstrip c s).
  apply (rstrip_app c [x] s); [|discriminate].
  apply (rstrip_first_is_last c [] x H).
Qed.

(** X2: despite its name [_strip_trailing_newline] removes the newline
    characters at both ends of the string, and only those: the result
    neither starts nor ends with a newline, and stripping it again
    changes nothing. *)
Theorem strip_trailing_newline_spec (s : str) :
  let out := _strip_trailing_newline s in
  (exists j k, s = List.repeat newline j ++ out ++ List.repeat newline k)
  /\ (forall s', out <> newline :: s')
  /\ (forall s', out <> s' ++ [newline])
  /\ _strip_trailing_newline out = out.
Proof.
  intros out. subst out. unfold _strip_trailing_newline, strip.
  destruct (lstrip_spec newline s) as [[j Hj] Hl].
  destruct (rstrip_spec newline (lstrip newline s)) as [[k Hk] Hr].
  assert (Hhead : forall s', rstrip newline (lstrip newline s) <> newline :: s').
  { intros s' H. destruct (lstrip newline s) as [|x t] eqn:E.
    - unfold rstrip in H. simpl in H. discriminate.
    - assert (Hx : char_eqb newline x = false).
      { destruct (char_eqb newline x) eqn:Ex; [|reflexivity].
        apply char_eqb_eq in Ex. subst x. exfalso. apply (Hl t). reflexivity. }
      destruct (rstrip_head newline x t Hx) as [t' Ht]. rewrite Ht in H.
      inversion H; subst. rewrite char_eqb_refl in Hx. discriminate. }
  split; [|split; [exact Hhead|split; [exact Hr|]]].
  - exists j, k. rewrite <- Hk. exact Hj.
  - set (o := rstrip newline (lstrip newline s)) in *.
    assert (Hlo : lstrip newline o = o).
    { unfold lstrip. destruct o as [|x t] eqn:E; [reflexivity|].
      apply dropwhile_stop. destruct (char_eqb newline x) eqn:Ex; [|reflexivity].
      apply char_eqb_eq in Ex. subst x. exfalso. apply (Hhead t). reflexivity. }
    rewrite Hlo. unfold rstrip.
    destruct (rev o) as [|x t] eqn:E; [rewrite <- (rev_involutive o), E; reflexivity|].
    rewrite dropwhile_stop.
    + rewrite <- E. apply rev_involutive.
    + destruct (char_eqb newline x) eqn:Ex; [|reflexivity].
      apply char_eqb_eq in Ex. subst x. exfalso. apply (Hr (rev t)).
      rewrite <- (rev_involutive o), E. reflexivity.
Qed.

(** ** Entry lines before and after stripping *)

Lemma bullet_not_r c :
  is_bullet c = true -> ignorecase_eqb (chr 114) c = false.
Proof.
  intros Hb. destruct (ignorecase_eqb (chr 114) c) eqn:E; [|reflexivity].
  apply ignorecase_r in E as [-> | ->]; discriminate.
Qed.

Lemma digit_not_newline c :
  uni_isdecimal c = true -> char_eqb newline c = false.
Proof. rewrite char_eqb_range. apply ranges_apart_false. reflexivity. Qed.

Lemma token_last_digit token :
  date_token_shape token = true ->
  exists t d, token = t ++ [d] /\ uni_isdecimal d = true.
Proof.
  destruct token as [|y1 [|y2 [|y3 [|y4 [|s1 [|m1 [|m2 [|s2 [|d1 [|d2 [|x t]]]]]]]]]]];
    cbn [date_token_shape]; try discriminate.
  rewrite !andb_true_iff. intros H.
  exists [y1; y2; y3; y4; s1; m1; m2; s2; d1], d2. split; [reflexivity|tauto].
Qed.

(** Stripping an entry line leaves an entry line with the same
    captures. *)
Lemma entry_shape_strip line flag token :
  entry_shape line flag token ->
  entry_shape (_strip_trailing_newline line) flag token.
Proof.
  intros (b & ws1 & ws2 & rest & -> & Hb & Hws1 & Hflag & Hws2 & Htok).
  destruct (token_last_digit token Htok) as (t & d & -> & Hd).
  unfold _strip_trailing_newline, strip, lstrip.
  rewrite dropwhile_stop by (apply bullet_not_newline; exact Hb).
  set (P := b :: ws1 ++ capture_text flag ++ ws2 ++ t).
  assert (Hline : b :: ws1 ++ capture_text flag ++ ws2 ++ (t ++ [d]) ++ rest
                  = (P ++ [d]) ++ rest).
  { unfold P. cbn [app]. rewrite <- !app_assoc. reflexivity. }
  rewrite Hline.
  rewrite (rstrip_app newline (P ++ [d]) rest).
  - exists b, ws1, ws2, (rstrip newline rest). split.
    + unfold P. cbn [app]. rewrite <- !app_assoc. reflexivity.
    + auto.
  - apply rstrip_first_is_last. apply digit_not_newline. exact Hd.
  - destruct P; discriminate.
Qed.

Lemma entry_shape_captures line flag token flag' token' :
  entry_shape line flag token -> entry_shape line flag' token' ->
  flag = flag' /\ token = token'.
Proof.
  intros H H'.
  apply entry_match_complete in H as (m & Hm & Hc & Hd).
  apply entry_match_complete in H' as (m' & Hm' & Hc' & Hd').
  rewrite Hm in Hm'. inversion Hm'; subst m'.
  split; congruence.
Qed.

Lemma from_datestr_shape line flag token :
  entry_shape line flag token ->
  from_datestr line =
  match datetime.parse_iso token with
  | Some d => Return (mkDueDate d (is_some flag))
  | None => Raise ValueError
  end.
Proof.
  intros H. pose proof (from_datestr_cases line) as Hc.
  destruct (entry_match_complete line flag token H) as (m & Hm & _).
  rewrite date_pattern_match, Hm in Hc.
  destruct Hc as (flag' & token' & Hs' & _ & _ & ->).
  destruct (entry_shape_captures _ _ _ _ _ H Hs') as [-> ->]. reflexivity.
Qed.

Lemma is_date_shape line :
  _is_date_pattern_match line = true <->
  exists flag token, entry_shape line flag token.
Proof.
  rewrite is_date_entry_match. split.
  - destruct (entry_match line) as [m|] eqn:E; [|discriminate].
    intros _. apply entry_match_sound in E as (flag & token & H & _). eauto.
  - intros (flag & token & H).
    apply entry_match_complete in H as (m & -> & _). reflexivity.
Qed.

Lemma entry_is_not_marker line :
  _is_date_pattern_match line = true ->
  _isnot_start_pattern_match line = true.
Proof.
  intros E. rewrite isnot_start_shape, negb_true_iff.
  apply is_date_shape in E as (flag & token & b & ws1 & ws2 & rest & -> & Hb & _).
  cbn [start_shape].
  destruct (ws1 ++ capture_text flag ++ ws2 ++ token ++ rest) as [|c2 [|c3 [|c4 r]]];
    try reflexivity.
  rewrite (bullet_not_r b Hb). reflexivity.
Qed.

(** X3: a line that the start pattern accepts is never a date entry, so
    a second marker line ends a date block. *)
Theorem marker_is_not_entry (line : str) :
  _isnot_start_pattern_match line = false ->
  _is_date_pattern_match line = false.
Proof.
  intros Hs. destruct (_is_date_pattern_match line) eqn:E; [|reflexivity].
  apply entry_is_not_marker in E. congruence.
Qed.

(** X3 at a marker that is followed by what looks like an entry. *)
Lemma marker_is_not_entry_witness :
  _is_date_pattern_match (py "RSF: - 2022-03-10") = false.
Proof. apply marker_is_not_entry. vm_compute. reflexivity. Defined.

Lemma strip_entry_parses raw :
  _is_date_pattern_match raw = true ->
  _is_date_pattern_match (_strip_trailing_newline raw) = true
  /\ from_datestr (_strip_trailing_newline raw) = from_datestr raw.
Proof.
  intros Hraw. apply is_date_shape in Hraw as (flag & token & Hsh).
  pose proof (entry_shape_strip _ _ _ Hsh) as Hsh'. split.
  - apply is_date_shape. eauto.
  - rewrite (from_datestr_shape _ _ _ Hsh), (from_datestr_shape _ _ _ Hsh').
    reflexivity.
Qed.

Lemma strip_block_parses block :
  forallb _is_date_pattern_match block = true ->
  Forall2 (fun raw line =>
             line = _strip_trailing_newline raw
             /\ from_datestr line = from_datestr raw)
          block (map _strip_trailing_newline block).
Proof.
  induction block as [|x xs IH]; [constructor|].
  cbn [forallb map]. intros Hb. apply andb_true_iff in Hb as [Hx Hxs].
  constructor; [|auto]. split; [reflexivity | apply strip_entry_parses; exact Hx].
Qed.

Lemma strip_block_lines block :
  forallb _is_date_pattern_match block = true ->
  Forall (fun line =>
            _is_date_pattern_match line = true
            /\ _isnot_start_pattern_match line = true
            /\ forall s', line <> s' ++ [newline])
         (map _strip_trailing_newline block).
Proof.
  induction block as [|x xs IH]; [constructor|].
  cbn [forallb map]. intros Hb. apply andb_true_iff in Hb as [Hx Hxs].
  constructor; [|auto].
  destruct (strip_entry_parses x Hx) as [Hd _]. split; [exact Hd|]. split.
  - apply entry_is_not_marker. exact Hd.
  - unfold _strip_trailing_newline, strip. apply rstrip_spec.
Qed.

Lemma find_dateblock_lines stream out :
  find_dateblock stream = Return out ->
  exists pre marker block rest,
    dateblock_at stream pre marker block rest
    /\ block <> [] /\ out = map _strip_trailing_newline block.
Proof.
  intros H.
  destruct (dateblock_cases stream) as [Hn | (pre & m & block & rest & Hat)].
  - rewrite (find_dateblock_no_marker stream Hn) in H. discriminate.
  - rewrite (find_dateblock_at _ _ _ _ _ Hat) in H.
    exists pre, m, block, rest. split; [exact Hat|].
    destruct block; [discriminate|]. inversion H. split; [discriminate|reflexivity].
Qed.

(** X4: when [find_dateblock] returns, its list is not empty and is
    shorter than the stream; its lines are the entry lines directly
    after the first marker, each with the newlines at its ends
    removed; and every returned line is still a date entry, is not a
    marker, does not end in a newline and parses to what the raw line
    parses to. *)
Theorem find_dateblock_output (stream out : list str) :
  find_dateblock stream = Return out ->
  out <> []
  /\ (length out < length stream)%nat
  /\ (exists pre marker block rest,
        dateblock_at stream pre marker block rest
        /\ Forall2 (fun raw line =>
                      line = _strip_trailing_newline raw
                      /\ from_datestr line = from_datestr raw) block out)
  /\ Forall (fun line =>
               _is_date_pattern_match line = true
               /\ _isnot_start_pattern_match line = true
               /\ forall s', line <> s' ++ [newline]) out.
Proof.
  intros H.
  destruct (find_dateblock_lines stream out H)
    as (pre & m & block & rest & Hat & Hne & ->).
  pose proof Hat as (Hs & Hpre & Hm & Hb & Hr).
  split; [destruct block; [congruence | discriminate]|]. split; [|split].
  - rewrite Hs, length_map, length_app. cbn [length].
    rewrite length_app. lia.
  - exists pre, m, block, rest. split; [exact Hat|].
    apply strip_block_parses. exact Hb.
  - apply strip_block_lines. exact Hb.
Qed.

(** X4 at a marker and two entries, one completed, the last without line end. *)
Lemma find_dateblock_output_witness :
  let stream := [line_nl "rsf:"; line_nl "- x 2022-03-10"; py "- 2022-03-15"] in
  let out := [py "- x 2022-03-10"; py "- 2022-03-15"] in
  find_dateblock stream = Return out
  /\ out <> [] /\ (length out < length stream)%nat.
Proof.
  intros stream out.
  assert (H : find_dateblock stream = Return out) by (vm_compute; reflexivity).
  split; [exact H|].
  destruct (find_dateblock_output stream out H) as (H1 & H2 & _).
  split; assumption.
Defined.

(** ** Parsing *)

(** X5: round trip of a date: a bullet, whitespace, an optional [x],
    whitespace, the ISO form of a calendar date and any text after it
    parse to the entry of that date, completed exactly when the [x]
    is there. *)
Theorem from_datestr_isoformat (d : datetime.date) (b : char)
  (ws1 ws2 rest : str) (flag : bool) :
  datetime.valid d = true ->
  is_bullet b = true ->
  forallb uni_isspace ws1 = true ->
  forallb uni_isspace ws2 = true ->
  from_datestr (b :: ws1 ++ (if flag then [chr 120] else []) ++ ws2
                  ++ datetime.isoformat d ++ rest)
  = Return (mkDueDate d flag).
Proof.
  intros Hv Hb H1 H2.
  destruct (parse_iso_isoformat d Hv) as [Hshape Hparse].
  rewrite (from_datestr_shape _ (if flag then Some [chr 120] else None)
             (datetime.isoformat d)).
  - rewrite Hparse. destruct flag; reflexivity.
  - exists b, ws1, ws2, rest. split; [destruct flag; reflexivity|].
    repeat split; auto.
    destruct flag; [right; exists (chr 120); auto | left; reflexivity].
Qed.

(** X5 at a completed leap day with a star bullet and a remark. *)
Lemma from_datestr_isoformat_witness :
  from_datestr (py "* x 2024-02-29  # leap day")
  = Return (mkDueDate (datetime.Date 2024 2 29) true).
Proof.
  apply (from_datestr_isoformat (datetime.Date 2024 2 29) (chr 42)
           (py " ") (py " ") (py "  # leap day") true); reflexivity.
Defined.

(** X6: the outcomes of [from_datestr]: on a line the date pattern
    rejects it raises [AttributeError]; on a line it accepts it
    returns the entry of the captured token when the token is a
    calendar date and raises [ValueError] when it is not; a returned
    entry holds a calendar date; and no other exception is raised. *)
Theorem from_datestr_outcomes (datestr : str) :
  (_is_date_pattern_match datestr = false ->
   from_datestr datestr = Raise AttributeError)
  /\ (_is_date_pattern_match datestr = true ->
      exists flag token,
        entry_shape datestr flag token
        /\ from_datestr datestr =
           match datetime.parse_iso token with
           | Some d => Return (mkDueDate d (is_some flag))
           | None => Raise ValueError
           end)
  /\ (forall d, from_datestr datestr = Return d ->
                datetime.valid (date d) = true
                /\ _is_date_pattern_match datestr = true)
  /\ (forall e, from_datestr datestr = Raise e ->
                e = AttributeError \/ e = ValueError).
Proof.
  pose proof (from_datestr_cases datestr) as Hc.
  unfold _is_date_pattern_match.
  destruct (re_match _DATE_PATTERN datestr) as [m|] eqn:E; cbn [is_some].
  - destruct Hc as (flag & token & Hs & _ & _ & Hf).
    split; [discriminate|]. split; [intros _; eauto|]. split.
    + intros d Hd. split; [|reflexivity]. eapply from_datestr_valid. exact Hd.
    + intros e He. rewrite Hf in He.
      destruct (datetime.parse_iso token); inversion He. auto.
  - split; [intros _; exact Hc|]. split; [discriminate|]. split.
    + intros d Hd. rewrite Hc in Hd. discriminate.
    + intros e He. rewrite Hc in He. inversion He. auto.
Qed.

(** X6 at a date without bullet. *)
Lemma from_datestr_outcomes_witness :
  from_datestr (py "2022-03-10") = Raise AttributeError.
Proof.
  apply (proj1 (from_datestr_outcomes (py "2022-03-10"))).
  vm_compute. reflexivity.
Defined.

Lemma omap_Forall2 {A B : Type} (f : A -> outcome B) l l' :
  Forall2 (fun a b => f a = Return b) l l' -> omap f l = Return l'.
Proof.
  induction 1 as [|a b l l' Hab _ IH]; [reflexivity|].
  cbn [omap]. rewrite Hab. cbn [obind]. rewrite IH. reflexivity.
Qed.

Lemma omap_first_error {A B : Type} (f : A -> outcome B) pre pre' x e post :
  Forall2 (fun a b => f a = Return b) pre pre' -> f x = Raise e ->
  omap f (pre ++ x :: post) = Raise e.
Proof.
  induction 1 as [|a b l l' Hab _ IH]; intros Hx.
  - cbn [app omap]. rewrite Hx. reflexivity.
  - cbn [app omap]. rewrite Hab. cbn [obind]. rewrite (IH Hx). reflexivity.
Qed.

Lemma omap_raises {A B : Type} (f : A -> outcome B) l e :
  omap f l = Raise e ->
  exists pre pre' x post,
    l = pre ++ x :: post
    /\ Forall2 (fun a b => f a = Return b) pre pre' /\ f x = Raise e.
Proof.
  induction l as [|a l IH]; [discriminate|].
  cbn [omap]. destruct (f a) as [b|e'] eqn:Ea; cbn [obind].
  - destruct (omap f l) as [bs|e''] eqn:El; [discriminate|].
    cbn [obind]. intros H. inversion H; subst e''.
    destruct (IH eq_refl) as (pre & pre' & x & post & -> & Hpre & Hx).
    exists (a :: pre), (b :: pre'), x, post. repeat split; auto.
  - intros H. inversion H; subst e'. exists [], [], a, l.
    repeat split; auto.
Qed.

Lemma from_datestr_entry_raises line e :
  _is_date_pattern_match line = true -> from_datestr line = Raise e ->
  e = ValueError.
Proof.
  intros Hm He. apply is_date_shape in Hm as (flag & token & Hs).
  rewrite (from_datestr_shape _ _ _ Hs) in He.
  destruct (datetime.parse_iso token); inversion He. reflexivity.
Qed.

(** On the lines [find_dateblock] returns, the parser can fail only
    on a date that is not a calendar date. *)
Lemma parse_block_raises stream dateblock e :
  find_dateblock stream = Return dateblock ->
  _duedateblock_from_strdateblock dateblock = Raise e ->
  e = ValueError.
Proof.
  intros Hfind He. unfold _duedateblock_from_strdateblock in He.
  apply omap_raises in He as (pre & pre' & x & post & Hd & _ & Hx).
  destruct (find_dateblock_lines stream dateblock Hfind)
    as (_ & _ & block & _ & (_ & _ & _ & Hb & _) & _ & Hout).
  pose proof (strip_block_lines block Hb) as Hall.
  rewrite <- Hout, List.Forall_forall in Hall.
  destruct (Hall x) as [Hm _]; [rewrite Hd; apply in_elt|].
  eapply from_datestr_entry_raises; eassumption.
Qed.

(** X7: [_duedateblock_from_strdateblock] returns the entries of all the
    lines, in order, exactly when every line parses; otherwise it
    raises what the first failing line raises, whatever the lines
    after it; and on a block that [find_dateblock] returned the
    exception can only be [ValueError]. *)
Theorem duedateblock_all_or_nothing (dateblock : list str) :
  (forall duedates,
     _duedateblock_from_strdateblock dateblock = Return duedates <->
     Forall2 (fun line d => from_datestr line = Return d) dateblock duedates)
  /\ (forall e,
        _duedateblock_from_strdateblock dateblock = Raise e <->
        exists pre parsed line post,
          dateblock = pre ++ line :: post
          /\ Forall2 (fun l d => from_datestr l = Return d) pre parsed
          /\ from_datestr line = Raise e)
  /\ (forall stream e,
        find_dateblock stream = Return dateblock ->
        _duedateblock_from_strdateblock dateblock = Raise e ->
        e = ValueError).
Proof.
  unfold _duedateblock_from_strdateblock. split; [|split].
  - intros duedates. split; [apply omap_returns | apply omap_Forall2].
  - intros e. split; [apply omap_raises|].
    intros (pre & parsed & line & post & -> & Hpre & Hl).
    eapply omap_first_error; eassumption.
  - intros stream e Hfind He. eapply parse_block_raises; eassumption.
Qed.

(** X7 at a block whose second line is no calendar date and whose third line
    is no entry. *)
Lemma duedateblock_all_or_nothing_witness :
  _duedateblock_from_strdateblock
    [py "- 2022-03-10"; py "- 2022-02-30"; py "not an entry"]
  = Raise ValueError.
Proof.
  apply (proj2 (proj1 (proj2 (duedateblock_all_or_nothing
           [py "- 2022-03-10"; py "- 2022-02-30"; py "not an entry"]))
           ValueError)).
  exists [py "- 2022-03-10"], [mkDueDate (datetime.Date 2022 3 10) false],
         (py "- 2022-02-30"), [py "not an entry"].
  split; [reflexivity|]. split; [|vm_compute; reflexivity].
  constructor; [vm_compute; reflexivity | constructor].
Defined.

(** ** Dates, ordinals and the window *)

Lemma date_leb_trans a b c :
  datetime.leb a b = true -> datetime.leb b c = true -> datetime.leb a c = true.
Proof.
  rewrite !date_leb_ltb, !negb_true_iff. intros H1 H2.
  eapply date_nlt_trans; eassumption.
Qed.

Lemma date_leb_antisym a b :
  datetime.leb a b = true -> datetime.leb b a = true -> a = b.
Proof.
  rewrite !date_leb_ltb, !negb_true_iff. intros H1 H2.
  destruct (date_trichotomy a b) as [H | [H | H]]; congruence.
Qed.

Lemma date_leb_refl a : datetime.leb a a = true.
Proof. rewrite date_leb_ltb, date_ltb_irrefl. reflexivity. Qed.

Lemma toordinal_bounds d :
  datetime.valid d = true -> 1 <= datetime.toordinal d <= datetime._MAXORDINAL.
Proof.
  intros Hv.
  assert (Hlo : datetime.ltb d (datetime.Date 1 1 1) = false).
  { apply valid_fields in Hv. destruct d as [y m dd].
    unfold datetime.ltb. cbn [datetime.year datetime.month datetime.day] in *.
    destruct Hv as (Hy & Hm & Hd).
    destruct (Z.ltb_spec y 1), (Z.eqb_spec y 1), (Z.ltb_spec m 1),
      (Z.eqb_spec m 1), (Z.ltb_spec dd 1); cbn [andb orb]; try reflexivity; lia. }
  assert (Hhi : datetime.ltb (datetime.Date 9999 12 31) d = false).
  { pose proof (valid_bounds d Hv) as (Hy & Hm & Hd). destruct d as [y m dd].
    unfold datetime.ltb. cbn [datetime.year datetime.month datetime.day] in *.
    destruct (Z.ltb_spec 9999 y), (Z.eqb_spec 9999 y), (Z.ltb_spec 12 m),
      (Z.eqb_spec 12 m), (Z.ltb_spec 31 dd); cbn [andb orb]; try reflexivity; lia. }
  rewrite ltb_toordinal in Hlo by (exact Hv || reflexivity).
  rewrite ltb_toordinal in Hhi by (exact Hv || reflexivity).
  apply Z.ltb_ge in Hlo, Hhi.
  change (datetime.toordinal (datetime.Date 1 1 1)) with 1 in Hlo.
  change (datetime.toordinal (datetime.Date 9999 12 31)) with 3652059 in Hhi.
  unfold datetime._MAXORDINAL. lia.
Qed.

Lemma toordinal_inj a b :
  datetime.valid a = true -> datetime.valid b = true ->
  datetime.toordinal a = datetime.toordinal b -> a = b.
Proof.
  intros Ha Hb H.
  destruct (date_trichotomy a b) as [Hl | [-> | Hl]]; [|reflexivity|].
  - pose proof (toordinal_lt a b Ha Hb Hl). lia.
  - pose proof (toordinal_lt b a Hb Ha Hl). lia.
Qed.

(** A date is the date of its ordinal. *)
Lemma fromordinal_toordinal d :
  datetime.valid d = true -> datetime.fromordinal (datetime.toordinal d) = d.
Proof.
  intros Hv.
  destruct (toordinal_fromordinal _ (toordinal_bounds d Hv)) as [Hv' Ho].
  apply toordinal_inj; assumption.
Qed.

Lemma leb_toordinal a b :
  datetime.valid a = true -> datetime.valid b = true ->
  datetime.leb a b = (datetime.toordinal a <=? datetime.toordinal b).
Proof.
  intros Ha Hb. rewrite date_leb_ltb, ltb_toordinal by assumption.
  symmetry. apply Z.leb_antisym.
Qed.

Lemma representable_ordinals ref overdue advance :
  range_representable ref overdue advance = true ->
  1 <= datetime.toordinal ref - overdue <= datetime._MAXORDINAL
  /\ 1 <= datetime.toordinal ref + advance <= datetime._MAXORDINAL.
Proof.
  unfold range_representable.
  rewrite !andb_true_iff, !Z.ltb_lt, !Z.leb_le. lia.
Qed.

Lemma make_date_range_inv ref overdue advance r :
  _make_date_range ref overdue advance = Return r ->
  range_representable ref overdue advance = true
  /\ r = mkDateRange
           (datetime.fromordinal (datetime.toordinal ref - overdue))
           (datetime.fromordinal (datetime.toordinal ref + advance)).
Proof.
  intros H. destruct (range_representable ref overdue advance) eqn:E.
  - rewrite (make_date_range_representable _ _ _ E) in H. inversion H. auto.
  - rewrite (make_date_range_overflow _ _ _ E) in H. discriminate.
Qed.

Lemma make_date_range_raises ref overdue advance ex :
  _make_date_range ref overdue advance = Raise ex -> ex = OverflowError.
Proof.
  intros H. destruct (range_representable ref overdue advance) eqn:E.
  - rewrite (make_date_range_representable _ _ _ E) in H. discriminate.
  - rewrite (make_date_range_overflow _ _ _ E) in H. inversion H. reflexivity.
Qed.

(** X8: for a calendar reference date [_make_date_range] returns exactly
    when both day counts fit a [timedelta] and both ends are dates,
    and raises [OverflowError] otherwise; the ends it returns are
    calendar dates [overdue + advance] days apart; the window is not
    empty exactly when [0 <= overdue + advance]; it holds the
    reference date exactly when neither count is negative; and a
    count of 0 puts that end on the reference date. *)
Theorem make_date_range_window (ref : datetime.date) (overdue advance : Z) :
  datetime.valid ref = true ->
  ((exists r, _make_date_range ref overdue advance = Return r) <->
   range_representable ref overdue advance = true)
  /\ (range_representable ref overdue advance = false ->
      _make_date_range ref overdue advance = Raise OverflowError)
  /\ forall r,
       _make_date_range ref overdue advance = Return r ->
       datetime.valid (earliest r) = true
       /\ datetime.valid (latest r) = true
       /\ datetime.toordinal (latest r) - datetime.toordinal (earliest r)
          = overdue + advance
       /\ (datetime.leb (earliest r) (latest r) = true <->
           0 <= overdue + advance)
       /\ (DateRange_contains r ref = true <-> 0 <= overdue /\ 0 <= advance)
       /\ (overdue = 0 -> earliest r = ref)
       /\ (advance = 0 -> latest r = ref).
Proof.
  intros Hv. split; [|split; [apply make_date_range_overflow|]].
  - split.
    + intros [r Hr]. apply make_date_range_inv in Hr. tauto.
    + intros H. eexists. apply make_date_range_representable. exact H.
  - intros r Hr. apply make_date_range_inv in Hr as [Hrep ->].
    destruct (representable_ordinals _ _ _ Hrep) as [Hlo Hhi].
    destruct (toordinal_fromordinal _ Hlo) as [Hv1 Ho1].
    destruct (toordinal_fromordinal _ Hhi) as [Hv2 Ho2].
    cbn [earliest latest]. unfold DateRange_contains. cbn [earliest latest].
    split; [exact Hv1|]. split; [exact Hv2|]. split; [lia|].
    rewrite !leb_toordinal by assumption. rewrite Ho1, Ho2.
    split; [rewrite Z.leb_le; lia|]. split.
    + rewrite andb_true_iff, !Z.leb_le. lia.
    + split; intros ->.
      * rewrite Z.sub_0_r. apply fromordinal_toordinal. exact Hv.
      * rewrite Z.add_0_r. apply fromordinal_toordinal. exact Hv.
Qed.

(** X8 at a window that starts on a leap day. *)
Lemma make_date_range_window_witness :
  datetime.valid (datetime.Date 2024 3 1) = true
  /\ _make_date_range (datetime.Date 2024 3 1) 1 0
     = Return (mkDateRange (datetime.Date 2024 2 29) (datetime.Date 2024 3 1))
  /\ datetime.toordinal (datetime.Date 2024 3 1)
     - datetime.toordinal (datetime.Date 2024 2 29) = 1 + 0.
Proof.
  split; [reflexivity|].
  assert (H : _make_date_range (datetime.Date 2024 3 1) 1 0
              = Return (mkDateRange (datetime.Date 2024 2 29)
                                    (datetime.Date 2024 3 1)))
    by (vm_compute; reflexivity).
  split; [exact H|].
  exact (proj1 (proj2 (proj2 (proj2 (proj2
           (make_date_range_window (datetime.Date 2024 3 1) 1 0 eq_refl)) _ H)))).
Defined.

(** ** What the selector returns *)

Lemma find_due_none rng l :
  find (due_in rng) (sorted DueDate_lt l) = None <->
  forall e, In e l -> due_in rng e = false.
Proof.
  pose proof (sorted_perm DueDate_lt l) as Hperm. split.
  - intros H e He. apply (Permutation_in _ (Permutation_sym Hperm)) in He.
    apply (find_none _ _ H e He).
  - intros H. destruct (find (due_in rng) (sorted DueDate_lt l)) as [d|] eqn:E;
      [|reflexivity].
    apply find_some in E as [Hin Hd].
    apply (Permutation_in _ Hperm) in Hin. rewrite (H d Hin) in Hd. discriminate.
Qed.

Lemma find_due_some rng l d :
  find (due_in rng) (sorted DueDate_lt l) = Some d ->
  In d l /\ due_in rng d = true
  /\ forall e, In e l -> due_in rng e = true ->
               datetime.leb (date d) (date e) = true.
Proof.
  pose proof (sorted_perm DueDate_lt l) as Hperm. intros E.
  pose proof (find_some _ _ E) as [Hin Hd].
  split; [eapply Permutation_in; eassumption|]. split; [exact Hd|].
  intros e He Hq. apply (Permutation_in _ (Permutation_sym Hperm)) in He.
  destruct (find_sorted_least DueDate_lt (due_in rng) _ d
              (sorted_sorted DueDate_lt DueDate_lt_asym DueDate_nlt_trans l)
              E e He Hq) as [H | ->].
  - apply nlt_leb. exact H.
  - apply date_leb_refl.
Qed.

(** The date returned is the least date of the entries that are due. *)
Lemma get_due_date_returns_iff l ref overdue advance rng x :
  _make_date_range ref overdue advance = Return rng ->
  get_due_date l ref overdue advance = Return x <->
  (exists e, In e l /\ due_in rng e = true /\ date e = x)
  /\ forall e, In e l -> due_in rng e = true ->
               datetime.leb x (date e) = true.
Proof.
  intros Hrng. rewrite (get_due_date_in_range l _ _ _ _ Hrng).
  destruct (find (due_in rng) (sorted DueDate_lt l)) as [d|] eqn:E.
  - destruct (find_due_some _ _ _ E) as (Hin & Hd & Hmin). split.
    + intros H. inversion H; subst x. split; [eauto | exact Hmin].
    + intros [(e & He & Hq & <-) Hx]. f_equal.
      apply date_leb_antisym; [apply Hmin | apply Hx]; assumption.
  - split; [discriminate|]. intros [(e & He & Hq & _) _].
    rewrite (proj1 (find_due_none rng l) E e He) in Hq. discriminate.
Qed.

Lemma get_due_date_raises_iff l ref overdue advance rng ex :
  _make_date_range ref overdue advance = Return rng ->
  get_due_date l ref overdue advance = Raise ex <->
  ex = NoDueDateFound (earliest rng, latest rng) l
  /\ forall e, In e l -> due_in rng e = false.
Proof.
  intros Hrng. rewrite (get_due_date_in_range l _ _ _ _ Hrng).
  destruct (find (due_in rng) (sorted DueDate_lt l)) as [d|] eqn:E.
  - split; [discriminate|]. intros [_ H].
    destruct (find_due_some _ _ _ E) as (Hin & Hd & _).
    rewrite (H d Hin) in Hd. discriminate.
  - split.
    + intros H. inversion H. split; [reflexivity|]. apply find_due_none. exact E.
    + intros [-> _]. reflexivity.
Qed.

Lemma due_in_open rng e :
  due_in rng e = true <->
  completed e = false /\ DateRange_contains rng (date e) = true.
Proof. unfold due_in. rewrite andb_true_iff, negb_true_iff. reflexivity. Qed.

(** X9: [get_due_date] depends on the list only through the dates of the
    entries that are not completed: two lists with the same such
    dates give the same date, or find no due date in the same window,
    or both raise [OverflowError]; order, repetitions and completed
    entries do not matter. *)
Theorem get_due_date_same_open_dates (l l' : list DueDate)
  (ref : datetime.date) (overdue advance : Z) :
  (forall x, open_date l x <-> open_date l' x) ->
  (forall x, get_due_date l ref overdue advance = Return x <->
             get_due_date l' ref overdue advance = Return x)
  /\ (forall rng, get_due_date l ref overdue advance
                  = Raise (NoDueDateFound rng l) <->
                  get_due_date l' ref overdue advance
                  = Raise (NoDueDateFound rng l'))
  /\ (get_due_date l ref overdue advance = Raise OverflowError <->
      get_due_date l' ref overdue advance = Raise OverflowError).
Proof.
  intros Hopen.
  assert (Hdue : forall rng a b, (forall x, open_date a x <-> open_date b x) ->
            forall e, In e a -> due_in rng e = true ->
                      exists e', In e' b /\ due_in rng e' = true
                                 /\ date e' = date e).
  { intros rng a b Hab e He Hq. apply due_in_open in Hq as [Hc Hr].
    destruct (proj1 (Hab (date e))) as (e' & He' & Hc' & Hd'); [exists e; auto|].
    exists e'. split; [exact He'|]. split; [|exact Hd'].
    apply due_in_open. rewrite Hd'. auto. }
  assert (Hsym : forall x, open_date l' x <-> open_date l x)
    by (intros x; symmetry; apply Hopen).
  destruct (_make_date_range ref overdue advance) as [rng|ex] eqn:Hrng.
  - assert (Hret : forall a b, (forall x, open_date a x <-> open_date b x) ->
              forall x, get_due_date a ref overdue advance = Return x ->
                        get_due_date b ref overdue advance = Return x).
    { intros a b Hab x H.
      apply (get_due_date_returns_iff a _ _ _ rng x Hrng) in H
        as [(e & He & Hq & <-) Hmin].
      apply (get_due_date_returns_iff b _ _ _ rng (date e) Hrng). split.
      - destruct (Hdue rng a b Hab e He Hq) as (e' & He' & Hq' & Hd'). eauto.
      - intros e' He' Hq'.
        assert (Hba : forall x, open_date b x <-> open_date a x)
          by (intros y; symmetry; apply Hab).
        destruct (Hdue rng b a Hba e' He' Hq') as (e'' & He'' & Hq'' & <-).
        apply Hmin; assumption. }
    assert (Hnone : forall a b, (forall x, open_date a x <-> open_date b x) ->
              (forall e, In e a -> due_in rng e = false) ->
              forall e, In e b -> due_in rng e = false).
    { intros a b Hab H e He. destruct (due_in rng e) eqn:Hq; [|reflexivity].
      assert (Hba : forall x, open_date b x <-> open_date a x)
        by (intros y; symmetry; apply Hab).
      destruct (Hdue rng b a Hba e He Hq) as (e' & He' & Hq' & _).
      rewrite (H e' He') in Hq'. discriminate. }
    split; [|split].
    + intros x. split; apply Hret; assumption.
    + intros r. rewrite !(get_due_date_raises_iff _ _ _ _ rng _ Hrng). split.
      * intros [Hr H]. inversion Hr. split; [reflexivity|].
        eapply Hnone; eassumption.
      * intros [Hr H]. inversion Hr. split; [reflexivity|].
        eapply Hnone; eassumption.
    + rewrite !(get_due_date_raises_iff _ _ _ _ rng _ Hrng).
      split; intros [H _]; discriminate H.
  - unfold get_due_date. rewrite Hrng. cbn [obind].
    split; [|split].
    + intros x. split; discriminate.
    + apply make_date_range_raises in Hrng. subst ex.
      intros r. split; discriminate.
    + reflexivity.
Qed.

(** X9 at two lists that differ in order, in a repeated entry and in a
    completed entry. *)
Lemma get_due_date_same_open_dates_witness :
  get_due_date
    [mkDueDate (datetime.Date 2022 3 20) false;
     mkDueDate (datetime.Date 2022 3 10) false;
     mkDueDate (datetime.Date 2022 3 5) true]
    (datetime.Date 2022 3 12) 3 9
  = Return (datetime.Date 2022 3 10) <->
  get_due_date
    [mkDueDate (datetime.Date 2022 3 10) false;
     mkDueDate (datetime.Date 2022 3 20) false;
     mkDueDate (datetime.Date 2022 3 10) false]
    (datetime.Date 2022 3 12) 3 9
  = Return (datetime.Date 2022 3 10).
Proof.
  apply (get_due_date_same_open_dates _ _ (datetime.Date 2022 3 12) 3 9).
  intros x. unfold open_date. split; intros (e & He & Hc & Hd).
  - destruct He as [<- | [<- | [<- | []]]].
    + eexists. split; [right; left; reflexivity|]. split; [exact Hc | exact Hd].
    + eexists. split; [left; reflexivity|]. split; [exact Hc | exact Hd].
    + discriminate Hc.
  - destruct He as [<- | [<- | [<- | []]]].
    + eexists. split; [right; left; reflexivity|]. split; [exact Hc | exact Hd].
    + eexists. split; [left; reflexivity|]. split; [exact Hc | exact Hd].
    + eexists. split; [right; left; reflexivity|]. split; [exact Hc | exact Hd].
Defined.

Lemma contains_explicit lo hi d :
  DateRange_contains (mkDateRange lo hi) d = true <->
  datetime.leb lo d = true /\ datetime.leb d hi = true.
Proof. unfold DateRange_contains. cbn [earliest latest]. apply andb_true_iff. Qed.

Lemma fromordinal_leb o1 o2 :
  1 <= o1 <= datetime._MAXORDINAL -> 1 <= o2 <= datetime._MAXORDINAL ->
  o1 <= o2 ->
  datetime.leb (datetime.fromordinal o1) (datetime.fromordinal o2) = true.
Proof.
  intros H1 H2 H.
  destruct (toordinal_fromordinal o1 H1) as [Hv1 Ho1].
  destruct (toordinal_fromordinal o2 H2) as [Hv2 Ho2].
  rewrite (leb_toordinal _ _ Hv1 Hv2), Ho1, Ho2. apply Z.leb_le. exact H.
Qed.

Lemma due_in_widen ref overdue advance overdue' advance' rng rng' e :
  _make_date_range ref overdue advance = Return rng ->
  _make_date_range ref overdue' advance' = Return rng' ->
  overdue <= overdue' -> advance <= advance' ->
  due_in rng e = true -> due_in rng' e = true.
Proof.
  intros Hrng Hrng' Ho Ha.
  apply make_date_range_inv in Hrng as [Hrep ->].
  apply make_date_range_inv in Hrng' as [Hrep' ->].
  destruct (representable_ordinals _ _ _ Hrep) as [Hlo Hhi].
  destruct (representable_ordinals _ _ _ Hrep') as [Hlo' Hhi'].
  rewrite !due_in_open, !contains_explicit. intros (Hc & H1 & H2).
  split; [exact Hc|]. split.
  - eapply date_leb_trans; [|exact H1].
    apply fromordinal_leb; [assumption | assumption | clear - Ho; lia].
  - eapply date_leb_trans; [exact H2|].
    apply fromordinal_leb; [assumption | assumption | clear - Ha; lia].
Qed.

Lemma due_in_same_start ref overdue advance advance' rng rng' e x :
  _make_date_range ref overdue advance = Return rng ->
  _make_date_range ref overdue advance' = Return rng' ->
  due_in rng' e = true -> datetime.leb (date e) (date x) = true ->
  due_in rng x = true -> due_in rng e = true.
Proof.
  intros Hrng Hrng'.
  apply make_date_range_inv in Hrng as [_ ->].
  apply make_date_range_inv in Hrng' as [_ ->].
  rewrite !due_in_open, !contains_explicit.
  intros (Hc & H1 & _) Hle (_ & _ & H2).
  split; [exact Hc|]. split; [exact H1|].
  eapply date_leb_trans; eassumption.
Qed.

(** X10: widening the window never loses a due date: when a date is
    returned for [overdue] and [advance], one is returned for larger
    counts too (if their window exists), it is not later than the
    first one, and it is the same date when [overdue] is unchanged. *)
Theorem get_due_date_widen (l : list DueDate) (ref : datetime.date)
  (overdue advance overdue' advance' : Z) (x : datetime.date) :
  range_representable ref overdue advance = true ->
  range_representable ref overdue' advance' = true ->
  overdue <= overdue' -> advance <= advance' ->
  get_due_date l ref overdue advance = Return x ->
  exists x',
    get_due_date l ref overdue' advance' = Return x'
    /\ datetime.leb x' x = true
    /\ (overdue' = overdue -> x' = x).
Proof.
  intros Hrep Hrep' Ho Ha Hx.
  destruct (_make_date_range ref overdue advance) as [rng|] eqn:Hrng;
    [|rewrite (make_date_range_representable _ _ _ Hrep) in Hrng; discriminate].
  destruct (_make_date_range ref overdue' advance') as [rng'|] eqn:Hrng';
    [|rewrite (make_date_range_representable _ _ _ Hrep') in Hrng'; discriminate].
  clear Hrep Hrep'.
  destruct (proj1 (get_due_date_returns_iff l _ _ _ rng x Hrng) Hx)
    as [(e & He_in & Hq & Hxe) Hmin].
  pose proof (due_in_widen _ _ _ _ _ _ _ e Hrng Hrng' Ho Ha Hq) as Hq_wide.
  destruct (get_due_date l ref overdue' advance') as [x'|ex] eqn:E'.
  - exists x'. split; [reflexivity|].
    destruct (proj1 (get_due_date_returns_iff l _ _ _ rng' x' Hrng') E')
      as [(e' & He' & Hq' & Hxe') Hmin'].
    pose proof (Hmin' e He_in Hq_wide) as Hle. rewrite Hxe in Hle.
    split; [exact Hle|].
    intros Heq. subst overdue'. apply date_leb_antisym; [exact Hle|].
    rewrite <- Hxe'. apply Hmin; [exact He'|].
    apply (due_in_same_start ref overdue advance advance' rng rng' e' e
             Hrng Hrng' Hq'); [|exact Hq].
    rewrite Hxe, Hxe'. exact Hle.
  - exfalso.
    destruct (proj1 (get_due_date_raises_iff l _ _ _ rng' ex Hrng') E')
      as [_ Hnone].
    rewrite (Hnone e He_in) in Hq_wide. discriminate.
Qed.

(** X10 at a window widened on both sides, which then reaches an earlier entry. *)
Lemma get_due_date_widen_witness :
  exists x',
    get_due_date
      [mkDueDate (datetime.Date 2022 3 10) false;
       mkDueDate (datetime.Date 2022 3 5) false]
      (datetime.Date 2022 3 12) 10 5 = Return x'
    /\ datetime.leb x' (datetime.Date 2022 3 10) = true
    /\ (10 = 3 -> x' = datetime.Date 2022 3 10).
Proof.
  apply (get_due_date_widen
           [mkDueDate (datetime.Date 2022 3 10) false;
            mkDueDate (datetime.Date 2022 3 5) false]
           (datetime.Date 2022 3 12) 3 0 10 5 (datetime.Date 2022 3 10));
    try reflexivity; lia.
Defined.

(** X11: when [overdue + advance] is negative the window holds no date at
    all, and [get_due_date] raises [NoDueDateFound] whatever the list
    is. *)
Theorem get_due_date_empty_window (l : list DueDate) (ref : datetime.date)
  (overdue advance : Z) :
  range_representable ref overdue advance = true ->
  overdue + advance < 0 ->
  exists rng,
    get_due_date l ref overdue advance = Raise (NoDueDateFound rng l)
    /\ forall d, datetime.leb (fst rng) d && datetime.leb d (snd rng) = false.
Proof.
  intros Hrep Hneg.
  pose proof (make_date_range_representable _ _ _ Hrep) as Hrng.
  destruct (representable_ordinals _ _ _ Hrep) as [Hlo Hhi].
  destruct (toordinal_fromordinal _ Hlo) as [Hv1 Ho1].
  destruct (toordinal_fromordinal _ Hhi) as [Hv2 Ho2].
  assert (Hempty : forall d,
            datetime.leb (datetime.fromordinal (datetime.toordinal ref - overdue)) d
            && datetime.leb d (datetime.fromordinal (datetime.toordinal ref + advance))
            = false).
  { intros d. apply not_true_is_false. intros H.
    apply andb_true_iff in H as [H1 H2].
    pose proof (date_leb_trans _ _ _ H1 H2) as H.
    rewrite (leb_toordinal _ _ Hv1 Hv2), Ho1, Ho2 in H.
    apply Z.leb_le in H. clear - H Hneg. lia. }
  eexists. split.
  - apply (get_due_date_raises_iff l _ _ _ _ _ Hrng). split; [reflexivity|].
    intros e _. unfold due_in, DateRange_contains. cbn [earliest latest].
    rewrite Hempty. apply andb_false_r.
  - cbn [earliest latest fst snd]. exact Hempty.
Qed.

(** X11 at an entry on the reference date itself. *)
Lemma get_due_date_empty_window_witness :
  exists rng,
    get_due_date [mkDueDate (datetime.Date 2022 3 12) false]
                 (datetime.Date 2022 3 12) (-2) 1
    = Raise (NoDueDateFound rng [mkDueDate (datetime.Date 2022 3 12) false])
    /\ forall d, datetime.leb (fst rng) d && datetime.leb d (snd rng) = false.
Proof.
  apply (get_due_date_empty_window
           [mkDueDate (datetime.Date 2022 3 12) false]
           (datetime.Date 2022 3 12) (-2) 1); [reflexivity | lia].
Defined.

(** ** File names and the report line *)

Lemma last_sep_unique sep (a b x y : str) :
  a ++ sep :: x = b ++ sep :: y ->
  contains sep x = false -> contains sep y = false -> x = y.
Proof.
  intros H Hx Hy. revert b H.
  induction a as [|a0 a IH]; intros [|b0 b] H; cbn [app] in H.
  - inversion H. reflexivity.
  - inversion H; subst. exfalso.
    unfold contains in Hx. rewrite existsb_app in Hx. cbn [existsb] in Hx.
    rewrite char_eqb_refl, orb_true_r in Hx. discriminate.
  - inversion H; subst. exfalso.
    unfold contains in Hy. rewrite existsb_app in Hy. cbn [existsb] in Hy.
    rewrite char_eqb_refl, orb_true_r in Hy. discriminate.
  - inversion H; subst. eapply IH. eassumption.
Qed.

Lemma contains_app_sep sep (a x : str) : contains sep (a ++ sep :: x) = true.
Proof.
  unfold contains. rewrite existsb_app. cbn [existsb].
  rewrite char_eqb_refl, orb_true_r. reflexivity.
Qed.

Lemma excise_join dir name :
  contains slash name = false -> _excise_filestem (dir ++ slash :: name) = name.
Proof.
  intros Hn. unfold _excise_filestem. rewrite contains_app_sep.
  destruct (split_spec slash (dir ++ slash :: name)) as (_ & H2 & H3).
  destruct (H2 (contains_app_sep _ _ _)) as (pre & w & ws & Hs & _).
  symmetry. eapply last_sep_unique; eassumption.
Qed.

Lemma excise_no_slash filename :
  contains slash (_excise_filestem filename) = false.
Proof.
  unfold _excise_filestem.
  destruct (contains slash filename) eqn:E; [|exact E].
  apply (split_spec slash filename).
Qed.

(** X12: the result of [_excise_filestem] holds no slash, is an end piece
    of the file name and is left alone by a second call; a directory
    and a slash before a name without slash are removed; and a file
    name that ends in a slash gives the empty string. *)
Theorem excise_filestem_properties (filename : str) :
  contains slash (_excise_filestem filename) = false
  /\ _excise_filestem (_excise_filestem filename) = _excise_filestem filename
  /\ (exists dir, filename = dir ++ _excise_filestem filename)
  /\ (forall dir name,
        contains slash name = false ->
        _excise_filestem (dir ++ slash :: name) = name)
  /\ (forall dir, _excise_filestem (dir ++ [slash]) = []).
Proof.
  split; [apply excise_no_slash|]. split; [|split; [|split]].
  - unfold _excise_filestem at 1. rewrite excise_no_slash. reflexivity.
  - destruct (excise_filestem_basename filename) as [[_ ->] | (pre & Hf & _)].
    + exists []. reflexivity.
    + exists (pre ++ [slash]). rewrite <- app_assoc. exact Hf.
  - apply excise_join.
  - intros dir. apply (excise_join dir []). reflexivity.
Qed.

(** X12 at an absolute path. *)
Lemma excise_filestem_properties_witness :
  _excise_filestem (py "/home/me/notes" ++ slash :: py "garden.md")
  = py "garden.md".
Proof.
  apply (proj1 (proj2 (proj2 (proj2
           (excise_filestem_properties (py "garden.md")))))).
  reflexivity.
Defined.

(** X13: the line that [get_due_str] makes for a calendar date can be
    read back: it starts with [DUE : ], the next ten characters parse
    to the date, then comes [ : ] and the rest is the base name; so
    two such lines are equal only for the same date and the same base
    name. *)
Theorem get_due_str_decode (due_date : datetime.date) (filename : str) :
  datetime.valid due_date = true ->
  let s := get_due_str due_date filename in
  firstn 6 s = py "DUE : "
  /\ datetime.parse_iso (firstn 10 (skipn 6 s)) = Some due_date
  /\ firstn 3 (skipn 16 s) = py " : "
  /\ skipn 19 s = _excise_filestem filename
  /\ forall d' filename',
       datetime.valid d' = true ->
       get_due_str d' filename' = s ->
       d' = due_date
       /\ _excise_filestem filename' = _excise_filestem filename.
Proof.
  intros Hv s.
  assert (Hparts : forall d f, datetime.valid d = true ->
            datetime.parse_iso (firstn 10 (skipn 6 (get_due_str d f))) = Some d
            /\ skipn 19 (get_due_str d f) = _excise_filestem f).
  { intros d f Hd. destruct (parse_iso_isoformat d Hd) as [_ Hp].
    unfold get_due_str, datetime.isoformat in *. cbn [py list_ascii_of_string app].
    cbn [skipn firstn]. split; [exact Hp | reflexivity]. }
  destruct (Hparts due_date filename Hv) as [Hp Hs].
  split; [reflexivity|]. split; [exact Hp|]. split; [reflexivity|].
  split; [exact Hs|].
  intros d' f' Hv' Heq. destruct (Hparts d' f' Hv') as [Hp' Hs'].
  fold s in Hp, Hs. rewrite Heq in Hp', Hs'. split; congruence.
Qed.

(** X13 at a file in a directory. *)
Lemma get_due_str_decode_witness :
  datetime.parse_iso
    (firstn 10 (skipn 6 (get_due_str (datetime.Date 2022 3 15)
                                     (py "notes/plan.md"))))
  = Some (datetime.Date 2022 3 15).
Proof.
  exact (proj1 (proj2 (get_due_str_decode (datetime.Date 2022 3 15)
                         (py "notes/plan.md") eq_refl))).
Defined.

(** ** The line limit *)

(** X14: for positive limits that fit [sys.maxsize], limiting a
    stream twice is limiting it to the smaller of the two limits, and
    limiting again by the same limit changes nothing; a limit that is
    not below the length of the stream changes nothing; a positive
    limit is never exceeded; and a limit above [sys.maxsize] raises
    [OverflowError] whatever the stream. *)
Theorem limit_stream_compose {A : Type} (stream : list A) (n m : Z) :
  (0 < n <= sys.maxsize -> 0 < m <= sys.maxsize ->
   (do limited <- _limit_stream stream n; _limit_stream limited m)
   = _limit_stream stream (Z.min n m))
  /\ (0 < n <= sys.maxsize ->
      (do limited <- _limit_stream stream n; _limit_stream limited n)
      = _limit_stream stream n)
  /\ (Z.of_nat (length stream) <= n <= sys.maxsize ->
      _limit_stream stream n = Return stream)
  /\ (forall limited,
        0 < n -> _limit_stream stream n = Return limited ->
        Z.of_nat (length limited) <= n)
  /\ (sys.maxsize < n -> _limit_stream stream n = Raise OverflowError).
Proof.
  assert (Hc : forall a b,
            0 < a <= sys.maxsize -> 0 < b <= sys.maxsize ->
            (do limited <- _limit_stream stream a; _limit_stream limited b)
            = _limit_stream stream (Z.min a b)).
  { intros a b Ha Hb.
    rewrite (limit_stream_positive stream a Ha). cbn [obind].
    rewrite !limit_stream_positive by lia. unfold take_first.
    rewrite firstn_firstn, Z2Nat.inj_min, Nat.min_comm. reflexivity. }
  split; [apply Hc|]. split; [|split; [|split]].
  - intros Hn. rewrite Hc by assumption. rewrite Z.min_id. reflexivity.
  - intros Hlen. destruct (Z.leb_spec n 0) as [Hn | Hn].
    + apply limit_stream_nonpositive. exact Hn.
    + rewrite limit_stream_positive by lia. unfold take_first.
      f_equal. apply firstn_all2. lia.
  - intros limited Hn H. destruct (Z.ltb_spec sys.maxsize n) as [Hm | Hm].
    + rewrite (limit_stream_overflow stream n Hm) in H. discriminate.
    + rewrite limit_stream_positive in H by lia. inversion H.
      unfold take_first. rewrite length_firstn. lia.
  - apply limit_stream_overflow.
Qed.

(** X14 at five lines limited to four and then to two. *)
Lemma limit_stream_compose_witness :
  (do limited <- _limit_stream [1; 2; 3; 4; 5] 4; _limit_stream limited 2)
  = _limit_stream [1; 2; 3; 4; 5] (Z.min 4 2).
Proof.
  apply (proj1 (limit_stream_compose [1; 2; 3; 4; 5] 4 2));
    change sys.maxsize with 9223372036854775807; lia.
Defined.

Lemma takewhile_firstn_block {A : Type} (q : A -> bool) block rest :
  forallb q block = true ->
  match rest with [] => True | x :: _ => q x = false end ->
  forall k, itertools.takewhile q (firstn k (block ++ rest)) = firstn k block.
Proof.
  intros Hb Hr. induction block as [|b bs IH]; intros k.
  - cbn [app]. rewrite firstn_nil.
    destruct k as [|k]; [reflexivity|]. destruct rest as [|x r]; [reflexivity|].
    cbn [firstn itertools.takewhile]. rewrite Hr. reflexivity.
  - cbn [forallb] in Hb. apply andb_true_iff in Hb as [Hb1 Hb2].
    destruct k as [|k]; [reflexivity|].
    cbn [app firstn itertools.takewhile]. rewrite Hb1. f_equal. apply IH. exact Hb2.
Qed.

Lemma firstn_past_prefix {A : Type} (pre : list A) m tail k :
  firstn (length pre + S k) (pre ++ m :: tail) = pre ++ m :: firstn k tail.
Proof.
  rewrite firstn_app, firstn_all2 by lia.
  replace (length pre + S k - length pre)%nat with (S k) by lia. reflexivity.
Qed.

Lemma find_dateblock_limit_at stream pre marker block rest n :
  dateblock_at stream pre marker block rest ->
  Z.of_nat (length pre) < n ->
  find_dateblock (take_first n stream) =
  match firstn (Z.to_nat n - S (length pre)) block with
  | [] => Raise DateblockNotFound
  | kept => Return (map _strip_trailing_newline kept)
  end.
Proof.
  intros (Hs & Hpre & Hm & Hb & Hr) Hn. unfold take_first.
  set (k := (Z.to_nat n - S (length pre))%nat).
  replace (Z.to_nat n) with (length pre + S k)%nat by (unfold k; lia).
  rewrite Hs, firstn_past_prefix. unfold find_dateblock, _droptake.
  rewrite dropwhile_at by assumption. unfold itertools.islice. cbn [skipn].
  rewrite ?skipn_O, takewhile_firstn_block by assumption.
  destruct (firstn k block); reflexivity.
Qed.

Lemma find_dateblock_limit_covering stream pre marker block rest n :
  dateblock_at stream pre marker block rest ->
  n <= 0 \/ Z.of_nat (length pre + 1 + length block) <= n <= sys.maxsize ->
  exists limited,
    _limit_stream stream n = Return limited
    /\ find_dateblock limited = find_dateblock stream.
Proof.
  intros Hat [Hn | Hn].
  - exists stream. split; [apply limit_stream_nonpositive; exact Hn | reflexivity].
  - exists (take_first n stream).
    split; [apply limit_stream_positive; lia|].
    rewrite (find_dateblock_limit_at _ _ _ _ _ _ Hat) by lia.
    rewrite (find_dateblock_at _ _ _ _ _ Hat).
    rewrite firstn_all2 by lia. destruct block; reflexivity.
Qed.

(** X15: behind a line limit that fits [sys.maxsize] and reaches past
    the first marker, the extractor returns the entries of the block
    that lie within the limit; it raises [DateblockNotFound] when the
    marker is the last line within the limit; and it returns what it
    returns without a limit once the limit covers the block. *)
Theorem find_dateblock_limited (stream pre : list str) (marker : str)
  (block rest : list str) (n : Z) :
  dateblock_at stream pre marker block rest ->
  Z.of_nat (length pre) < n <= sys.maxsize ->
  exists limited,
    _limit_stream stream n = Return limited
    /\ find_dateblock limited =
       match firstn (Z.to_nat n - S (length pre)) block with
       | [] => Raise DateblockNotFound
       | kept => Return (map _strip_trailing_newline kept)
       end
    /\ (Z.of_nat (length pre + 1 + length block) <= n ->
        find_dateblock limited = find_dateblock stream)
    /\ (Z.to_nat n <= S (length pre) ->
        find_dateblock limited = Raise DateblockNotFound)%nat.
Proof.
  intros Hat Hn. exists (take_first n stream).
  assert (Hlim := find_dateblock_limit_at _ _ _ _ _ _ Hat (proj1 Hn)).
  split; [apply limit_stream_positive; lia|].
  split; [exact Hlim|]. split.
  - intros Hcover. rewrite Hlim, (find_dateblock_at _ _ _ _ _ Hat).
    rewrite firstn_all2 by lia. destruct block; reflexivity.
  - intros Hshort. rewrite Hlim.
    replace (Z.to_nat n - S (length pre))%nat with 0%nat by lia.
    reflexivity.
Qed.

(** X15 at a block of three entries cut after the second. *)
Lemma find_dateblock_limited_witness :
  let stream := [py "Title"; py "rsf:"; py "- 2022-03-10"; py "- 2022-03-15";
                 py "- 2022-03-20"; py "End"] in
  exists limited,
    _limit_stream stream 4 = Return limited
    /\ find_dateblock limited
       = Return [py "- 2022-03-10"; py "- 2022-03-15"].
Proof.
  intros stream.
  destruct (find_dateblock_limited stream [py "Title"] (py "rsf:")
              [py "- 2022-03-10"; py "- 2022-03-15"; py "- 2022-03-20"]
              [py "End"] 4) as (limited & H0 & H1 & _).
  - repeat split; vm_compute; reflexivity.
  - change sys.maxsize with 9223372036854775807. cbn [length]. lia.
  - exists limited. split; [exact H0 | exact H1].
Defined.

(** ** The chain of binds *)

Lemma bind_all_app {S : Type} (fs1 fs2 : list (Any -> M S Any)) :
  forall r s,
    bind_all r (fs1 ++ fs2) s
    = mbind (bind_all r fs1) (fun r' => bind_all r' fs2) s.
Proof.
  induction fs1 as [|f fs IH]; intros r s; [reflexivity|].
  cbn [app bind_all]. unfold mbind at 1 2 3.
  destruct (bind r f s) as [[r'|e] s']; [apply IH | reflexivity].
Qed.

Lemma bind_well_formed {S : Type} (f : Any -> M S Any) r s r' s' :
  well_formed r -> bind r f s = (Return r', s') -> well_formed r'.
Proof.
  intros Hr. unfold bind. destruct (success r) eqn:Es; cbn [negb].
  - destruct (f (value r) s) as [[v|e] s2].
    + intros H. inversion H. intros Hf. discriminate.
    + destruct (is_RsfException e) eqn:Ee; [|discriminate].
      intros H. inversion H. intros _. exists e. split; [reflexivity | exact Ee].
  - intros H. inversion H; subst. exact Hr.
Qed.

Lemma bind_success {S : Type} (f : Any -> M S Any) r s r' s' :
  bind r f s = (Return r', s') -> success r' = true -> success r = true.
Proof.
  unfold bind. destruct (success r) eqn:Es; cbn [negb]; [reflexivity|].
  intros H. inversion H; subst. congruence.
Qed.

(** X16: laws of a chain of binds: the chain over [fs1 ++ fs2] is the
    chain over [fs1] followed by the chain over [fs2] on its result;
    a failed result of a chain holds one of the module's exceptions
    when the starting result is well formed; a chain that ends in
    success started from success; and an exception that is not one of
    the module's escapes the bind and the whole chain, the later
    stages not being run. *)
Theorem bind_chain_laws (S : Type) (r : MaybeResult) (s : S) :
  (forall fs1 fs2,
     bind_all r (fs1 ++ fs2) s
     = mbind (bind_all r fs1) (fun r' => bind_all r' fs2) s)
  /\ (forall fs r' s',
        well_formed r -> bind_all r fs s = (Return r', s') -> well_formed r')
  /\ (forall fs r' s',
        bind_all r fs s = (Return r', s') -> success r' = true ->
        success r = true)
  /\ (forall f fs e s',
        success r = true -> f (value r) s = (Raise e, s') ->
        is_RsfException e = false ->
        bind r f s = (Raise e, s') /\ bind_all r (f :: fs) s = (Raise e, s')).
Proof.
  split; [intros fs1 fs2; apply bind_all_app|].
  split; [|split].
  - intros fs. revert r s. induction fs as [|f fs IH]; intros r s r' s' Hr.
    + cbn [bind_all]. unfold mret. intros H. inversion H; subst. exact Hr.
    + cbn [bind_all]. unfold mbind.
      destruct (bind r f s) as [[r1|e] s1] eqn:Eb; [|discriminate].
      apply IH. eapply bind_well_formed; eassumption.
  - intros fs. revert r s. induction fs as [|f fs IH]; intros r s r' s'.
    + cbn [bind_all]. unfold mret. intros H. inversion H; subst. auto.
    + cbn [bind_all]. unfold mbind.
      destruct (bind r f s) as [[r1|e] s1] eqn:Eb; [|discriminate].
      intros H Hs. eapply bind_success; [exact Eb|]. eapply IH; eassumption.
  - intros f fs e s' Hs Hf He.
    assert (Hb : bind r f s = (Raise e, s'))
      by (rewrite (bind_raises r f s e s' Hs Hf), He; reflexivity).
    split; [exact Hb|]. cbn [bind_all]. unfold mbind. rewrite Hb. reflexivity.
Qed.

(** X16 at the first two stages of the pipeline on an empty file. *)
Lemma bind_chain_laws_witness :
  well_formed (_new (AExc DateblockNotFound) false)
  /\ bind_all (_new (ALines []) true)
       [pure_stage find_dateblock_stage;
        pure_stage _duedateblock_from_strdateblock_stage] tt
     = (Return (_new (AExc DateblockNotFound) false), tt).
Proof.
  assert (H : bind_all (_new (ALines []) true)
                [pure_stage find_dateblock_stage;
                 pure_stage _duedateblock_from_strdateblock_stage] tt
              = (Return (_new (AExc DateblockNotFound) false), tt))
    by reflexivity.
  split; [|exact H].
  refine (proj1 (proj2 (bind_chain_laws unit (_new (ALines []) true) tt))
            _ _ tt _ H).
  intros Hf. discriminate.
Defined.

(** ** The report of one file *)

Lemma find_dateblock_raises stream e :
  find_dateblock stream = Raise e -> e = DateblockNotFound.
Proof.
  unfold find_dateblock.
  destruct (length _ =? 0)%nat; intros H; inversion H; reflexivity.
Qed.

Lemma get_due_date_raise_cases l ref overdue advance ex :
  get_due_date l ref overdue advance = Raise ex ->
  ex = OverflowError
  \/ exists rng, _make_date_range ref overdue advance = Return rng
                 /\ ex = NoDueDateFound (earliest rng, latest rng) l.
Proof.
  intros H. destruct (_make_date_range ref overdue advance) as [rng|e] eqn:E.
  - right. exists rng. split; [reflexivity|].
    apply (get_due_date_raises_iff l ref overdue advance rng ex E) in H.
    apply H.
  - left. unfold get_due_date in H. rewrite E in H. cbn [obind] in H.
    inversion H; subst. eapply make_date_range_raises. exact E.
Qed.

Lemma get_due_date_return_in_window l ref overdue advance d :
  get_due_date l ref overdue advance = Return d ->
  exists rng, _make_date_range ref overdue advance = Return rng
              /\ DateRange_contains rng d = true
              /\ exists e, In e l /\ completed e = false /\ date e = d.
Proof.
  intros H. destruct (_make_date_range ref overdue advance) as [rng|e] eqn:E.
  - exists rng. split; [reflexivity|].
    apply (get_due_date_returns_iff l ref overdue advance rng d E) in H.
    destruct H as [(e & He & Hq & <-) _].
    apply due_in_open in Hq as [Hc Hin]. split; [exact Hin|].
    exists e. auto.
  - unfold get_due_date in H. rewrite E in H. discriminate.
Qed.

Lemma stages_cases stream_ filename ref overdue advance :
  (exists d rng,
     stages stream_ filename ref overdue advance
     = Return (get_due_str d filename)
     /\ datetime.valid d = true
     /\ _make_date_range ref overdue advance = Return rng
     /\ DateRange_contains rng d = true)
  \/ stages stream_ filename ref overdue advance = Raise DateblockNotFound
  \/ (exists rng dues,
        stages stream_ filename ref overdue advance
        = Raise (NoDueDateFound rng dues))
  \/ stages stream_ filename ref overdue advance = Raise ValueError
  \/ stages stream_ filename ref overdue advance = Raise OverflowError.
Proof.
  unfold stages.
  destruct (find_dateblock stream_) as [db|e] eqn:E1; cbn [obind].
  2:{ right; left. apply find_dateblock_raises in E1. subst. reflexivity. }
  destruct (_duedateblock_from_strdateblock db) as [dues|e] eqn:E2; cbn [obind].
  2:{ right; right; right; left.
      rewrite (parse_block_raises _ _ _ E1 E2). reflexivity. }
  destruct (get_due_date dues ref overdue advance) as [d|e] eqn:E3; cbn [obind].
  - left. destruct (get_due_date_return_in_window _ _ _ _ _ E3)
      as (rng & Hr & Hin & x & Hx & _ & Hd).
    exists d, rng. split; [reflexivity|].
    split; [rewrite <- Hd; eapply duedateblock_valid; eassumption|].
    split; assumption.
  - destruct (get_due_date_raise_cases _ _ _ _ _ E3) as [-> | (rng & _ & ->)].
    + right; right; right; right. reflexivity.
    + right; right; left. eauto.
Qed.

Lemma get_duestr_from_file_stages stream filename ref overdue advance b limit :
  get_duestr_from_file stream filename ref overdue advance b limit =
  do stream_ <- _limit_stream stream limit;
  match stages stream_ filename ref overdue advance with
  | Return s => Return (AStr s)
  | Raise e =>
      if is_RsfException e
      then Return (AStr (if b then exn_name e ++ py " : "
                                   ++ _excise_filestem filename
                         else []))
      else Raise e
  end.
Proof.
  unfold get_duestr_from_file.
  destruct (_limit_stream stream limit) as [stream_|e]; [|reflexivity].
  cbn [obind]. rewrite pipeline_stages.
  destruct (stages stream_ filename ref overdue advance) as [s|e];
    [reflexivity|].
  destruct (is_RsfException e); [|reflexivity].
  cbn [obind success value type_name]. destruct b; reflexivity.
Qed.

(** X17: whatever [get_duestr_from_file] returns is one of four
    things: a [DUE] line whose date is a calendar date inside the
    window; the line [DateblockNotFound : base] or the line
    [NoDueDateFound : base], and these only when the flag is set; or
    the empty string, and this only when the flag is not set.  So no
    line it returns names a [StringParsingError]. *)
Theorem get_duestr_from_file_outcomes (stream : list str) (filename : str)
  (reference : datetime.date) (overdue advance : Z) (return_nodues : bool)
  (limit : Z) (v : Any) :
  get_duestr_from_file stream filename reference overdue advance
                       return_nodues limit = Return v ->
  let base := _excise_filestem filename in
  (exists d rng,
     v = AStr (py "DUE : " ++ datetime.isoformat d ++ py " : " ++ base)
     /\ datetime.valid d = true
     /\ _make_date_range reference overdue advance = Return rng
     /\ DateRange_contains rng d = true)
  \/ (return_nodues = true /\ v = AStr (py "DateblockNotFound : " ++ base))
  \/ (return_nodues = true /\ v = AStr (py "NoDueDateFound : " ++ base))
  \/ (return_nodues = false /\ v = AStr []).
Proof.
  rewrite get_duestr_from_file_stages.
  destruct (_limit_stream stream limit) as [stream_|e]; [|discriminate].
  cbn [obind].
  destruct (stages_cases stream_ filename reference overdue advance)
    as [(d & rng & -> & Hv & Hr & Hin) | [-> | [(rng & dues & ->) | [-> | ->]]]];
    cbn [is_RsfException exn_name]; try discriminate;
    intros H; cbv zeta; inversion H; subst v.
  - left. exists d, rng. repeat split; assumption.
  - destruct return_nodues; [right; left | right; right; right];
      split; reflexivity.
  - destruct return_nodues; [right; right; left | right; right; right];
      split; reflexivity.
Qed.

(** X17 at a file whose only entry is out of the window, without the
    flag. *)
Lemma get_duestr_from_file_outcomes_witness :
  (exists d rng,
     AStr [] = AStr (py "DUE : " ++ datetime.isoformat d ++ py " : "
                     ++ _excise_filestem (py "plan.md"))
     /\ datetime.valid d = true
     /\ _make_date_range (datetime.Date 2022 3 16) 3 0 = Return rng
     /\ DateRange_contains rng d = true)
  \/ (false = true
      /\ AStr [] = AStr (py "DateblockNotFound : "
                         ++ _excise_filestem (py "plan.md")))
  \/ (false = true
      /\ AStr [] = AStr (py "NoDueDateFound : "
                         ++ _excise_filestem (py "plan.md")))
  \/ (false = false /\ AStr [] = AStr []).
Proof.
  exact (get_duestr_from_file_outcomes [py "rsf:"; py "- 2022-01-15"]
           (py "plan.md") (datetime.Date 2022 3 16) 3 0 false 0 (AStr [])
           eq_refl).
Defined.

Lemma stages_basename stream_ f1 f2 ref overdue advance :
  _excise_filestem f1 = _excise_filestem f2 ->
  stages stream_ f1 ref overdue advance = stages stream_ f2 ref overdue advance.
Proof.
  intros H. unfold stages, get_due_str. rewrite H. reflexivity.
Qed.

Lemma limit_stream_covering {A : Type} (stream : list A) limit :
  limit <= 0 \/ Z.of_nat (length stream) <= limit <= sys.maxsize ->
  _limit_stream stream limit = Return stream.
Proof.
  intros [H | H]; [apply limit_stream_nonpositive; exact H|].
  destruct (Z.leb_spec limit 0) as [Hn | Hn].
  - apply limit_stream_nonpositive. exact Hn.
  - rewrite limit_stream_positive by lia. unfold take_first.
    f_equal. apply firstn_all2. lia.
Qed.

(** X18: what the report of a file does not depend on: the file name
    matters only through its base name, so the directory does not; a
    limit that covers the whole file and fits [sys.maxsize] acts as no
    limit; and the flag changes neither the exception raised nor a
    line that is not empty. *)
Theorem get_duestr_from_file_invariance (stream : list str) (filename : str)
  (reference : datetime.date) (overdue advance : Z) (limit : Z) :
  let report := get_duestr_from_file stream in
  (forall filename' return_nodues,
     _excise_filestem filename' = _excise_filestem filename ->
     report filename' reference overdue advance return_nodues limit
     = report filename reference overdue advance return_nodues limit)
  /\ (forall dir return_nodues,
        contains slash filename = false ->
        report (dir ++ slash :: filename) reference overdue advance
               return_nodues limit
        = report filename reference overdue advance return_nodues limit)
  /\ (forall return_nodues,
        limit <= 0 \/ Z.of_nat (length stream) <= limit <= sys.maxsize ->
        report filename reference overdue advance return_nodues limit
        = report filename reference overdue advance return_nodues 0)
  /\ (forall e,
        report filename reference overdue advance true limit = Raise e <->
        report filename reference overdue advance false limit = Raise e)
  /\ (forall v,
        report filename reference overdue advance false limit = Return v ->
        v = AStr []
        \/ report filename reference overdue advance true limit = Return v).
Proof.
  intros report.
  assert (Hbase : forall f' b,
            _excise_filestem f' = _excise_filestem filename ->
            report f' reference overdue advance b limit
            = report filename reference overdue advance b limit).
  { intros f' b H. unfold report. rewrite !get_duestr_from_file_stages.
    destruct (_limit_stream stream limit) as [stream_|e]; [|reflexivity].
    cbn [obind]. rewrite (stages_basename _ f' filename) by exact H.
    rewrite H. reflexivity. }
  split; [exact Hbase|]. split; [|split; [|split]].
  - intros dir b Hns. apply Hbase.
    rewrite (excise_join dir filename Hns).
    unfold _excise_filestem. rewrite Hns. reflexivity.
  - intros b Hcov. unfold report. rewrite !get_duestr_from_file_stages.
    rewrite (limit_stream_covering stream limit Hcov).
    rewrite (limit_stream_nonpositive stream 0) by lia. reflexivity.
  - intros e. unfold report. rewrite !get_duestr_from_file_stages.
    destruct (_limit_stream stream limit) as [stream_|e0]; [|reflexivity].
    cbn [obind].
    destruct (stages _ _ _ _ _) as [s|ex]; [split; discriminate|].
    destruct (is_RsfException ex); [split; discriminate | reflexivity].
  - intros v. unfold report. rewrite !get_duestr_from_file_stages.
    destruct (_limit_stream stream limit) as [stream_|e0]; [|discriminate].
    cbn [obind].
    destruct (stages _ _ _ _ _) as [s|ex].
    + intros H. right. exact H.
    + destruct (is_RsfException ex).
      * intros H. inversion H. left. reflexivity.
      * discriminate.
Qed.

(** X18 at a file named with and without its directory. *)
Lemma get_duestr_from_file_invariance_witness :
  get_duestr_from_file [py "rsf:"; py "- 2022-03-15"]
    (py "notes/plan.md") (datetime.Date 2022 3 16) 3 0 true 0
  = get_duestr_from_file [py "rsf:"; py "- 2022-03-15"]
      (py "plan.md") (datetime.Date 2022 3 16) 3 0 true 0.
Proof.
  apply (proj1 (proj2 (get_duestr_from_file_invariance
                         [py "rsf:"; py "- 2022-03-15"] (py "plan.md")
                         (datetime.Date 2022 3 16) 3 0 0))
           (py "notes") true).
  reflexivity.
Defined.

(** ** The command-line driver *)

Lemma str_ltb_asym a b : str_ltb a b = true -> str_ltb b a = false.
Proof.
  revert b. induction a as [|x a IH]; intros [|y b]; cbn [str_ltb];
    try discriminate; try reflexivity.
  destruct (Z.ltb_spec (ord x) (ord y)), (Z.ltb_spec (ord y) (ord x));
    try discriminate; try reflexivity; try lia.
  apply IH.
Qed.

Lemma str_nlt_trans a b c :
  nlt str_ltb a b -> nlt str_ltb b c -> nlt str_ltb a c.
Proof.
  unfold nlt. revert b c.
  induction a as [|x a IH]; intros [|y b] [|z c]; cbn [str_ltb];
    try discriminate; try reflexivity.
  destruct (Z.ltb_spec (ord y) (ord x)), (Z.ltb_spec (ord x) (ord y)),
    (Z.ltb_spec (ord z) (ord y)), (Z.ltb_spec (ord y) (ord z)),
    (Z.ltb_spec (ord z) (ord x)), (Z.ltb_spec (ord x) (ord z));
    try discriminate; try reflexivity; try lia.
  apply IH.
Qed.

Lemma StronglySorted_snoc {A : Type} (R : A -> A -> Prop) l x :
  StronglySorted R l -> List.Forall (fun y => R y x) l ->
  StronglySorted R (l ++ [x]).
Proof.
  induction 1 as [|y l Hs IH Hy]; intros Hx; cbn [app].
  - constructor; constructor.
  - inversion Hx; subst. constructor; [apply IH; assumption|].
    apply List.Forall_app. split; [exact Hy|]. constructor; [assumption|constructor].
Qed.

Lemma StronglySorted_rev {A : Type} (R : A -> A -> Prop) l :
  StronglySorted R l -> StronglySorted (fun a b => R b a) (rev l).
Proof.
  induction 1 as [|y l Hs IH Hy]; cbn [rev]; [constructor|].
  apply StronglySorted_snoc; [exact IH|].
  rewrite List.Forall_forall in *. intros z Hz. apply Hy.
  apply in_rev. exact Hz.
Qed.

Lemma sort_reverse_perm {A : Type} (lt : A -> A -> bool) l :
  Permutation (sort_reverse lt l) l.
Proof.
  unfold sort_reverse. rewrite <- Permutation_rev, sorted_perm.
  symmetry. apply Permutation_rev.
Qed.

Lemma files_read_descending glob_md glob_txt include_txt :
  StronglySorted (fun a b => str_ltb a b = false)
    (files_read glob_md glob_txt include_txt).
Proof.
  unfold files_read, sort_reverse.
  apply (StronglySorted_rev (nlt str_ltb)).
  apply sorted_sorted; [exact str_ltb_asym | exact str_nlt_trans].
Qed.

Lemma resurface_unfold read glob_md glob_txt reference ref overdue advance
  verbose include_txt limit :
  datetime.parse_iso reference = Some ref ->
  resurface read glob_md glob_txt reference overdue advance verbose
            include_txt limit
  = do results <-
      omap (fun filename =>
              get_duestr_from_file (read filename) filename ref overdue
                                   advance verbose limit)
           (files_read glob_md glob_txt include_txt);
    Return (List.filter is_not_empty_str results).
Proof.
  intros H. unfold resurface, fromisoformat. rewrite H. reflexivity.
Qed.

Lemma report_cases stream filename ref overdue advance limit :
  (exists s,
     is_due_line (AStr s) = true
     /\ forall b, get_duestr_from_file stream filename ref overdue advance b
                                       limit = Return (AStr s))
  \/ (exists s,
        is_due_line (AStr s) = false /\ s <> []
        /\ forall b, get_duestr_from_file stream filename ref overdue advance
                                          b limit
                     = Return (AStr (if b then s else [])))
  \/ (exists e,
        (e = ValueError \/ e = OverflowError)
        /\ forall b, get_duestr_from_file stream filename ref overdue advance
                                          b limit = Raise e).
Proof.
  destruct (_limit_stream stream limit) as [stream_|e0] eqn:El.
  - destruct (stages_cases stream_ filename ref overdue advance)
      as [(d & rng & Hs & _) | [Hs | [(rng & dues & Hs) | [Hs | Hs]]]].
    + left. exists (get_due_str d filename). split; [reflexivity|].
      intros b. rewrite get_duestr_from_file_stages, El. cbn [obind].
      rewrite Hs. reflexivity.
    + right; left.
      exists (py "DateblockNotFound : " ++ _excise_filestem filename).
      split; [reflexivity|]. split; [discriminate|].
      intros b. rewrite get_duestr_from_file_stages, El. cbn [obind].
      rewrite Hs. reflexivity.
    + right; left.
      exists (py "NoDueDateFound : " ++ _excise_filestem filename).
      split; [reflexivity|]. split; [discriminate|].
      intros b. rewrite get_duestr_from_file_stages, El. cbn [obind].
      rewrite Hs. reflexivity.
    + right; right. exists ValueError. split; [left; reflexivity|].
      intros b. rewrite get_duestr_from_file_stages, El. cbn [obind].
      rewrite Hs. reflexivity.
    + right; right. exists OverflowError. split; [right; reflexivity|].
      intros b. rewrite get_duestr_from_file_stages, El. cbn [obind].
      rewrite Hs. reflexivity.
  - right; right. exists e0. split.
    + right. destruct (Z.ltb_spec sys.maxsize limit) as [Hm | Hm].
      * rewrite (limit_stream_overflow stream limit Hm) in El.
        inversion El. reflexivity.
      * destruct (Z.leb_spec limit 0) as [Hn | Hn].
        -- rewrite (limit_stream_nonpositive stream limit Hn) in El.
           discriminate.
        -- rewrite limit_stream_positive in El by lia. discriminate.
    + intros b. rewrite get_duestr_from_file_stages, El. reflexivity.
Qed.

Lemma filter_all {A : Type} (p : A -> bool) l :
  (forall x, In x l -> p x = true) -> List.filter p l = l.
Proof.
  induction l as [|x l IH]; intros H; [reflexivity|].
  cbn [List.filter]. rewrite (H x (or_introl eq_refl)). f_equal.
  apply IH. intros y Hy. apply H. right. exact Hy.
Qed.

Lemma report_verbose_nonempty stream filename ref overdue advance limit v :
  get_duestr_from_file stream filename ref overdue advance true limit
  = Return v ->
  is_not_empty_str v = true.
Proof.
  destruct (report_cases stream filename ref overdue advance limit)
    as [(s & Hd & H) | [(s & Hd & Hs & H) | (e & _ & H)]];
    rewrite (H true); intros Hv; inversion Hv; subst.
  - destruct s; [discriminate | reflexivity].
  - destruct s; [contradiction | reflexivity].
Qed.

Lemma Forall2_filter_all {A B : Type} (f : A -> outcome B) (p : B -> bool) l l' :
  Forall2 (fun a b => f a = Return b) l l' ->
  (forall a b, f a = Return b -> p b = true) ->
  List.filter p l' = l'.
Proof.
  intros H Hp. induction H as [|a b l l' Hab _ IH]; [reflexivity|].
  cbn [List.filter]. rewrite (Hp a b Hab), IH. reflexivity.
Qed.

(** X19: with [--verbose] and a reference that parses, [resurface] reads
    every listed file once, in descending order of the paths (the
    [.txt] files among the [.md] files when they are included), and
    it returns exactly when every report returns: then it echoes one
    line per file, the report of that file, in that order. *)
Theorem resurface_verbose_lists_every_file (read : str -> list str)
  (glob_md glob_txt : list str) (reference : str) (ref : datetime.date)
  (overdue advance : Z) (include_txt : bool) (limit : Z) :
  datetime.parse_iso reference = Some ref ->
  let files := files_read glob_md glob_txt include_txt in
  Permutation files (glob_md ++ (if include_txt then glob_txt else []))
  /\ StronglySorted (fun a b => str_ltb a b = false) files
  /\ forall out,
       (resurface read glob_md glob_txt reference overdue advance true
                  include_txt limit = Return out <->
        Forall2 (fun f line =>
                   get_duestr_from_file (read f) f ref overdue advance true
                                        limit = Return line)
                files out)
       /\ (resurface read glob_md glob_txt reference overdue advance true
                     include_txt limit = Return out ->
           length out
           = length (glob_md ++ (if include_txt then glob_txt else []))).
Proof.
  intros Href files.
  assert (Hperm : Permutation files
                    (glob_md ++ (if include_txt then glob_txt else [])))
    by apply sort_reverse_perm.
  split; [exact Hperm|].
  split; [apply files_read_descending|].
  intros out. rewrite (resurface_unfold _ _ _ _ _ _ _ _ _ _ Href).
  fold files.
  set (g := fun filename => get_duestr_from_file (read filename) filename ref
                              overdue advance true limit).
  assert (Hne : forall a b, g a = Return b -> is_not_empty_str b = true)
    by (intros a b; apply report_verbose_nonempty).
  assert (Hfwd : (do results <- omap g files;
                  Return (List.filter is_not_empty_str results)) = Return out ->
                 Forall2 (fun f line => g f = Return line) files out).
  { destruct (omap g files) as [results|e] eqn:E; [|discriminate].
    cbn [obind]. intros H. inversion H; subst out.
    apply omap_returns in E.
    rewrite (Forall2_filter_all g _ _ _ E Hne). exact E. }
  split; [split; [exact Hfwd|]|].
  - intros H. rewrite (omap_Forall2 g _ _ H). cbn [obind].
    rewrite (Forall2_filter_all g _ _ _ H Hne). reflexivity.
  - intros H. apply Hfwd in H. apply Forall2_length in H.
    rewrite <- H. apply Permutation_length. exact Hperm.
Qed.

(** X19 at two [.md] files and a [.txt] file. *)
Lemma resurface_verbose_lists_every_file_witness :
  Permutation (files_read [py "a.md"; py "c.md"] [py "b.txt"] true)
              ([py "a.md"; py "c.md"] ++ [py "b.txt"]).
Proof.
  exact (proj1 (resurface_verbose_lists_every_file
                  (fun _ => [py "rsf:"; py "- 2022-03-15"])
                  [py "a.md"; py "c.md"] [py "b.txt"] (py "2022-03-16")
                  (datetime.Date 2022 3 16) 3 0 true 0 eq_refl)).
Defined.

Lemma due_line_nonempty v : is_due_line v = true -> is_not_empty_str v = true.
Proof. destruct v as [| | |[|c s]|]; try discriminate; reflexivity. Qed.

Lemma filter_quiet vs :
  List.filter is_not_empty_str
    (map (fun v => if is_due_line v then v else AStr []) vs)
  = List.filter is_due_line vs.
Proof.
  induction vs as [|v vs IH]; [reflexivity|].
  cbn [map List.filter]. destruct (is_due_line v) eqn:E.
  - rewrite (due_line_nonempty v E), IH. reflexivity.
  - cbn [is_not_empty_str]. exact IH.
Qed.

Lemma filter_due_nonempty vs :
  List.filter is_due_line (List.filter is_not_empty_str vs)
  = List.filter is_due_line vs.
Proof.
  induction vs as [|v vs IH]; [reflexivity|].
  cbn [List.filter]. destruct (is_not_empty_str v) eqn:E.
  - cbn [List.filter]. rewrite IH. reflexivity.
  - rewrite IH. destruct (is_due_line v) eqn:Ed; [|reflexivity].
    rewrite (due_line_nonempty v Ed) in E. discriminate.
Qed.

Lemma omap_quiet read ref overdue advance limit files :
  match omap (fun f => get_duestr_from_file (read f) f ref overdue advance
                                            true limit) files with
  | Return vs =>
      omap (fun f => get_duestr_from_file (read f) f ref overdue advance
                                          false limit) files
      = Return (map (fun v => if is_due_line v then v else AStr []) vs)
  | Raise e =>
      omap (fun f => get_duestr_from_file (read f) f ref overdue advance
                                          false limit) files
      = Raise e
  end.
Proof.
  induction files as [|f files IH]; [reflexivity|].
  cbn [omap].
  destruct (report_cases (read f) f ref overdue advance limit)
    as [(s & Hd & H) | [(s & Hd & Hs & H) | (e & _ & H)]];
    rewrite (H true), (H false); cbn [obind]; [| |reflexivity].
  - destruct (omap _ files) as [vs|e]; cbn [obind].
    + rewrite IH. cbn [obind map]. rewrite Hd. reflexivity.
    + rewrite IH. reflexivity.
  - destruct (omap _ files) as [vs|e]; cbn [obind].
    + rewrite IH. cbn [obind map]. rewrite Hd. reflexivity.
    + rewrite IH. reflexivity.
Qed.

(** X20: without [--verbose], [resurface] echoes exactly the [DUE] lines
    that it echoes with [--verbose], in the same order, and nothing
    else; and it raises in exactly the same cases. *)
Theorem resurface_quiet_keeps_due_lines (read : str -> list str)
  (glob_md glob_txt : list str) (reference : str) (ref : datetime.date)
  (overdue advance : Z) (include_txt : bool) (limit : Z) :
  datetime.parse_iso reference = Some ref ->
  let run verbose :=
    resurface read glob_md glob_txt reference overdue advance verbose
              include_txt limit in
  (forall out_v,
     run true = Return out_v ->
     run false = Return (List.filter is_due_line out_v))
  /\ (forall out,
        run false = Return out ->
        List.Forall (fun line => is_due_line line = true) out
        /\ exists out_v,
             run true = Return out_v /\ out = List.filter is_due_line out_v)
  /\ (forall e, run true = Raise e <-> run false = Raise e).
Proof.
  intros Href run. unfold run.
  rewrite !(resurface_unfold _ _ _ _ _ _ _ _ _ _ Href).
  pose proof (omap_quiet read ref overdue advance limit
                (files_read glob_md glob_txt include_txt)) as Hq.
  destruct (omap _ (files_read glob_md glob_txt include_txt)) as [vs|ex];
    rewrite Hq; cbn [obind].
  - rewrite filter_quiet. split; [|split].
    + intros out_v H. inversion H. rewrite filter_due_nonempty. reflexivity.
    + intros out H. inversion H. split.
      * rewrite List.Forall_forall. intros x Hx.
        apply filter_In in Hx. apply Hx.
      * eexists. split; [reflexivity|].
        rewrite filter_due_nonempty. reflexivity.
    + intros e. split; discriminate.
  - split; [|split].
    + discriminate.
    + discriminate.
    + intros e. reflexivity.
Qed.

(** X20 at a directory with one due file and one file without schedule. *)
Lemma resurface_quiet_keeps_due_lines_witness :
  resurface (fun f => if str_ltb f (py "b") then [py "rsf:"; py "- 2022-03-15"]
                      else [py "no dates"])
    [py "a.md"; py "c.md"] [] (py "2022-03-16") 3 0 false false 0
  = Return [AStr (py "DUE : 2022-03-15 : a.md")].
Proof.
  refine (proj1 (resurface_quiet_keeps_due_lines
                   (fun f => if str_ltb f (py "b")
                             then [py "rsf:"; py "- 2022-03-15"]
                             else [py "no dates"])
                   [py "a.md"; py "c.md"] [] (py "2022-03-16")
                   (datetime.Date 2022 3 16) 3 0 false 0 eq_refl)
            [AStr (py "DateblockNotFound : c.md");
             AStr (py "DUE : 2022-03-15 : a.md")] _).
  vm_compute. reflexivity.
Defined.

Lemma Forall2_of_returns {A B : Type} (g : A -> outcome B) pre :
  (forall f, In f pre -> exists line, g f = Return line) ->
  exists pre', Forall2 (fun a b => g a = Return b) pre pre'.
Proof.
  induction pre as [|a pre IH]; intros H; [exists []; constructor|].
  destruct (H a (or_introl eq_refl)) as [b Hb].
  destruct IH as [pre' Hpre]; [intros f Hf; apply H; right; exact Hf|].
  exists (b :: pre'). constructor; assumption.
Qed.

(** X21: a reference in date form that is no calendar date makes
    [resurface] raise [ValueError]; with a reference that parses, the
    first file, in reading order, whose report raises makes the whole
    run raise that exception, so that nothing is echoed for the files
    read before it; and when such a run raises, the report of one of
    the listed files raises that exception. *)
Theorem resurface_raises (read : str -> list str)
  (glob_md glob_txt : list str) (reference : str)
  (overdue advance : Z) (verbose include_txt : bool) (limit : Z) :
  let run :=
    resurface read glob_md glob_txt reference overdue advance verbose
              include_txt limit in
  let report ref f :=
    get_duestr_from_file (read f) f ref overdue advance verbose limit in
  (date_token_shape reference = true ->
   datetime.parse_iso reference = None -> run = Raise ValueError)
  /\ (forall ref pre x post e,
        datetime.parse_iso reference = Some ref ->
        files_read glob_md glob_txt include_txt = pre ++ x :: post ->
        (forall f, In f pre -> exists line, report ref f = Return line) ->
        report ref x = Raise e ->
        run = Raise e)
  /\ (forall ref e,
        datetime.parse_iso reference = Some ref ->
        run = Raise e ->
        exists x,
          In x (glob_md ++ (if include_txt then glob_txt else []))
          /\ report ref x = Raise e).
Proof.
  intros run report.
  assert (Hfile : forall ref e,
            datetime.parse_iso reference = Some ref -> run = Raise e ->
            exists x, In x (files_read glob_md glob_txt include_txt)
                      /\ report ref x = Raise e).
  { intros ref e Href. unfold run.
    rewrite (resurface_unfold _ _ _ _ _ _ _ _ _ _ Href).
    destruct (omap _ (files_read glob_md glob_txt include_txt))
      as [vs|ex] eqn:E; [discriminate|].
    cbn [obind]. intros H. inversion H; subst ex.
    apply omap_raises in E as (pre & pre' & x & post & Hd & _ & Hx).
    exists x. split; [rewrite Hd; apply in_elt | exact Hx]. }
  split; [|split].
  - intros _ H. unfold run, resurface, fromisoformat. rewrite H. reflexivity.
  - intros ref pre x post e Href Hfiles Hpre Hx. unfold run.
    rewrite (resurface_unfold _ _ _ _ _ _ _ _ _ _ Href), Hfiles.
    destruct (Forall2_of_returns (report ref) pre Hpre) as [pre' Hpre'].
    unfold report in *.
    rewrite (omap_first_error _ pre pre' x e post Hpre' Hx). reflexivity.
  - intros ref e Href H. destruct (Hfile ref e Href H) as (x & Hin & Hx).
    exists x. split; [|exact Hx].
    eapply Permutation_in; [apply sort_reverse_perm | exact Hin].
Qed.

(** X21 at a file whose schedule lists the 30th of February. *)
Lemma resurface_raises_witness :
  resurface (fun _ => [py "rsf:"; py "- 2022-02-30"]) [py "a.md"] []
            (py "2022-03-16") 3 0 true false 0
  = Raise ValueError.
Proof.
  refine (proj1 (proj2 (resurface_raises
                          (fun _ => [py "rsf:"; py "- 2022-02-30"])
                          [py "a.md"] [] (py "2022-03-16") 3 0 true
                          false 0))
            (datetime.Date 2022 3 16) [] (py "a.md") [] ValueError
            eq_refl eq_refl _ eq_refl).
  intros f [].
Defined.

(** ** A schedule written in a note *)

Lemma entry_line_shape e :
  datetime.valid (date e) = true ->
  entry_shape (entry_line e)
    (if completed e then Some [chr 120] else None)
    (datetime.isoformat (date e)).
Proof.
  intros Hv. destruct (parse_iso_isoformat (date e) Hv) as [Hshape _].
  exists (chr 45), (py " "), (if completed e then py " " else []), [newline].
  split; [unfold entry_line; destruct (completed e); reflexivity|].
  split; [reflexivity|]. split; [reflexivity|].
  split; [destruct (completed e);
          [right; exists (chr 120); split; reflexivity | left; reflexivity]|].
  split; [destruct (completed e); reflexivity | exact Hshape].
Qed.

Lemma entry_line_parses e :
  datetime.valid (date e) = true ->
  _is_date_pattern_match (entry_line e) = true
  /\ from_datestr (_strip_trailing_newline (entry_line e)) = Return e.
Proof.
  intros Hv. pose proof (entry_line_shape e Hv) as Hsh.
  assert (Hm : _is_date_pattern_match (entry_line e) = true)
    by (apply is_date_shape; eauto).
  split; [exact Hm|].
  rewrite (proj2 (strip_entry_parses _ Hm)), (from_datestr_shape _ _ _ Hsh).
  rewrite (proj2 (parse_iso_isoformat (date e) Hv)).
  destruct e as [d c]. destruct c; reflexivity.
Qed.

Lemma entry_lines_parse entries :
  List.Forall (fun e => datetime.valid (date e) = true) entries ->
  forallb _is_date_pattern_match (map entry_line entries) = true
  /\ _duedateblock_from_strdateblock
       (map _strip_trailing_newline (map entry_line entries))
     = Return entries.
Proof.
  induction 1 as [|e entries He _ [IH1 IH2]]; [split; reflexivity|].
  destruct (entry_line_parses e He) as [Hm Hp]. split.
  - cbn [map forallb]. rewrite Hm, IH1. reflexivity.
  - unfold _duedateblock_from_strdateblock in *. cbn [map omap].
    rewrite Hp. cbn [obind]. rewrite IH2. reflexivity.
Qed.

(** X22: end to end: take a note made of lines without marker, a marker
    line, a schedule that is not empty, written one entry per line,
    and then a line that is no entry.  With no limit, or a limit that
    covers the schedule and fits [sys.maxsize], its report is the [DUE] line of the date
    that [get_due_date] selects from the schedule; the
    [NoDueDateFound] line, or the empty string without the flag, when
    it selects none; and [OverflowError] when the window does not
    exist. *)
Theorem get_duestr_from_file_schedule (pre : list str) (marker : str)
  (entries : list DueDate) (rest : list str) (filename : str)
  (reference : datetime.date) (overdue advance : Z) (return_nodues : bool)
  (limit : Z) :
  forallb _isnot_start_pattern_match pre = true ->
  _isnot_start_pattern_match marker = false ->
  entries <> [] ->
  List.Forall (fun e => datetime.valid (date e) = true) entries ->
  match rest with
  | [] => True
  | l :: _ => _is_date_pattern_match l = false
  end ->
  limit <= 0
  \/ Z.of_nat (length pre + 1 + length entries) <= limit <= sys.maxsize ->
  get_duestr_from_file (pre ++ marker :: map entry_line entries ++ rest)
    filename reference overdue advance return_nodues limit
  = match get_due_date entries reference overdue advance with
    | Return d => Return (AStr (get_due_str d filename))
    | Raise OverflowError => Raise OverflowError
    | Raise _ =>
        Return (AStr (if return_nodues
                      then py "NoDueDateFound : " ++ _excise_filestem filename
                      else []))
    end.
Proof.
  intros Hpre Hm Hne Hv Hrest Hlim.
  destruct (entry_lines_parse entries Hv) as [Hb Hparse].
  assert (Hat : dateblock_at
                  (pre ++ marker :: map entry_line entries ++ rest)
                  pre marker (map entry_line entries) rest)
    by (repeat split; assumption).
  destruct (find_dateblock_limit_covering _ _ _ _ _ limit Hat)
    as (limited & Hl & Hfind); [rewrite length_map; exact Hlim|].
  rewrite get_duestr_from_file_stages, Hl. cbn [obind]. unfold stages.
  rewrite Hfind, (find_dateblock_at _ _ _ _ _ Hat).
  destruct entries as [|e0 entries0] eqn:Ee; [contradiction|].
  rewrite <- Ee in *. 
  replace (match map entry_line entries with
           | [] => Raise DateblockNotFound
           | _ :: _ =>
               Return (map _strip_trailing_newline (map entry_line entries))
           end)
    with (Return (A:=list str)
            (map _strip_trailing_newline (map entry_line entries)))
    by (rewrite Ee; reflexivity).
  cbn [obind]. rewrite Hparse. cbn [obind].
  destruct (get_due_date entries reference overdue advance) as [d|ex] eqn:Eg;
    cbn [obind]; [reflexivity|].
  destruct (get_due_date_raise_cases _ _ _ _ _ Eg) as [-> | (rng & _ & ->)];
    reflexivity.
Qed.

(** X22 at a note with a completed and an open entry. *)
Lemma get_duestr_from_file_schedule_witness :
  get_duestr_from_file
    ([py "# Plan"] ++ py "rsf:" ::
       map entry_line [mkDueDate (datetime.Date 2022 3 10) true;
                       mkDueDate (datetime.Date 2022 3 15) false] ++ [py "end"])
    (py "notes/plan.md") (datetime.Date 2022 3 16) 3 0 false 0
  = Return (AStr (py "DUE : 2022-03-15 : plan.md")).
Proof.
  refine (get_duestr_from_file_schedule [py "# Plan"] (py "rsf:")
            [mkDueDate (datetime.Date 2022 3 10) true;
             mkDueDate (datetime.Date 2022 3 15) false] [py "end"]
            (py "notes/plan.md") (datetime.Date 2022 3 16) 3 0 false 0
            _ _ _ _ _ _).
  - reflexivity.
  - reflexivity.
  - discriminate.
  - repeat constructor.
  - reflexivity.
  - left. lia.
Defined.
